(** * Comic Engine backend: depth estimation over HTTP

    A shallow embedding of the Python backend
    ([comic_engine/core/depth.py], [comic_engine/core/image_utils.py],
    [comic_engine/adapters/depth_anything.py], [app.py]) and the
    properties of its specification.

    NumPy's [float32] arrays are modelled with IEEE-754 binary32
    arithmetic (round to nearest, ties to even, with infinities and
    NaN), Python exceptions with an explicit result type, the adapter's
    mutable attributes with explicit state passing. *)

From Stdlib Require Import ZArith QArith Qabs Lia List String Ascii Bool.
From Stdlib Require Import Strings.Byte.
From Stdlib Require Import Floats.SpecFloat.
From Stdlib Require Import DecimalString.
Import ListNotations.

(* ===================================================================== *)
(** * IEEE-754 binary32 *)
(* ===================================================================== *)

Module Float32.
Local Open Scope Z_scope.

(** Every finite binary32 number is an integer multiple of the smallest
    subnormal [2^-149]; [Fin n] stands for [n * 2^-149].  IEEE comparison
    identifies [+0] and [-0], and the program never divides by a zero
    (see [Float32Ops.sub_distinct_nonzero]), so both zeros are [Fin 0]. *)
Inductive float32 : Type :=
| NaN
| Inf (neg : bool)
| Fin (n : Z).

(** [1.0] in grid units, and the first magnitude that overflows
    ([2^128]) in grid units. *)
Definition one_grid : Z := 2 ^ 149.
Definition overflow_grid : Z := 2 ^ 277.

(** The largest finite number, [(2^24 - 1) * 2^104], in grid units. *)
Definition max_float : Z := (2 ^ 24 - 1) * 2 ^ 253.

Definition zero : float32 := Fin 0.
Definition one : float32 := Fin one_grid.
Definition of_Z (k : Z) : float32 := Fin (k * one_grid).

(** The real value of a finite number. *)
Definition to_Q (x : float32) : option Q :=
  match x with
  | Fin n => Some (Qmake n (Z.to_pos one_grid))
  | _ => None
  end.

(** Nearest integer to [a / d] ([0 < d]), ties to even. *)
Definition rne (a d : Z) : Z :=
  let f := a / d in
  match 2 * (a mod d) ?= d with
  | Lt => f
  | Gt => f + 1
  | Eq => if Z.even f then f else f + 1
  end.

(** Exponent (in grid units) of the last mantissa bit of [a / d]:
    24 significant bits, never below the subnormal grid. *)
Definition ulp_exp (a d : Z) : Z := Z.max 0 (Z.log2 (Z.abs a / d) - 23).

(** The rational [a / d] (in grid units, [0 < d]) rounded to 24
    significant bits, still as a grid multiple. *)
Definition round_grid (a d : Z) : Z :=
  let k := ulp_exp a d in
  rne a (d * 2 ^ k) * 2 ^ k.

(** A rounded magnitude of [2^128] or more overflows to an infinity. *)
Definition overflow (n : Z) : float32 :=
  if overflow_grid <=? Z.abs n then Inf (n <? 0) else Fin n.

(** Correct rounding of the rational [a / d] (in grid units, [0 < d]). *)
Definition round32 (a d : Z) : float32 := overflow (round_grid a d).

Definition is_nan (x : float32) : bool :=
  match x with NaN => true | _ => false end.

Definition is_finite (x : float32) : bool :=
  match x with Fin _ => true | _ => false end.

Definition sub (x y : float32) : float32 :=
  match x, y with
  | NaN, _ | _, NaN => NaN
  | Inf s, Inf t => if Bool.eqb s t then NaN else Inf s
  | Inf s, Fin _ => Inf s
  | Fin _, Inf t => Inf (negb t)
  | Fin a, Fin b => round32 (a - b) 1
  end.

Definition mul (x y : float32) : float32 :=
  match x, y with
  | NaN, _ | _, NaN => NaN
  | Inf s, Inf t => Inf (xorb s t)
  | Inf s, Fin b => if b =? 0 then NaN else Inf (xorb s (b <? 0))
  | Fin a, Inf t => if a =? 0 then NaN else Inf (xorb (a <? 0) t)
  | Fin a, Fin b => round32 (a * b) one_grid
  end.

Definition div (x y : float32) : float32 :=
  match x, y with
  | NaN, _ | _, NaN => NaN
  | Inf _, Inf _ => NaN
  | Inf s, Fin b => Inf (xorb s (b <? 0))
  | Fin _, Inf _ => Fin 0
  | Fin a, Fin b =>
      if b =? 0 then (if a =? 0 then NaN else Inf (a <? 0))
      else round32 (a * one_grid * Z.sgn b) (Z.abs b)
  end.

(** IEEE comparisons: every comparison with NaN is false. *)
Definition eqb (x y : float32) : bool :=
  match x, y with
  | Fin a, Fin b => a =? b
  | Inf s, Inf t => Bool.eqb s t
  | _, _ => false
  end.

Definition ltb (x y : float32) : bool :=
  match x, y with
  | NaN, _ | _, NaN => false
  | Inf s, Inf t => s && negb t
  | Inf s, Fin _ => s
  | Fin _, Inf t => negb t
  | Fin a, Fin b => a <? b
  end.

Definition leb (x y : float32) : bool :=
  match x, y with
  | NaN, _ | _, NaN => false
  | Inf s, Inf t => s || negb t
  | Inf s, Fin _ => s
  | Fin _, Inf t => negb t
  | Fin a, Fin b => a <=? b
  end.

(** ** Agreement with the Standard Library's IEEE-754 specification *)

Definition to_spec (x : float32) : spec_float :=
  match x with
  | NaN => S754_nan
  | Inf s => S754_infinity s
  | Fin 0 => S754_zero false
  | Fin n =>
      let k := Z.max 0 (Z.log2 (Z.abs n) - 23) in
      S754_finite (n <? 0) (Z.to_pos (Z.abs n / 2 ^ k)) (k - 149)
  end.

Definition of_spec (x : spec_float) : float32 :=
  match x with
  | S754_nan => NaN
  | S754_infinity s => Inf s
  | S754_zero _ => Fin 0
  | S754_finite s m e =>
      let a := Z.shiftl (Z.pos m) (e + 149) in
      Fin (if s then - a else a)
  end.

(** The number with the given 32-bit pattern. *)
Definition of_bits (b : Z) : float32 :=
  let sign := Z.testbit b 31 in
  let e := Z.land (Z.shiftr b 23) 255 in
  let m := Z.land b (2 ^ 23 - 1) in
  if e =? 255 then (if m =? 0 then Inf sign else NaN)
  else
    let n := if e =? 0 then m else (m + 2 ^ 23) * 2 ^ (e - 1) in
    Fin (if sign then - n else n).

Definition same (x y : float32) : bool :=
  match x, y with
  | NaN, NaN => true
  | Inf s, Inf t => Bool.eqb s t
  | Fin a, Fin b => a =? b
  | _, _ => false
  end.

(** Subtraction, multiplication, division and the comparisons of two
    numbers give what [SpecFloat] gives at precision 24 and [emax] 128. *)
Definition agrees (x y : float32) : bool :=
  same (sub x y) (of_spec (SFsub 24 128 (to_spec x) (to_spec y))) &&
  same (mul x y) (of_spec (SFmul 24 128 (to_spec x) (to_spec y))) &&
  same (div x y) (of_spec (SFdiv 24 128 (to_spec x) (to_spec y))) &&
  Bool.eqb (eqb x y) (SFeqb (to_spec x) (to_spec y)) &&
  Bool.eqb (ltb x y) (SFltb (to_spec x) (to_spec y)) &&
  Bool.eqb (leb x y) (SFleb (to_spec x) (to_spec y)) &&
  same (of_spec (to_spec x)) x.

(** Bit patterns from a linear congruential generator; every other pair
    has operands that differ in their low 25 bits only. *)
Definition lcg (s : Z) : Z :=
  (s * 6364136223846793005 + 1442695040888963407) mod 2 ^ 64.

Fixpoint samples (k : nat) (s : Z) : list (float32 * float32) :=
  match k with
  | O => []
  | S k =>
      let s1 := lcg s in
      let s2 := lcg s1 in
      let b1 := Z.shiftr s1 32 in
      let b2 := if Nat.even k then Z.shiftr s2 32
                else Z.lxor b1 (Z.land (Z.shiftr s2 32) (2 ^ 25 - 1)) in
      (of_bits b1, of_bits b2) :: samples k s2
  end.

Definition edge_cases : list float32 :=
  [NaN; Inf false; Inf true; Fin 0; Fin 1; Fin (-1); Fin (2 ^ 23);
   Fin (2 ^ 24 - 1); Fin (2 ^ 24); one; of_Z 255; of_Z 3;
   Fin max_float; Fin (- max_float); Fin (2 ^ 276); Fin (3 * 2 ^ 125)].

End Float32.

(* ===================================================================== *)
(** * Python values: bytes, exceptions, [str] *)
(* ===================================================================== *)

Module Py.

Definition bytes : Type := list Byte.byte.

(** The exceptions the backend raises or lets through. *)
Inductive exn : Type :=
| ValueError (msg : string)
| TypeError (msg : string)
| OtherException (class_name msg : string).

(** A call either returns a value or raises. *)
Inductive result (A : Type) : Type :=
| Ok (a : A)
| Raise (e : exn).
Arguments Ok {A} a.
Arguments Raise {A} e.

Definition bind {A B : Type} (c : result A) (k : A -> result B) : result B :=
  match c with
  | Ok a => k a
  | Raise e => Raise e
  end.

(** [str(e)] of an exception built from one message. *)
Definition str_exn (e : exn) : string :=
  match e with
  | ValueError msg | TypeError msg | OtherException _ msg => msg
  end.

(** [str(n)] of a non-negative [int]. *)
Definition str_int (n : nat) : string := NilZero.string_of_uint (Nat.to_uint n).

(** [t[i]] of a tuple, for an index that is not negative. *)
Definition getitem {A : Type} (t : list A) (i : nat) : result A :=
  match nth_error t i with
  | Some x => Ok x
  | None => Raise (OtherException "IndexError" "tuple index out of range")
  end.

End Py.

Declare Scope py_scope.
Delimit Scope py_scope with py.
Notation "x <- c ;; k" := (Py.bind c (fun x => k))
  (at level 61, c at next level, right associativity) : py_scope.

(* ===================================================================== *)
(** * NumPy: arrays, reductions, element-wise arithmetic *)
(* ===================================================================== *)

Module Numpy.
Import Py Float32.
Local Open Scope py_scope.

(** An array of any number of dimensions: its [shape], one length per
    axis ([[rows; columns]] for a 2-D array, [[]] for a 0-D one), and its
    buffer in row-major order.  The element type is the dtype. *)
Record ndarray (T : Type) : Type := mk_ndarray {
  shape : list nat;
  data : list T
}.
Arguments mk_ndarray {T} shape data.
Arguments shape {T} n.
Arguments data {T} n.

(** [a.ndim], [a.size] *)
Definition ndim {T} (a : ndarray T) : nat := List.length (shape a).

Definition size {T} (a : ndarray T) : nat := fold_right Nat.mul 1%nat (shape a).

Definition well_formed {T} (a : ndarray T) : Prop := List.length (data a) = size a.

(** [a[i, j]] of a 2-D array *)
Definition item {T} (a : ndarray T) (i j : nat) : option T :=
  match shape a with
  | [rows; columns] =>
      if (i <? rows)%nat && (j <? columns)%nat
      then nth_error (data a) (i * columns + j)
      else None
  | _ => None
  end.

(** [a.squeeze()]: every axis of length 1 is dropped. *)
Definition squeeze {T} (a : ndarray T) : ndarray T :=
  {| shape := filter (fun d => negb (d =? 1)%nat) (shape a); data := data a |}.

Definition map_array {T U} (f : T -> U) (a : ndarray T) : ndarray U :=
  {| shape := shape a; data := map f (data a) |}.

(** [np.minimum] and [np.maximum] return a NaN operand when there is one. *)
Definition minimum (a b : float32) : float32 :=
  if is_nan a then a else if is_nan b then b
  else if ltb b a then b else a.

Definition maximum (a b : float32) : float32 :=
  if is_nan a then a else if is_nan b then b
  else if ltb a b then b else a.

(** A reduction over all elements; an empty array has no minimum. *)
Definition reduce (op : float32 -> float32 -> float32) (name : string)
    (a : ndarray float32) : result float32 :=
  match data a with
  | [] => Raise (ValueError ("zero-size array to reduction operation "
                             ++ name ++ " which has no identity")%string)
  | x :: xs => Ok (fold_left op xs x)
  end.

(** [a.min()], [a.max()] *)
Definition min (a : ndarray float32) : result float32 := reduce minimum "minimum" a.
Definition max (a : ndarray float32) : result float32 := reduce maximum "maximum" a.

(** [a - s], [a / s], [a * s] with a scalar [s] *)
Definition subtract (a : ndarray float32) (s : float32) : ndarray float32 :=
  map_array (fun x => sub x s) a.
Definition divide (a : ndarray float32) (s : float32) : ndarray float32 :=
  map_array (fun x => div x s) a.
Definition multiply (a : ndarray float32) (s : float32) : ndarray float32 :=
  map_array (fun x => mul x s) a.

(** [a.clip(lo, hi)] is [minimum(hi, maximum(a, lo))]. *)
Definition clip (a : ndarray float32) (lo hi : float32) : ndarray float32 :=
  map_array (fun x => minimum hi (maximum x lo)) a.

(** [np.zeros_like(a, dtype=np.float32)] *)
Definition zeros_like {T} (a : ndarray T) : ndarray float32 :=
  {| shape := shape a; data := repeat zero (size a) |}.

(** [a.astype(np.float32)] on an array that is [float32] already. *)
Definition astype_float32 (a : ndarray float32) : ndarray float32 := a.

(** C leaves the conversion of a NaN, an infinity or an out-of-range number
    to an 8-bit unsigned integer undefined; the platform decides. *)
Class Platform : Type := uint8_of_invalid : float32 -> Z.

(** The C conversion to [uint8] truncates toward zero. *)
Definition to_uint8 `{Platform} (x : float32) : Z :=
  match x with
  | Fin n =>
      let t := Z.quot n one_grid in
      if (0 <=? t)%Z && (t <? 256)%Z then t else uint8_of_invalid x mod 256
  | _ => uint8_of_invalid x mod 256
  end.

(** [a.astype(np.uint8)] *)
Definition astype_uint8 `{Platform} (a : ndarray float32) : ndarray Z :=
  map_array to_uint8 a.

End Numpy.

(* ===================================================================== *)
(** * Pillow images *)
(* ===================================================================== *)

Module Pil.
Import Py Numpy.

(** The modes with 8-bit bands that the project's images have, and any
    other mode of the library ([CMYK], [LAB], [P], ...) by its name and
    its number of bands. *)
Inductive mode : Type := L | LA | RGB | RGBA | Other (name : string) (n : nat).

(** A decoded raster: [im_size] is [(width, height)]; [im_data] has one
    list of bands per pixel, row by row. *)
Record image : Type := mk_image {
  im_mode : mode;
  im_size : nat * nat;
  im_data : list (list Z)
}.

Definition bands (m : mode) : nat :=
  match m with L => 1 | LA => 2 | RGB => 3 | RGBA => 4 | Other _ n => n end.


(** What this development leaves to the library: the container codecs
    ([Image.open] parses the header of a byte stream, [load] decodes the
    whole raster, the PNG encoder serialises a raster that has pixels and
    refuses one that has none, with a message of its own) and the
    conversion to RGB of the modes other than the four above, which not
    every mode has. *)
Class Codec : Type := {
  file_handle : Type;
  Image_open : bytes -> result file_handle;
  load : file_handle -> result image;
  convert_pixels : string -> list (list Z) -> result (list (list Z));
  encode_PNG : image -> bytes;
  empty_image_message : string
}.

(** One pixel of [img.convert("RGB")]: grey is replicated, alpha dropped. *)
Definition pixel_to_rgb (m : mode) (px : list Z) : list Z :=
  match m, px with
  | L, [l] => [l; l; l]
  | LA, [l; _] => [l; l; l]
  | RGBA, [r; g; b; _] => [r; g; b]
  | _, _ => px
  end.

(** [img.convert("RGB")]: a new image of the same size; it raises what
    the library raises for a mode it cannot convert. *)
Definition convert_RGB `{Codec} (img : image) : result image :=
  match im_mode img with
  | Other name _ =>
      match convert_pixels name (im_data img) with
      | Ok pixels =>
          Ok {| im_mode := RGB; im_size := im_size img; im_data := pixels |}
      | Raise e => Raise e
      end
  | m =>
      Ok {| im_mode := RGB;
            im_size := im_size img;
            im_data := map (pixel_to_rgb m) (im_data img) |}
  end.

(** [Image.fromarray(a, mode="L")] of a [uint8] array: the size is
    [(1 if ndim == 1 else shape[1], shape[0])], and mode [L] takes two
    dimensions at most. *)
Definition fromarray_L (a : ndarray Z) : result image :=
  match shape a with
  | [] => Raise (OtherException "IndexError" "tuple index out of range")
  | [n] =>
      Ok {| im_mode := L; im_size := (1%nat, n);
            im_data := map (fun v => [v]) (data a) |}
  | [rows; columns] =>
      Ok {| im_mode := L; im_size := (columns, rows);
            im_data := map (fun v => [v]) (data a) |}
  | _ =>
      Raise (ValueError ("Too many dimensions: " ++ str_int (ndim a) ++ " > 2.")%string)
  end.

(** [np.array(img)] of a greyscale image. *)
Definition asarray_L (img : image) : ndarray Z :=
  {| shape := [snd (im_size img); fst (im_size img)];
     data := map (fun px => hd 0%Z px) (im_data img) |}.

(** [img.save(buf, format="PNG")]: an image without pixels is refused
    with a [ValueError]. *)
Definition save_PNG `{Codec} (img : image) : result bytes :=
  if (fst (im_size img) =? 0)%nat || (snd (im_size img) =? 0)%nat
  then Raise (ValueError empty_image_message)
  else Ok (encode_PNG img).

(** An 8-bit greyscale raster as the library holds it: at least one
    pixel, one band between 0 and 255 for each pixel. *)
Definition greyscale (img : image) : Prop :=
  im_mode img = L /\
  (0 < fst (im_size img))%nat /\ (0 < snd (im_size img))%nat /\
  List.length (im_data img) = (fst (im_size img) * snd (im_size img))%nat /\
  Forall (fun px => exists p, px = [p] /\ (0 <= p < 256)%Z) (im_data img).

(** PNG is lossless: what [save] wrote of a greyscale raster, [Image.open]
    and [load] read back as that raster. *)
Definition lossless `{Codec} : Prop :=
  forall (img : image) (png : bytes),
    greyscale img -> save_PNG img = Ok png ->
    bind (Image_open png) load = Ok img.

End Pil.

(* ===================================================================== *)
(** * [comic_engine/core/ports.py] *)
(* ===================================================================== *)

Module Ports.
Import Py Float32 Numpy Pil.

(** [DepthModelPort]: anything with a [predict] method.  A model is an
    object with state of its own, so [predict] returns the model after the
    call next to the raster, or the exception it raised.  Rasters are
    [float32] arrays, the dtype of the adapter's
    [prediction.cpu().numpy()] and of every model of the test suite. *)
Class DepthModelPort (M : Type) : Type :=
  predict : M -> image -> M * result (ndarray float32).

End Ports.

(* ===================================================================== *)
(** * [comic_engine/core/depth.py] *)
(* ===================================================================== *)

Module Depth.
Import Py Float32 Numpy Pil Ports.
Local Open Scope py_scope.

Definition estimate_depth {M} `{DepthModelPort M} (img : image) (model : M)
    : M * result (ndarray float32) :=
  let (model, r) := predict model img in
  (model,
   raw <- r ;;
   min_val <- Numpy.min raw ;;
   max_val <- Numpy.max raw ;;
   if eqb min_val max_val then Ok (zeros_like raw)
   else
     let normalised := divide (subtract raw min_val) (sub max_val min_val) in
     Ok (astype_float32 normalised)).

End Depth.

(* ===================================================================== *)
(** * [comic_engine/core/image_utils.py] *)
(* ===================================================================== *)

Module ImageUtils.
Import Py Float32 Numpy Pil.
Local Open Scope py_scope.

Definition decode_upload `{Codec} (file_bytes : bytes) : result image :=
  match (img <- Image_open file_bytes ;; load img) with
  | Raise _ => Raise (ValueError "Invalid image data")
  | Ok img => convert_RGB img
  end.

(** The 8-bit raster that [depth_to_png] hands to the PNG encoder. *)
Definition depth_to_uint8 `{Platform} (depth_array : ndarray float32) : ndarray Z :=
  astype_uint8 (clip (multiply depth_array (of_Z 255)) (of_Z 0) (of_Z 255)).

Definition depth_to_png `{Platform} `{Codec} (depth_array : ndarray float32)
    : result bytes :=
  let uint8 := depth_to_uint8 depth_array in
  img <- fromarray_L uint8 ;;
  save_PNG img.

End ImageUtils.

(* ===================================================================== *)
(** * [comic_engine/adapters/depth_anything.py] *)
(* ===================================================================== *)

Module DepthAnything.
Import Py Float32 Numpy Pil Ports.

(** [torch.device("mps")], [torch.device("cuda")], [torch.device("cpu")] *)
Inductive device : Type := mps | cuda | cpu.

(** What the adapter uses of torch, transformers and the process
    environment. *)
Class Torch : Type := {
  processor : Type;
  network : Type;
  mps_is_available : bool;
  cuda_is_available : bool;
  HF_HOME : option string;
  module_dir : string;
  processor_from_pretrained : string -> string -> result processor;
  network_from_pretrained : string -> string -> result network;
  network_to : network -> device -> result network;
  network_eval : network -> network;
  (** preprocessing, the forward pass and the bicubic interpolation: the
      buffer of the tensor that [interpolate] returns *)
  interpolated : processor -> network -> option device -> image -> result (list float32)
}.

(** The calls that leave the process, in the order they happen. *)
Inductive event : Type :=
| LoggedLoading (model_id : string) (d : device)
| ProcessorRequested (model_id cache_dir : string)
| NetworkRequested (model_id cache_dir : string)
| NetworkMoved (d : device)
| ForwardPass.

(** The attributes of a [DepthAnythingV2Adapter] object. *)
Record adapter `{Torch} : Type := mk_adapter {
  _processor : option processor;
  _model : option network;
  _device : option device
}.

Definition MODEL_ID : string := "depth-anything/Depth-Anything-V2-Small-hf".

(** [__init__] *)
Definition init `{Torch} : adapter :=
  {| _processor := None; _model := None; _device := None |}.

Definition _detect_device `{Torch} : device :=
  if mps_is_available then mps
  else if cuda_is_available then cuda
  else cpu.

Definition default_cache_dir `{Torch} : string :=
  (module_dir ++ "/../../models")%string.

Definition _load `{Torch} (self : adapter) (log : list event)
    : adapter * list event * result unit :=
  match _model self with
  | Some _ => (self, log, Ok tt)
  | None =>
      let cache_dir :=
        match HF_HOME with Some d => d | None => default_cache_dir end in
      let d := _detect_device in
      let self := {| _processor := _processor self; _model := _model self;
                     _device := Some d |} in
      let log := log ++ [LoggedLoading MODEL_ID d;
                         ProcessorRequested MODEL_ID cache_dir] in
      match processor_from_pretrained MODEL_ID cache_dir with
      | Raise e => (self, log, Raise e)
      | Ok p =>
          let self := {| _processor := Some p; _model := _model self;
                         _device := _device self |} in
          let log := log ++ [NetworkRequested MODEL_ID cache_dir] in
          match network_from_pretrained MODEL_ID cache_dir with
          | Raise e => (self, log, Raise e)
          | Ok m =>
              let self := {| _processor := _processor self; _model := Some m;
                             _device := _device self |} in
              let log := log ++ [NetworkMoved d] in
              match network_to m d with
              | Raise e => (self, log, Raise e)
              | Ok m =>
                  ({| _processor := _processor self;
                      _model := Some (network_eval m);
                      _device := _device self |}, log, Ok tt)
              end
          end
      end
  end.

(** Lines 56 to 69 of [predict] with the attributes read: [interpolate]
    is given the one prediction for the one image with a channel axis
    added and [size=image.size[::-1]], so its tensor has shape
    [(1, 1, height, width)]; [.squeeze()] then drops every axis of
    length 1, those of height and width too. *)
Definition infer `{Torch} (p : processor) (m : network) (d : option device)
    (img : image) : result (ndarray float32) :=
  match interpolated p m d img with
  | Ok buffer =>
      Ok (squeeze {| shape := [1%nat; 1%nat; snd (im_size img); fst (im_size img)];
                     data := buffer |})
  | Raise e => Raise e
  end.

Definition predict_adapter `{Torch} (self : adapter) (log : list event)
    (img : image) : adapter * list event * result (ndarray float32) :=
  match _load self log with
  | (self, log, Raise e) => (self, log, Raise e)
  | (self, log, Ok _) =>
      match _processor self, _model self with
      | Some p, Some m => (self, log ++ [ForwardPass], infer p m (_device self) img)
      | _, _ => (self, log, Raise (TypeError "'NoneType' object is not callable"))
      end
  end.

(** The adapter satisfies the port; its state is the object and the calls
    made so far. *)
#[export] Instance adapter_port `{Torch} : DepthModelPort (adapter * list event) :=
  fun st img =>
    let '(self, log, r) := predict_adapter (fst st) (snd st) img in
    ((self, log), r).

End DepthAnything.

(* ===================================================================== *)
(** * [app.py] *)
(* ===================================================================== *)

Module App.
Import Py Float32 Numpy Pil Ports Depth ImageUtils.
Local Open Scope string_scope.

Inductive body : Type :=
| Bytes (b : bytes)
| Json (fields : list (string * string))
| Text (s : string).

(** A [Response]: status, content type, content and extra headers. *)
Record response : Type := mk_response {
  status_code : nat;
  media_type : string;
  content : body;
  headers : list (string * string)
}.

(** How a route handler ends. *)
Inductive outcome : Type :=
| Returned (r : response)
| HTTPException (status : nat) (detail : string)
| Unhandled (e : exn).

(** [GET /api/health] *)
Definition health : outcome :=
  Returned {| status_code := 200; media_type := "application/json";
              content := Json [("status", "ok")]; headers := [] |}.

(** [POST /api/depth]; [file] is what [await file.read()] gives, [_model]
    the module's model object. *)
Definition depth {M} `{DepthModelPort M} `{Platform} `{Codec}
    (file : bytes) (_model : M) : M * outcome :=
  let raw := file in
  match decode_upload raw with
  | Raise (ValueError msg) => (_model, HTTPException 400 (str_exn (ValueError msg)))
  | Raise e => (_model, Unhandled e)
  | Ok img =>
      let (_model, r) := estimate_depth img _model in
      match r with
      | Raise e => (_model, Unhandled e)
      | Ok depth_map =>
          match depth_to_png depth_map with
          | Raise e => (_model, Unhandled e)
          | Ok png_bytes =>
              match getitem (shape depth_map) 1, getitem (shape depth_map) 0 with
              | Ok width, Ok height =>
                  (_model,
                   Returned
                     {| status_code := 200;
                        media_type := "image/png";
                        content := Bytes png_bytes;
                        headers :=
                          [("X-Depth-Width", str_int width);
                           ("X-Depth-Height", str_int height)] |})
              | Raise e, _ | _, Raise e => (_model, Unhandled e)
              end
          end
      end
  end.

(** What the framework sends for each outcome: an [HTTPException] becomes
    a JSON body with its detail, any other exception a 500. *)
Definition respond (o : outcome) : response :=
  match o with
  | Returned r => r
  | HTTPException status detail =>
      {| status_code := status; media_type := "application/json";
         content := Json [("detail", detail)]; headers := [] |}
  | Unhandled _ =>
      {| status_code := 500; media_type := "text/plain; charset=utf-8";
         content := Text "Internal Server Error"; headers := [] |}
  end.

End App.

(* ===================================================================== *)
(** * What the specification says, in its own words *)
(* ===================================================================== *)

Module Spec.
Import Py Float32 Numpy Pil DepthAnything.
Local Open Scope Z_scope.

(** Order on binary32 numbers; a NaN is never below or above anything. *)
Definition le (x y : float32) : Prop := leb x y = true.
Definition lt (x y : float32) : Prop := ltb x y = true.

(** "in the closed interval [0,1]" *)
Definition in_unit_interval (x : float32) : Prop := le zero x /\ le x one.

Definition clamp (lo hi x : Z) : Z := Z.max lo (Z.min hi x).

(** "each pixel = floor(value × 255) clamped to [0,255]", the product
    being the [float32] one; an infinite product clamps to an end, a NaN
    has no floor. *)
Definition floor_clamped (y : float32) : option Z :=
  match y with
  | NaN => None
  | Inf true => Some 0
  | Inf false => Some 255
  | Fin n => Some (clamp 0 255 (n / one_grid))
  end.

Definition depth_pixel (value : float32) : option Z :=
  floor_clamped (mul value (of_Z 255)).

(** "a fixed preference order ..., choosing the first available" *)
Definition first_available {D} (candidates : list (D * bool)) : option D :=
  option_map fst (find snd candidates).

(** "decoding it back": the stored byte over 255, as a rational and as
    the [float32] quotient of [np.array(img, dtype=np.float32) / 255.0]. *)
Definition recovered (p : Z) : Q := Qmake p 255.
Definition recovered32 (p : Z) : float32 := div (of_Z p) (of_Z 255).

(** "for the lifetime of the process": any sequence of calls to
    [predict] on one adapter object. *)
Fixpoint predictions `{Torch} (self : adapter) (log : list event)
    (imgs : list image) : adapter * list event :=
  match imgs with
  | [] => (self, log)
  | img :: rest =>
      let '(self, log, _) := predict_adapter self log img in
      predictions self log rest
  end.

End Spec.

(* ===================================================================== *)
(** * A table for the proofs: the error of each of the 256 bytes *)
(* ===================================================================== *)

Module Tables.
Import Float32 Spec.
Local Open Scope Z_scope.

(** The byte stored for [n] grid units, and what byte [p] decodes to, both
    in grid units. *)
Definition pixel_grid (n : Z) : Z :=
  clamp 0 255 (round_grid (n * (255 * one_grid)) one_grid / one_grid).

Definition recovered_grid (p : Z) : Z :=
  round_grid (p * one_grid * one_grid) (255 * one_grid).

(** Byte [p] decodes to [r]; [hi] and [lo] are the ends of the interval
    within [1/255] of [r].  The first number past either end is not stored
    as [p], and storing is monotone. *)
Definition tolerance_ok (p : Z) : bool :=
  let r := recovered_grid p in
  let hi := (one_grid + 255 * r) / 255 in
  let lo := - ((one_grid - 255 * r) / 255) in
  ((one_grid <=? hi) || (p <? pixel_grid (hi + 1))) &&
  ((lo <=? 0) || (pixel_grid (lo - 1) <? p)).

End Tables.

(* ===================================================================== *)
(** * Test doubles: a platform, a container format, models, environments *)
(* ===================================================================== *)

Module Fixtures.
Import Py Float32 Numpy Pil Ports DepthAnything.

(** A platform on which an invalid cast to [uint8] gives 0. *)
Definition zero_cast : Platform := fun _ => 0%Z.

(** A model that returns a fixed raster or raises a fixed exception, as
    the stub models of the tests do. *)
Definition StubModel : Type := result (ndarray float32).

#[export] Instance stub_port : DepthModelPort StubModel :=
  fun self _ => (self, self).

(** A headered raw container: one byte for the mode, the width and the
    height in unary (that many bytes 1, then a byte 0), then the bands of
    each pixel.  It knows two modes besides the four with 8-bit bands. *)
Definition byte_of_Z (z : Z) : Byte.byte :=
  match Byte.of_N (Z.to_N z) with Some b => b | None => Byte.x00 end.

Definition Z_of_byte (b : Byte.byte) : Z := Z.of_N (Byte.to_N b).

Definition mode_of_byte (b : Byte.byte) : option mode :=
  match Z_of_byte b with
  | 1 => Some L | 2 => Some LA | 3 => Some RGB | 4 => Some RGBA
  | 5 => Some (Other "LAB" 3) | 6 => Some (Other "CMYK" 4)
  | _ => None
  end%Z.

Definition byte_of_mode (m : mode) : Byte.byte :=
  match m with
  | L => Byte.x01 | LA => Byte.x02 | RGB => Byte.x03 | RGBA => Byte.x04
  | Other name _ => if String.eqb name "LAB" then Byte.x05 else Byte.x06
  end.

Fixpoint unary (n : nat) : bytes :=
  match n with
  | O => [Byte.x00]
  | S n => Byte.x01 :: unary n
  end.

Fixpoint read_unary (b : bytes) : option (nat * bytes) :=
  match b with
  | [] => None
  | Byte.x00 :: rest => Some (O, rest)
  | _ :: rest =>
      match read_unary rest with
      | Some (n, rest) => Some (S n, rest)
      | None => None
      end
  end.

Fixpoint chunks {A} (k : nat) (pixels : nat) (l : list A) : list (list A) :=
  match pixels with
  | O => []
  | S p => firstn k l :: chunks k p (skipn k l)
  end.

Definition unidentified {A} : result A :=
  Raise (OtherException "UnidentifiedImageError" "cannot identify image file").

Definition raw_open (b : bytes) : result (mode * nat * nat * bytes) :=
  match b with
  | m :: rest =>
      match mode_of_byte m, read_unary rest with
      | Some m, Some (w, rest) =>
          match read_unary rest with
          | Some (h, rest) => Ok (m, w, h, rest)
          | None => unidentified
          end
      | _, _ => unidentified
      end
  | [] => unidentified
  end.

Definition raw_load (f : mode * nat * nat * bytes) : result image :=
  let '(m, w, h, rest) := f in
  if (List.length rest =? w * h * bands m)%nat
  then Ok {| im_mode := m; im_size := (w, h);
             im_data := chunks (bands m) (w * h) (map Z_of_byte rest) |}
  else Raise (OtherException "OSError" "image file is truncated").

Definition raw_save (img : image) : bytes :=
  byte_of_mode (im_mode img)
  :: unary (fst (im_size img)) ++ unary (snd (im_size img))
  ++ map byte_of_Z (List.concat (im_data img)).

(** The library has no conversion from [LAB] to [RGB]; [CMYK] has one. *)
Definition raw_convert (name : string) (pixels : list (list Z))
    : result (list (list Z)) :=
  if String.eqb name "LAB"
  then Raise (ValueError "conversion from LAB to RGB not supported")
  else Ok (map (fun px =>
                  match px with
                  | [c; m; y; k] =>
                      [Z.max 0 (255 - c - k); Z.max 0 (255 - m - k);
                       Z.max 0 (255 - y - k)]%Z
                  | _ => px
                  end) pixels).

Definition raw_codec : Codec :=
  {| file_handle := mode * nat * nat * bytes;
     Image_open := raw_open;
     load := raw_load;
     convert_pixels := raw_convert;
     encode_PNG := raw_save;
     empty_image_message := "cannot write empty image as PNG" |}.

(** [b"not-an-image"] *)
Definition not_an_image : bytes :=
  list_byte_of_string "not-an-image".

(** A 2x2 RGBA upload in the raw container. *)
Definition rgba_2x2 : image :=
  {| im_mode := RGBA; im_size := (2, 2)%nat;
     im_data := [[0; 255; 0; 128]; [0; 255; 0; 128];
                 [0; 255; 0; 128]; [0; 255; 0; 128]]%Z |}.

Definition rgba_2x2_bytes : bytes := raw_save rgba_2x2.


(** A 1x1 upload in CIELAB, as a TIFF file can hold it. *)
Definition lab_1x1 : image :=
  {| im_mode := Other "LAB" 3; im_size := (1, 1)%nat;
     im_data := [[128; 128; 128]]%Z |}.

Definition lab_1x1_bytes : bytes := raw_save lab_1x1.

(** The raster of [test_normalisation_with_known_values]. *)
Definition known_raster : ndarray float32 :=
  {| shape := [2; 2]%nat; data := [of_Z 2; of_Z 4; of_Z 6; of_Z 8] |}.

(** The raster of [test_uniform_output_does_not_crash]. *)
Definition uniform_raster : ndarray float32 :=
  {| shape := [2; 2]%nat; data := repeat (of_Z 5) 4 |}.

(** Rasters at the edge of the format. *)
Definition wide_raster : ndarray float32 :=
  {| shape := [1; 2]%nat; data := [Fin (- max_float); Fin max_float] |}.

Definition sky_raster : ndarray float32 :=
  {| shape := [1; 2]%nat; data := [Fin 0; Inf false] |}.

(** A raster whose shape is not the 2x2 of the upload. *)
Definition strip_raster : ndarray float32 :=
  {| shape := [1; 3]%nat; data := [of_Z 1; of_Z 2; of_Z 3] |}.

(** A 2-D array without elements, and arrays of one and of three
    dimensions. *)
Definition empty_raster : ndarray float32 :=
  {| shape := [0; 3]%nat; data := [] |}.

Definition line_raster : ndarray float32 :=
  {| shape := [3]%nat; data := [of_Z 1; of_Z 2; of_Z 3] |}.

Definition cube_raster : ndarray float32 :=
  {| shape := [1; 1; 2]%nat; data := [of_Z 1; of_Z 2] |}.

(** [np.linspace(0.0, 1.0, num=num, dtype=np.float32)]: the values
    [k / (num - 1)], each rounded once. *)
Definition linspace01 (num : nat) : list float32 :=
  match num with
  | 1%nat => [zero]
  | _ => map (fun k => div (of_Z (Z.of_nat k)) (of_Z (Z.of_nat (num - 1))))
             (seq 0 num)
  end.

(** [conftest.py]: [sample_depth_array], [test_image], [MockDepthModel] *)
Definition sample_depth_array : ndarray float32 :=
  {| shape := [4; 4]%nat; data := linspace01 16 |}.

(** [Image.new("RGB", (width, height), color=(128, 128, 128))] *)
Definition grey_image (width height : nat) : image :=
  {| im_mode := RGB; im_size := (width, height);
     im_data := repeat [128; 128; 128]%Z (width * height) |}.

Definition test_image : image := grey_image 64 64.

Inductive MockDepthModel : Type := mock_model.

(** A vertical gradient: [np.tile(gradient[:, np.newaxis], (1, w))]. *)
#[export] Instance mock_port : DepthModelPort MockDepthModel :=
  fun self img =>
    let (w, h) := im_size img in
    (self, Ok {| shape := [h; w];
                 data := flat_map (fun v => repeat v w) (linspace01 h) |}).

(** [test_depth.py]: [UniformModel] returns [np.full((h, w), 5.0)]. *)
Inductive UniformModel : Type := uniform_model.

#[export] Instance uniform_port : DepthModelPort UniformModel :=
  fun self img =>
    let (w, h) := im_size img in
    (self, Ok {| shape := [h; w]; data := repeat (of_Z 5) (h * w) |}).

(** [test_app.py]: [_make_png_bytes], in the raw container. *)
Definition make_png_bytes (width height : nat) : bytes :=
  raw_save (grey_image width height).

(** An environment without accelerators in which every download works and
    the network answers with a vertical gradient. *)
Definition cpu_only : Torch :=
  {| processor := unit;
     network := bool;
     mps_is_available := false;
     cuda_is_available := false;
     HF_HOME := None;
     module_dir := "/srv/backend/comic_engine/adapters";
     processor_from_pretrained := fun _ _ => Ok tt;
     network_from_pretrained := fun _ _ => Ok false;
     network_to := fun m _ => Ok m;
     network_eval := fun _ => true;
     interpolated := fun _ _ _ img =>
       Ok (flat_map (fun r => repeat (of_Z (Z.of_nat r)) (fst (im_size img)))
                    (seq 0 (snd (im_size img)))) |}.

(** An environment in which the weights cannot be fetched. *)
Definition offline : Torch :=
  {| processor := unit;
     network := bool;
     mps_is_available := false;
     cuda_is_available := false;
     HF_HOME := None;
     module_dir := "/srv/backend/comic_engine/adapters";
     processor_from_pretrained := fun _ _ => Ok tt;
     network_from_pretrained := fun _ _ =>
       Raise (OtherException "OSError" "We couldn't connect to huggingface.co");
     network_to := fun m _ => Ok m;
     network_eval := fun _ => true;
     interpolated := fun _ _ _ _ =>
       Raise (OtherException "RuntimeError" "no weights") |}.

End Fixtures.

(* ===================================================================== *)
(** * The numbers of the format *)
(* ===================================================================== *)

Module Float32Format.
Import Float32.
Local Open Scope Z_scope.

(** [n] grid units is a binary32 number when it is below the overflow
    threshold and has no bit under the last of its 24 mantissa bits. *)
Definition is_float32 (n : Z) : bool :=
  (Z.abs n <? overflow_grid) && (n mod 2 ^ ulp_exp n 1 =? 0).

Definition representable (x : float32) : bool :=
  match x with
  | Fin n => is_float32 n
  | _ => true
  end.

(** [x + t] for [t] grid units, where no rounding occurs. *)
Definition shifted (t : Z) (x : float32) : float32 :=
  match x with
  | Fin n => Fin (n + t)
  | _ => x
  end.

(** The [float32] number [2^j], for [0 <= j <= 127], and the [float32]
    product [x * 2^j]. *)
Definition pow2 (j : Z) : float32 := Fin (2 ^ j * one_grid).

Definition scaled (j : Z) (x : float32) : float32 := mul x (pow2 j).

End Float32Format.

(* ===================================================================== *)
(** * Sequences of requests and further environments *)
(* ===================================================================== *)

Module Scenarios.
Import Py Float32 Numpy Pil Ports Depth ImageUtils DepthAnything App Fixtures.

(** The uploads of one process, served in order by [POST /api/depth] with
    the module's one model object. *)
Fixpoint serve {M} `{DepthModelPort M} `{Platform} `{Codec}
    (uploads : list bytes) (_model : M) : M * list response :=
  match uploads with
  | [] => (_model, [])
  | file :: rest =>
      let (_model, o) := depth file _model in
      let (_model, rs) := serve rest _model in
      (_model, respond o :: rs)
  end.

Definition decodable `{Codec} (file : bytes) : bool :=
  match decode_upload file with
  | Ok _ => true
  | Raise _ => false
  end.

(** Whether [Image.open] and [load] read the upload. *)
Definition readable `{Codec} (file : bytes) : bool :=
  match bind (Image_open file) load with
  | Ok _ => true
  | Raise _ => false
  end.

(** An environment with a CUDA device on which moving the network fails. *)
Definition move_fails : Torch :=
  {| processor := unit;
     network := bool;
     mps_is_available := false;
     cuda_is_available := true;
     HF_HOME := Some "/var/cache/hf"%string;
     module_dir := "/srv/backend/comic_engine/adapters";
     processor_from_pretrained := fun _ _ => Ok tt;
     network_from_pretrained := fun _ _ => Ok false;
     network_to := fun _ _ =>
       Raise (OtherException "RuntimeError" "CUDA out of memory");
     network_eval := fun _ => true;
     interpolated := fun _ in_eval_mode _ img =>
       Ok (repeat (if in_eval_mode then one else zero)
                  (snd (im_size img) * fst (im_size img))) |}.

(** A raster with one NaN. *)
Definition nan_raster : ndarray float32 :=
  {| shape := [1; 3]%nat; data := [of_Z 1; NaN; of_Z 3] |}.

(** The directory both [from_pretrained] calls are given. *)
Definition cache_dir `{Torch} : string :=
  match HF_HOME with Some d => d | None => default_cache_dir end.

(** The calls of one load, up to the fetch of the processor and up to the
    fetch of the network. *)
Definition processor_attempt `{Torch} : list event :=
  [LoggedLoading MODEL_ID _detect_device; ProcessorRequested MODEL_ID cache_dir].

Definition network_attempt `{Torch} : list event :=
  processor_attempt ++ [NetworkRequested MODEL_ID cache_dir].

Definition is_forward_pass (e : event) : bool :=
  match e with ForwardPass => true | _ => false end.

(** An event as the adapter can produce it: the one model id, the one
    cache directory, the detected device. *)
Definition expected_event `{Torch} (e : event) : Prop :=
  match e with
  | LoggedLoading id d => id = MODEL_ID /\ d = _detect_device
  | ProcessorRequested id dir | NetworkRequested id dir =>
      id = MODEL_ID /\ dir = cache_dir
  | NetworkMoved d => d = _detect_device
  | ForwardPass => True
  end.

(** The answer to an upload that is not an image. *)
Definition invalid_image_response : response :=
  {| status_code := 400; media_type := "application/json";
     content := Json [("detail", "Invalid image data")]%string; headers := [] |}.

End Scenarios.

(* ===================================================================== *)
(** * Properties *)
(* ===================================================================== *)

(** * Rounding to binary32 is exact on the format and order preserving *)

Module Float32Facts.
Import Float32.
Local Open Scope Z_scope.

(** ** Round to nearest, ties to even *)

Lemma even_succ_absurd n : Z.even n = true -> Z.even (n + 1) = true -> False.
Proof.
  rewrite !Z.even_spec. intros [k Hk] [j Hj]. lia.
Qed.

Lemma rne_bounds a d :
  0 < d -> (2 * rne a d - 1) * d <= 2 * a <= (2 * rne a d + 1) * d.
Proof.
  intros Hd. unfold rne.
  pose proof (Z.div_mod a d ltac:(lia)) as Ha.
  pose proof (Z.mod_pos_bound a d Hd) as Hr.
  set (f := a / d) in *. set (r := a mod d) in *.
  destruct (Z.compare_spec (2 * r) d); [destruct (Z.even f)| |]; nia.
Qed.

Lemma rne_tie_even a d :
  0 < d ->
  2 * a = (2 * rne a d - 1) * d \/ 2 * a = (2 * rne a d + 1) * d ->
  Z.even (rne a d) = true.
Proof.
  intros Hd. unfold rne.
  pose proof (Z.div_mod a d ltac:(lia)) as Ha.
  pose proof (Z.mod_pos_bound a d Hd) as Hr.
  set (f := a / d) in *. set (r := a mod d) in *.
  destruct (Z.compare_spec (2 * r) d) as [He|Hl|Hg].
  - destruct (Z.even f) eqn:Hf; intros _; [exact Hf|].
    replace (f + 1) with (Z.succ f) by lia.
    rewrite Z.even_succ, <- Z.negb_even, Hf. reflexivity.
  - intros [H|H]; nia.
  - intros [H|H]; nia.
Qed.

Lemma rne_mono a d a' d' :
  0 < d -> 0 < d' -> a * d' <= a' * d -> rne a d <= rne a' d'.
Proof.
  intros Hd Hd' Hle.
  pose proof (rne_bounds a d Hd) as [Hlo _].
  pose proof (rne_bounds a' d' Hd') as [_ Hhi].
  pose proof (rne_tie_even a d Hd) as Te.
  pose proof (rne_tie_even a' d' Hd') as Te'.
  set (n := rne a d) in *. set (n' := rne a' d') in *.
  destruct (Z_le_gt_dec n n') as [|Hgt]; [assumption|exfalso].
  assert (Hchain : (2 * n - 1) * (d * d') <= (2 * n' + 1) * (d * d')) by nia.
  assert (Hn : n = n' + 1) by nia.
  assert (E1 : 2 * a = (2 * n - 1) * d) by nia.
  assert (E2 : 2 * a' = (2 * n' + 1) * d') by nia.
  apply (even_succ_absurd n'); [auto|rewrite <- Hn; auto].
Qed.

Lemma rne_exact z d : 0 < d -> rne (z * d) d = z.
Proof.
  intros Hd. unfold rne.
  rewrite Z.div_mul, Z.mod_mul by lia.
  destruct (Z.compare_spec (2 * 0) d); [lia|reflexivity|lia].
Qed.

Lemma rne_opp a d : 0 < d -> rne (- a) d = - rne a d.
Proof.
  intros Hd.
  assert (H1 : rne (- a) d <= - rne a d).
  { pose proof (rne_bounds a d Hd) as [Hlo _].
    pose proof (rne_bounds (- a) d Hd) as [Hlo' _].
    pose proof (rne_tie_even a d Hd) as Te.
    pose proof (rne_tie_even (- a) d Hd) as Te'.
    set (n := rne a d) in *. set (m := rne (- a) d) in *.
    destruct (Z_le_gt_dec m (- n)) as [|Hgt]; [assumption|exfalso].
    assert (Hm : m = - n + 1) by nia.
    assert (E1 : 2 * a = (2 * n - 1) * d) by nia.
    assert (E2 : 2 * - a = (2 * m - 1) * d) by nia.
    apply (even_succ_absurd (- n)); [rewrite Z.even_opp; auto|rewrite <- Hm; auto]. }
  assert (H2 : - rne a d <= rne (- a) d).
  { pose proof (rne_bounds a d Hd) as [_ Hhi].
    pose proof (rne_bounds (- a) d Hd) as [_ Hhi'].
    pose proof (rne_tie_even a d Hd) as Te.
    pose proof (rne_tie_even (- a) d Hd) as Te'.
    set (n := rne a d) in *. set (m := rne (- a) d) in *.
    destruct (Z_le_gt_dec (- n) m) as [|Hgt]; [assumption|exfalso].
    assert (Hm : - n = m + 1) by nia.
    assert (E1 : 2 * a = (2 * n + 1) * d) by nia.
    assert (E2 : 2 * - a = (2 * m + 1) * d) by nia.
    apply (even_succ_absurd m); [auto|rewrite <- Hm, Z.even_opp; auto]. }
  lia.
Qed.

(** ** Rounding to the binary32 grid *)

Lemma div_frac_mono a d a' d' :
  0 < d -> 0 < d' -> a * d' <= a' * d -> a / d <= a' / d'.
Proof.
  intros Hd Hd' Hle. apply Z.div_le_lower_bound; [assumption|].
  pose proof (Z.mul_div_le a d Hd). nia.
Qed.

Lemma ulp_exp_nonneg a d : 0 <= ulp_exp a d.
Proof. unfold ulp_exp. lia. Qed.

Lemma ulp_exp_opp a d : ulp_exp (- a) d = ulp_exp a d.
Proof. unfold ulp_exp. rewrite Z.abs_opp. reflexivity. Qed.

Lemma ulp_exp_mono a d a' d' :
  0 < d -> 0 < d' -> 0 <= a -> a * d' <= a' * d ->
  ulp_exp a d <= ulp_exp a' d'.
Proof.
  intros Hd Hd' Ha Hle. unfold ulp_exp.
  assert (Ha' : 0 <= a') by nia.
  rewrite !Z.abs_eq by assumption.
  pose proof (Z.log2_le_mono (a / d) (a' / d') (div_frac_mono _ _ _ _ Hd Hd' Hle)).
  lia.
Qed.

(** Below its binade's upper end, and at or above its lower end. *)
Lemma ulp_exp_upper a d :
  0 < d -> 0 <= a -> a < 2 ^ (ulp_exp a d + 24) * d.
Proof.
  intros Hd Ha. unfold ulp_exp. rewrite Z.abs_eq by assumption.
  set (q := a / d).
  assert (Hq : 0 <= q) by (apply Z.div_pos; lia).
  assert (Hlt : q < 2 ^ (Z.max 0 (Z.log2 q - 23) + 24)).
  { destruct (Z.eq_dec q 0) as [->|Hne].
    - apply Z.pow_pos_nonneg; lia.
    - pose proof (Z.log2_spec q ltac:(lia)) as [_ Hs].
      eapply Z.lt_le_trans; [exact Hs|].
      apply Z.pow_le_mono_r; lia. }
  pose proof (Z.div_mod a d ltac:(lia)).
  pose proof (Z.mod_pos_bound a d Hd).
  fold q in H. nia.
Qed.

Lemma ulp_exp_lower a d :
  0 < d -> 0 <= a -> 0 < ulp_exp a d -> 2 ^ (ulp_exp a d + 23) * d <= a.
Proof.
  intros Hd Ha. unfold ulp_exp. rewrite Z.abs_eq by assumption.
  set (q := a / d). intros Hk.
  assert (Hq : 0 < q).
  { destruct (Z_le_gt_dec q 0) as [Hle|]; [|lia].
    apply Z.log2_nonpos in Hle. rewrite Hle in Hk. lia. }
  pose proof (Z.log2_spec q Hq) as [Hs _].
  replace (Z.max 0 (Z.log2 q - 23) + 23) with (Z.log2 q) by lia.
  pose proof (Z.mul_div_le a d Hd). fold q in H. nia.
Qed.

Lemma round_grid_opp a d : 0 < d -> round_grid (- a) d = - round_grid a d.
Proof.
  intros Hd. unfold round_grid. rewrite ulp_exp_opp.
  pose proof (ulp_exp_nonneg a d).
  rewrite rne_opp by (apply Z.mul_pos_pos; [|apply Z.pow_pos_nonneg]; lia).
  lia.
Qed.

Lemma round_grid_mono_nonneg a d a' d' :
  0 < d -> 0 < d' -> 0 <= a -> a * d' <= a' * d ->
  round_grid a d <= round_grid a' d'.
Proof.
  intros Hd Hd' Ha Hle.
  assert (Ha' : 0 <= a') by nia.
  pose proof (ulp_exp_mono a d a' d' Hd Hd' Ha Hle) as Hk.
  pose proof (ulp_exp_nonneg a d) as Hk0.
  pose proof (ulp_exp_upper a d Hd Ha) as Hup.
  unfold round_grid.
  set (k := ulp_exp a d) in *. set (k' := ulp_exp a' d') in *.
  assert (P : 0 < 2 ^ k) by (apply Z.pow_pos_nonneg; lia).
  assert (P' : 0 < 2 ^ k') by (apply Z.pow_pos_nonneg; lia).
  destruct (Z.eq_dec k k') as [<-|Hne].
  - apply Z.mul_le_mono_nonneg_r; [lia|].
    apply rne_mono; nia.
  - assert (Hk' : 0 < k') by lia.
    pose proof (ulp_exp_lower a' d' Hd' Ha' Hk') as Hlow.
    fold k' in Hlow.
    apply Z.le_trans with (2 ^ (k + 24)).
    + replace (2 ^ (k + 24)) with (2 ^ 24 * 2 ^ k) by (rewrite Z.pow_add_r; lia).
      apply Z.mul_le_mono_nonneg_r; [lia|].
      apply Z.le_trans with (rne (2 ^ 24 * (d * 2 ^ k)) (d * 2 ^ k));
        [|rewrite rne_exact by nia; lia].
      apply rne_mono; try nia.
      rewrite Z.pow_add_r in Hup by lia. nia.
    + apply Z.le_trans with (2 ^ (k' + 23)).
      * apply Z.pow_le_mono_r; lia.
      * replace (2 ^ (k' + 23)) with (2 ^ 23 * 2 ^ k') by (rewrite Z.pow_add_r; lia).
        apply Z.mul_le_mono_nonneg_r; [lia|].
        apply Z.le_trans with (rne (2 ^ 23 * (d' * 2 ^ k')) (d' * 2 ^ k'));
          [rewrite rne_exact by nia; lia|].
        apply rne_mono; try nia.
        rewrite Z.pow_add_r in Hlow by lia. nia.
Qed.

Lemma round_grid_zero d : 0 < d -> round_grid 0 d = 0.
Proof.
  intros Hd. unfold round_grid.
  pose proof (ulp_exp_nonneg 0 d).
  assert (P : 0 < d * 2 ^ ulp_exp 0 d)
    by (apply Z.mul_pos_pos; [|apply Z.pow_pos_nonneg]; lia).
  pose proof (rne_exact 0 _ P) as E. rewrite Z.mul_0_l in E. rewrite E. reflexivity.
Qed.

Lemma round_grid_mono a d a' d' :
  0 < d -> 0 < d' -> a * d' <= a' * d ->
  round_grid a d <= round_grid a' d'.
Proof.
  intros Hd Hd' Hle.
  destruct (Z_le_gt_dec 0 a) as [Ha|Ha].
  - apply round_grid_mono_nonneg; assumption.
  - destruct (Z_le_gt_dec 0 a') as [Ha'|Ha'].
    + apply Z.le_trans with 0.
      * pose proof (round_grid_mono_nonneg 0 d (- a) d Hd Hd ltac:(lia) ltac:(nia)) as H.
        rewrite round_grid_opp, round_grid_zero in H by assumption. lia.
      * rewrite <- (round_grid_zero d') by assumption.
        apply round_grid_mono_nonneg; nia.
    + pose proof (round_grid_mono_nonneg (- a') d' (- a) d Hd' Hd ltac:(lia) ltac:(nia)) as H.
      rewrite !round_grid_opp in H by assumption. lia.
Qed.

(** A number with at most 24 significant bits rounds to itself. *)
Lemma round_grid_exact m j d :
  0 < d -> 0 <= j -> Z.abs m < 2 ^ 24 -> round_grid (m * 2 ^ j * d) d = m * 2 ^ j.
Proof.
  intros Hd Hj Hm.
  assert (Hpos : forall m, 0 <= m < 2 ^ 24 -> round_grid (m * 2 ^ j * d) d = m * 2 ^ j).
  { clear m Hm. intros m Hm. unfold round_grid.
    assert (Hk : ulp_exp (m * 2 ^ j * d) d <= j).
    { unfold ulp_exp. rewrite Z.abs_eq by (pose proof (Z.pow_pos_nonneg 2 j); nia).
      rewrite Z.div_mul by lia.
      destruct (Z.eq_dec m 0) as [->|Hne]; [simpl; lia|].
      rewrite Z.log2_mul_pow2 by lia.
      pose proof (Z.log2_lt_pow2 m 24 ltac:(lia)) as [Hl _].
      specialize (Hl ltac:(lia)). lia. }
    pose proof (ulp_exp_nonneg (m * 2 ^ j * d) d) as Hk0.
    set (k := ulp_exp (m * 2 ^ j * d) d) in *.
    assert (P : 0 < 2 ^ k) by (apply Z.pow_pos_nonneg; lia).
    assert (E : 2 ^ j = 2 ^ (j - k) * 2 ^ k)
      by (rewrite <- Z.pow_add_r by lia; f_equal; lia).
    replace (m * 2 ^ j * d) with (m * 2 ^ (j - k) * (d * 2 ^ k)) by (rewrite E; ring).
    rewrite rne_exact by nia. rewrite E. ring. }
  destruct (Z_le_gt_dec 0 m) as [H0|H0].
  - apply Hpos. lia.
  - replace (m * 2 ^ j * d) with (- (- m * 2 ^ j * d)) by ring.
    rewrite round_grid_opp, Hpos by lia. ring.
Qed.

(** ** Agreement with [SpecFloat] on sampled and on special operands *)

Example agreement_on_samples :
  forallb (fun xy => agrees (fst xy) (snd xy)) (samples 300 2024) = true.
Proof. vm_compute. reflexivity. Qed.

Example agreement_on_edge_cases :
  forallb (fun xy => agrees (fst xy) (snd xy)) (list_prod edge_cases edge_cases)
  = true.
Proof. vm_compute. reflexivity. Qed.

Example one_is_0x3f800000 : of_bits 0x3f800000 = one.
Proof. vm_compute. reflexivity. Qed.

Example max_float_is_0x7f7fffff : of_bits 0x7f7fffff = Fin max_float.
Proof. vm_compute. reflexivity. Qed.

End Float32Facts.

(** * Arithmetic and comparison on binary32 *)

Module Float32Ops.
Import Float32 Float32Facts Spec.
Local Open Scope Z_scope.

Lemma one_grid_pos : 0 < one_grid.
Proof. reflexivity. Qed.

Lemma one_grid_lt_overflow : one_grid < overflow_grid.
Proof. reflexivity. Qed.

Lemma overflow_fin n : Z.abs n < overflow_grid -> overflow n = Fin n.
Proof.
  intros H. unfold overflow.
  destruct (Z.leb_spec overflow_grid (Z.abs n)); [lia|reflexivity].
Qed.

Lemma overflow_fin_inv n r :
  overflow n = Fin r -> r = n /\ Z.abs n < overflow_grid.
Proof.
  unfold overflow.
  destruct (Z.leb_spec overflow_grid (Z.abs n)); [discriminate|].
  intros [= <-]. split; [reflexivity|assumption].
Qed.

Lemma round_grid_ge m j a d :
  0 < d -> 0 <= j -> Z.abs m < 2 ^ 24 -> m * 2 ^ j * d <= a ->
  m * 2 ^ j <= round_grid a d.
Proof.
  intros Hd Hj Hm Hle.
  rewrite <- (round_grid_exact m j d Hd Hj Hm).
  apply round_grid_mono; nia.
Qed.

Lemma round_grid_le m j a d :
  0 < d -> 0 <= j -> Z.abs m < 2 ^ 24 -> a <= m * 2 ^ j * d ->
  round_grid a d <= m * 2 ^ j.
Proof.
  intros Hd Hj Hm Hle.
  rewrite <- (round_grid_exact m j d Hd Hj Hm).
  apply round_grid_mono; nia.
Qed.

Lemma round_grid_nonneg a d : 0 < d -> 0 <= a -> 0 <= round_grid a d.
Proof.
  intros Hd Ha.
  apply (round_grid_ge 0 0 a d Hd); [lia|reflexivity|lia].
Qed.

Lemma round_grid_nonpos a d : 0 < d -> a <= 0 -> round_grid a d <= 0.
Proof.
  intros Hd Ha.
  apply (round_grid_le 0 0 a d Hd); [lia|reflexivity|lia].
Qed.

(** An integer number of units below [2^24] is a binary32 number. *)
Lemma round_grid_ge_int k a d :
  0 < d -> Z.abs k < 2 ^ 24 -> k * one_grid * d <= a ->
  k * one_grid <= round_grid a d.
Proof. intros Hd Hk. apply round_grid_ge; [assumption|lia|assumption]. Qed.

Lemma round_grid_le_int k a d :
  0 < d -> Z.abs k < 2 ^ 24 -> a <= k * one_grid * d ->
  round_grid a d <= k * one_grid.
Proof. intros Hd Hk. apply round_grid_le; [assumption|lia|assumption]. Qed.

Lemma le_refl_fin n : le (Fin n) (Fin n).
Proof. unfold le. simpl. apply Z.leb_refl. Qed.

Lemma le_fin a b : le (Fin a) (Fin b) <-> a <= b.
Proof. unfold le. simpl. apply Z.leb_le. Qed.

Lemma lt_fin a b : lt (Fin a) (Fin b) <-> a < b.
Proof. unfold lt. simpl. apply Z.ltb_lt. Qed.

(** Between two finite bounds there are only finite numbers. *)
Lemma between_fin lo hi y :
  le (Fin lo) y -> le y (Fin hi) -> exists n, y = Fin n /\ lo <= n <= hi.
Proof.
  unfold le. destruct y as [|[]|n]; simpl; try discriminate.
  intros H1 H2. exists n. split; [reflexivity|lia].
Qed.

(** Two numbers that are not equal never have a zero difference: distinct
    finite numbers are a grid step apart at least. *)
Lemma sub_distinct_nonzero lo hi :
  eqb lo hi = false -> eqb (sub hi lo) zero = false.
Proof.
  destruct lo as [|s|a], hi as [|t|b]; try reflexivity.
  - cbn [eqb sub]. destruct s, t; try discriminate; reflexivity.
  - cbn [eqb]. intros Hne. apply Z.eqb_neq in Hne.
    change (sub (Fin b) (Fin a)) with (overflow (round_grid (b - a) 1)).
    unfold overflow. destruct (_ <=? _); [reflexivity|].
    cbn [eqb zero]. apply Z.eqb_neq.
    destruct (Z_lt_le_dec a b).
    + pose proof (round_grid_ge 1 0 (b - a) 1 ltac:(lia) ltac:(lia) eq_refl ltac:(lia)).
      lia.
    + pose proof (round_grid_le (-1) 0 (b - a) 1 ltac:(lia) ltac:(lia) eq_refl ltac:(lia)).
      lia.
Qed.

(** ** The quotient [(x - lo) / (hi - lo)] when the spread is finite *)

Section Normalise.
Variables lo hi b : Z.
Hypothesis lo_lt_hi : lo < hi.
Hypothesis spread : sub (Fin hi) (Fin lo) = Fin b.

Lemma spread_value : b = round_grid (hi - lo) 1 /\ Z.abs b < overflow_grid.
Proof.
  destruct (overflow_fin_inv (round_grid (hi - lo) 1) b spread) as [E H].
  rewrite <- E in H. split; assumption.
Qed.

Lemma spread_pos : 1 <= b.
Proof.
  destruct spread_value as [-> _].
  apply (round_grid_ge 1 0); [lia|lia|reflexivity|lia].
Qed.

Lemma offset_value n :
  lo <= n <= hi ->
  sub (Fin n) (Fin lo) = Fin (round_grid (n - lo) 1) /\
  0 <= round_grid (n - lo) 1 <= b.
Proof.
  intros Hn. destruct spread_value as [Hb Hov].
  assert (H0 : 0 <= round_grid (n - lo) 1)
    by (apply round_grid_nonneg; lia).
  assert (H1 : round_grid (n - lo) 1 <= b)
    by (rewrite Hb; apply round_grid_mono; lia).
  split; [|lia].
  simpl. unfold round32. apply overflow_fin. lia.
Qed.

Lemma quotient_value c :
  0 <= c <= b ->
  div (Fin c) (Fin b) = Fin (round_grid (c * one_grid) b) /\
  0 <= round_grid (c * one_grid) b <= one_grid.
Proof.
  intros Hc. pose proof spread_pos as Hb.
  pose proof one_grid_pos as HG.
  assert (H0 : 0 <= round_grid (c * one_grid) b)
    by (apply round_grid_nonneg; nia).
  assert (H1 : round_grid (c * one_grid) b <= one_grid).
  { change one_grid with (1 * 2 ^ 149) at 2.
    apply round_grid_le; [lia|lia|reflexivity|].
    change (1 * 2 ^ 149) with one_grid. nia. }
  split; [|lia].
  simpl. destruct (Z.eqb_spec b 0) as [|_]; [lia|].
  replace (Z.sgn b) with 1 by lia.
  rewrite Z.abs_eq, Z.mul_1_r by lia.
  unfold round32. apply overflow_fin.
  pose proof one_grid_lt_overflow. lia.
Qed.

(** The normalised value of a raster element, as the code computes it. *)
Lemma normalise_value n :
  lo <= n <= hi ->
  div (sub (Fin n) (Fin lo)) (sub (Fin hi) (Fin lo))
  = Fin (round_grid (round_grid (n - lo) 1 * one_grid) b) /\
  0 <= round_grid (round_grid (n - lo) 1 * one_grid) b <= one_grid.
Proof.
  intros Hn. destruct (offset_value n Hn) as [-> Hc].
  rewrite spread. apply quotient_value. exact Hc.
Qed.

Lemma normalise_mono n n' :
  lo <= n -> n <= n' ->
  round_grid (round_grid (n - lo) 1 * one_grid) b
  <= round_grid (round_grid (n' - lo) 1 * one_grid) b.
Proof.
  intros Hlo Hle. pose proof spread_pos as Hb.
  pose proof one_grid_pos as HG.
  apply round_grid_mono; [lia|lia|].
  assert (round_grid (n - lo) 1 <= round_grid (n' - lo) 1)
    by (apply round_grid_mono; lia).
  apply Z.mul_le_mono_nonneg_r; [lia|].
  apply Z.mul_le_mono_nonneg_r; lia.
Qed.

Lemma normalise_lo : round_grid (round_grid (lo - lo) 1 * one_grid) b = 0.
Proof.
  pose proof spread_pos as Hb.
  rewrite Z.sub_diag. rewrite (round_grid_zero 1) by lia.
  rewrite Z.mul_0_l. apply round_grid_zero. lia.
Qed.

Lemma normalise_hi :
  round_grid (round_grid (hi - lo) 1 * one_grid) b = one_grid.
Proof.
  pose proof spread_pos as Hb.
  destruct spread_value as [<- _].
  change one_grid with (1 * 2 ^ 149).
  rewrite (Z.mul_comm b). apply round_grid_exact; [lia|lia|reflexivity].
Qed.
End Normalise.

End Float32Ops.

(** * Reductions and element-wise operations *)

Module NumpyFacts.
Import Py Float32 Float32Ops Numpy Spec.

Lemma minimum_cases a b : minimum a b = a \/ minimum a b = b.
Proof.
  unfold minimum. destruct (is_nan a); [auto|].
  destruct (is_nan b); [auto|]. destruct (ltb b a); auto.
Qed.

Lemma maximum_cases a b : maximum a b = a \/ maximum a b = b.
Proof.
  unfold maximum. destruct (is_nan a); [auto|].
  destruct (is_nan b); [auto|]. destruct (ltb a b); auto.
Qed.

Section Reduce.
Variable op : float32 -> float32 -> float32.
Hypothesis op_cases : forall a b, op a b = a \/ op a b = b.

Lemma fold_left_In xs : forall x, In (fold_left op xs x) (x :: xs).
Proof.
  induction xs as [|y ys IH]; intros x; simpl; [auto|].
  destruct (IH (op x y)) as [E|HIn]; [|auto].
  destruct (op_cases x y) as [E'|E']; rewrite E' in *; auto.
Qed.

Lemma reduce_In name a m : reduce op name a = Ok m -> In m (data a).
Proof.
  unfold reduce. destruct (data a) as [|x xs]; [discriminate|].
  intros [= <-]. apply fold_left_In.
Qed.
End Reduce.

Lemma reduce_nonempty op name a :
  data a <> [] -> exists m, reduce op name a = Ok m.
Proof.
  unfold reduce. destruct (data a) as [|x xs]; [congruence|eauto].
Qed.

Lemma reduce_empty op name a :
  data a = [] -> exists e, reduce op name a = Raise e.
Proof. unfold reduce. intros ->. eauto. Qed.

(** A finite minimum bounds every element from below; a NaN or [-inf]
    element would have been the minimum. *)
Lemma minimum_lower m a b :
  le (Fin m) (minimum a b) -> le (Fin m) a /\ le (Fin m) b.
Proof.
  unfold le, minimum.
  destruct a as [|[]|a], b as [|[]|b]; simpl; try discriminate; auto.
  destruct (Z.ltb_spec b a); simpl; rewrite !Z.leb_le; lia.
Qed.

Lemma maximum_upper m a b :
  le (maximum a b) (Fin m) -> le a (Fin m) /\ le b (Fin m).
Proof.
  unfold le, maximum.
  destruct a as [|[]|a], b as [|[]|b]; simpl; try discriminate; auto.
  destruct (Z.ltb_spec a b); simpl; rewrite !Z.leb_le; lia.
Qed.

Lemma fold_minimum_lower xs : forall acc m,
  fold_left minimum xs acc = Fin m ->
  le (Fin m) acc /\ Forall (le (Fin m)) xs.
Proof.
  induction xs as [|y ys IH]; intros acc m; simpl.
  - intros ->. split; [apply le_refl_fin|constructor].
  - intros E. destruct (IH _ _ E) as [H1 H2].
    destruct (minimum_lower _ _ _ H1). auto.
Qed.

Lemma fold_maximum_upper xs : forall acc m,
  fold_left maximum xs acc = Fin m ->
  le acc (Fin m) /\ Forall (fun y => le y (Fin m)) xs.
Proof.
  induction xs as [|y ys IH]; intros acc m; simpl.
  - intros ->. split; [apply le_refl_fin|constructor].
  - intros E. destruct (IH _ _ E) as [H1 H2].
    destruct (maximum_upper _ _ _ H1). auto.
Qed.

Lemma min_lower a m :
  Numpy.min a = Ok (Fin m) -> Forall (le (Fin m)) (data a).
Proof.
  unfold Numpy.min, reduce. destruct (data a) as [|x xs]; [discriminate|].
  intros [= E]. destruct (fold_minimum_lower _ _ _ E). auto.
Qed.

Lemma max_upper a m :
  Numpy.max a = Ok (Fin m) -> Forall (fun y => le y (Fin m)) (data a).
Proof.
  unfold Numpy.max, reduce. destruct (data a) as [|x xs]; [discriminate|].
  intros [= E]. destruct (fold_maximum_upper _ _ _ E). auto.
Qed.

(** With a finite minimum and a finite maximum every element is finite and
    lies between them. *)
Lemma finite_extrema a lo hi :
  Numpy.min a = Ok (Fin lo) -> Numpy.max a = Ok (Fin hi) ->
  Forall (fun y => exists n, y = Fin n /\ (lo <= n <= hi)%Z) (data a).
Proof.
  intros Hmin Hmax.
  pose proof (min_lower _ _ Hmin) as H1. pose proof (max_upper _ _ Hmax) as H2.
  rewrite Forall_forall in *. intros y Hy.
  apply between_fin; auto.
Qed.

Lemma zeros_like_shape {T} (a : ndarray T) : shape (zeros_like a) = shape a.
Proof. reflexivity. Qed.

Lemma zeros_like_well_formed {T} (a : ndarray T) : well_formed (zeros_like a).
Proof. unfold well_formed, zeros_like. simpl. apply repeat_length. Qed.

Lemma map_array_well_formed {T U} (f : T -> U) a :
  well_formed a -> well_formed (map_array f a).
Proof. unfold well_formed, map_array, size. simpl. rewrite length_map. auto. Qed.

Lemma item_map_array {T U} (f : T -> U) a i j :
  item (map_array f a) i j = option_map f (item a i j).
Proof.
  unfold item, map_array. cbn [shape data].
  destruct (shape a) as [|rows [|columns [|]]]; try reflexivity.
  destruct (_ && _); [|reflexivity].
  apply nth_error_map.
Qed.

(** An element at [[i, j]] is an element of the buffer of a 2-D array. *)
Lemma item_Some {T} (a : ndarray T) i j v :
  item a i j = Some v ->
  exists rows columns,
    shape a = [rows; columns] /\ (i < rows)%nat /\ (j < columns)%nat /\
    nth_error (data a) (i * columns + j) = Some v.
Proof.
  unfold item. destruct (shape a) as [|rows [|columns [|]]]; try discriminate.
  destruct (Nat.ltb_spec i rows); [|discriminate].
  destruct (Nat.ltb_spec j columns); [|discriminate].
  cbn [andb]. intros E. exists rows, columns. auto.
Qed.

Lemma item_In {T} (a : ndarray T) i j v : item a i j = Some v -> In v (data a).
Proof.
  intros E. destruct (item_Some a i j v E) as (r & c & _ & _ & _ & Hnth).
  eapply nth_error_In. exact Hnth.
Qed.

(** In a well-formed 2-D array every index in range has an element. *)
Lemma item_in_range {T} (a : ndarray T) rows columns i j :
  shape a = [rows; columns] -> well_formed a ->
  (i < rows)%nat -> (j < columns)%nat ->
  exists v, item a i j = Some v.
Proof.
  intros Hshape Hwf Hi Hj. unfold item. rewrite Hshape.
  destruct (Nat.ltb_spec i rows); [|lia].
  destruct (Nat.ltb_spec j columns); [|lia]. cbn [andb].
  unfold well_formed, size in Hwf. rewrite Hshape in Hwf. cbn [fold_right] in Hwf.
  destruct (nth_error (data a) (i * columns + j)) as [v|] eqn:E; [eauto|].
  apply nth_error_None in E. nia.
Qed.

End NumpyFacts.

(** * The depth use case *)

Module DepthFacts.
Import Py Float32 Float32Facts Float32Ops Numpy NumpyFacts Pil Ports Depth Spec Fixtures.

Section AnyModel.
Context {M : Type} `{DepthModelPort M}.
Variables (img : image) (model model' : M) (raw : ndarray float32).
Hypothesis predicted : predict model img = (model', Ok raw).

(** The degenerate branch. *)
Lemma estimate_depth_degenerate lo hi :
  Numpy.min raw = Ok lo -> Numpy.max raw = Ok hi -> eqb lo hi = true ->
  estimate_depth img model = (model', Ok (zeros_like raw)).
Proof.
  intros Hmin Hmax Heq. unfold estimate_depth.
  rewrite predicted. simpl. rewrite Hmin. simpl. rewrite Hmax. simpl.
  rewrite Heq. reflexivity.
Qed.

(** The division branch. *)
Lemma estimate_depth_division lo hi :
  Numpy.min raw = Ok lo -> Numpy.max raw = Ok hi -> eqb lo hi = false ->
  estimate_depth img model
  = (model', Ok (map_array (fun x => div (sub x lo) (sub hi lo)) raw)).
Proof.
  intros Hmin Hmax Heq. unfold estimate_depth.
  rewrite predicted. simpl. rewrite Hmin. simpl. rewrite Hmax. simpl.
  rewrite Heq. unfold astype_float32, divide, subtract, map_array. simpl.
  rewrite map_map. reflexivity.
Qed.

(** An empty raster has no minimum: the reduction raises. *)
Lemma estimate_depth_empty :
  data raw = [] -> exists e, estimate_depth img model = (model', Raise e).
Proof.
  intros Hempty. unfold estimate_depth. rewrite predicted. simpl.
  destruct (reduce_empty minimum "minimum" raw Hempty) as [e He].
  unfold Numpy.min. rewrite He. simpl. eauto.
Qed.

(** C2. A raster with at least one element, all of whose elements are
    equal to one another, has [min == max]; [estimate_depth] then
    returns the all-zero map of the raster's shape, so the division is
    not evaluated and no element of the result is a NaN. *)
Theorem constant_raster_all_zero :
  data raw <> [] ->
  (forall x y, In x (data raw) -> In y (data raw) -> eqb x y = true) ->
  exists lo hi,
    Numpy.min raw = Ok lo /\ Numpy.max raw = Ok hi /\ eqb lo hi = true /\
    estimate_depth img model = (model', Ok (zeros_like raw)) /\
    shape (zeros_like raw) = shape raw /\
    well_formed (zeros_like raw) /\
    Forall (fun z => z = zero /\ is_nan z = false) (data (zeros_like raw)).
Proof.
  intros Hne Hconst.
  destruct (reduce_nonempty minimum "minimum" raw Hne) as [lo Hmin].
  destruct (reduce_nonempty maximum "maximum" raw Hne) as [hi Hmax].
  assert (Heq : eqb lo hi = true).
  { apply Hconst.
    - eapply reduce_In; [exact minimum_cases|exact Hmin].
    - eapply reduce_In; [exact maximum_cases|exact Hmax]. }
  exists lo, hi. repeat split; try assumption.
  - apply (estimate_depth_degenerate lo hi); assumption.
  - apply zeros_like_well_formed.
  - simpl. apply Forall_forall. intros z Hz.
    apply repeat_spec in Hz. subst z. split; reflexivity.
Qed.

(** In either branch the result has the raster's shape. *)
Lemma estimate_depth_shape :
  data raw <> [] ->
  exists out, estimate_depth img model = (model', Ok out) /\
              shape out = shape raw /\
              (well_formed raw -> well_formed out).
Proof.
  intros Hne.
  destruct (reduce_nonempty minimum "minimum" raw Hne) as [lo Hmin].
  destruct (reduce_nonempty maximum "maximum" raw Hne) as [hi Hmax].
  destruct (eqb lo hi) eqn:Heq.
  - exists (zeros_like raw). split; [|split].
    + apply (estimate_depth_degenerate lo hi); assumption.
    + reflexivity.
    + intros _. apply zeros_like_well_formed.
  - eexists. split; [|split].
    + apply (estimate_depth_division lo hi); assumption.
    + reflexivity.
    + apply map_array_well_formed.
Qed.

(** ** Rasters with a finite minimum, a finite maximum and a spread
    [max - min] that does not overflow *)

Variables lo hi b : Z.
Hypothesis raster_min : Numpy.min raw = Ok (Fin lo).
Hypothesis raster_max : Numpy.max raw = Ok (Fin hi).
Hypothesis lo_lt_hi : (lo < hi)%Z.
Hypothesis spread : sub (Fin hi) (Fin lo) = Fin b.

Lemma estimate_depth_finite :
  estimate_depth img model
  = (model', Ok (map_array (fun x => div (sub x (Fin lo)) (sub (Fin hi) (Fin lo))) raw)).
Proof.
  apply estimate_depth_division; try assumption.
  simpl. apply Z.eqb_neq. lia.
Qed.

(** Every normalised element lies in [[0, 1]]. *)
Lemma estimate_depth_unit_interval :
  exists out,
    estimate_depth img model = (model', Ok out) /\
    shape out = shape raw /\
    (forall i j x, item raw i j = Some x ->
       item out i j = Some (div (sub x (Fin lo)) (sub (Fin hi) (Fin lo)))) /\
    Forall in_unit_interval (data out).
Proof.
  eexists. split; [apply estimate_depth_finite|].
  split; [reflexivity|]. split.
  - intros i j x Hx. rewrite item_map_array, Hx. reflexivity.
  - cbn [data map_array]. apply Forall_map.
    pose proof (finite_extrema raw lo hi raster_min raster_max) as Hfin.
    eapply Forall_impl; [|exact Hfin].
    intros y (n & -> & Hn). cbv beta.
    destruct (normalise_value lo hi b lo_lt_hi spread n Hn) as [-> Hr].
    split; apply le_fin; lia.
Qed.

(** Normalisation preserves the order of the elements, maps the
    raster's minimum to [0.0] and its maximum to [1.0], and both are
    attained. *)
Lemma estimate_depth_order_preserving :
  exists out,
    estimate_depth img model = (model', Ok out) /\
    (forall i j i' j' x x' y y',
       item raw i j = Some x -> item raw i' j' = Some x' ->
       item out i j = Some y -> item out i' j' = Some y' ->
       le x x' -> le y y') /\
    (forall i j, item raw i j = Some (Fin lo) -> item out i j = Some zero) /\
    (forall i j, item raw i j = Some (Fin hi) -> item out i j = Some one) /\
    In zero (data out) /\ In one (data out).
Proof.
  pose proof (finite_extrema raw lo hi raster_min raster_max) as Hfin.
  rewrite Forall_forall in Hfin.
  assert (Hlo : div (sub (Fin lo) (Fin lo)) (sub (Fin hi) (Fin lo)) = zero).
  { destruct (normalise_value lo hi b lo_lt_hi spread lo ltac:(lia)) as [-> _].
    rewrite (normalise_lo lo hi b lo_lt_hi spread). reflexivity. }
  assert (Hhi : div (sub (Fin hi) (Fin lo)) (sub (Fin hi) (Fin lo)) = one).
  { destruct (normalise_value lo hi b lo_lt_hi spread hi ltac:(lia)) as [-> _].
    rewrite (normalise_hi lo hi b lo_lt_hi spread). reflexivity. }
  eexists. split; [apply estimate_depth_finite|].
  split; [|split; [|split; [|split]]].
  - intros i j i' j' x x' y y' Hx Hx'.
    rewrite !item_map_array, Hx, Hx'. cbn [option_map]. intros [= <-] [= <-] Hle.
    assert (Ix : In x (data raw)) by (eapply item_In; exact Hx).
    assert (Ix' : In x' (data raw)) by (eapply item_In; exact Hx').
    destruct (Hfin _ Ix) as (n & -> & Hn).
    destruct (Hfin _ Ix') as (n' & -> & Hn').
    apply le_fin in Hle.
    change (round32 (hi - lo) 1) with (sub (Fin hi) (Fin lo)).
    destruct (normalise_value lo hi b lo_lt_hi spread n Hn) as [-> _].
    destruct (normalise_value lo hi b lo_lt_hi spread n' Hn') as [-> _].
    apply le_fin. apply (normalise_mono lo hi b lo_lt_hi spread); lia.
  - intros i j Hx. rewrite item_map_array, Hx. cbn [option_map]. rewrite Hlo. reflexivity.
  - intros i j Hx. rewrite item_map_array, Hx. cbn [option_map]. rewrite Hhi. reflexivity.
  - cbn [data map_array]. rewrite <- Hlo. apply in_map with (f := fun x => div (sub x (Fin lo)) (sub (Fin hi) (Fin lo))).
    eapply reduce_In; [exact minimum_cases|exact raster_min].
  - cbn [data map_array]. rewrite <- Hhi. apply in_map with (f := fun x => div (sub x (Fin lo)) (sub (Fin hi) (Fin lo))).
    eapply reduce_In; [exact maximum_cases|exact raster_max].
Qed.

(** The division never has a zero divisor: the branch is taken only when
    [min] and [max] differ, and two distinct finite numbers are at least
    one grid step apart. *)
Lemma divisor_nonzero : eqb (sub (Fin hi) (Fin lo)) zero = false.
Proof.
  rewrite spread. simpl. apply Z.eqb_neq.
  pose proof (spread_pos lo hi b lo_lt_hi spread). lia.
Qed.

End AnyModel.

(** ** Rasters at the edge of the format *)

(** C1. On the raster [[-FLT_MAX, FLT_MAX]], whose minimum is strictly
    below its maximum, [estimate_depth] returns [[0.0, NaN]]: the spread
    overflows to [+inf] and [inf / inf] is a NaN, which is not in
    [[0, 1]]. *)
Theorem wide_raster_leaves_unit_interval :
  Numpy.min wide_raster = Ok (Fin (- max_float)) /\
  Numpy.max wide_raster = Ok (Fin max_float) /\
  lt (Fin (- max_float)) (Fin max_float) /\
  sub (Fin max_float) (Fin (- max_float)) = Inf false /\
  snd (estimate_depth rgba_2x2 (Ok wide_raster))
  = Ok {| shape := [1; 2]%nat; data := [Fin 0; NaN] |} /\
  ~ in_unit_interval NaN.
Proof.
  repeat split; try (vm_compute; reflexivity).
  intros [H0 _]. discriminate H0.
Qed.

(** The same happens on a finite raster with one infinite element. *)
Lemma sky_raster_leaves_unit_interval :
  Numpy.min sky_raster = Ok (Fin 0) /\
  Numpy.max sky_raster = Ok (Inf false) /\
  lt (Fin 0) (Inf false) /\
  snd (estimate_depth rgba_2x2 (Ok sky_raster))
  = Ok {| shape := [1; 2]%nat; data := [Fin 0; NaN] |}.
Proof. repeat split; vm_compute; reflexivity. Qed.

(** C7. On the raster [[-FLT_MAX, FLT_MAX]] the first element is below
    the second, yet the outputs [0.0] and [NaN] are not in order, and the
    output at the raster's maximum is a NaN, not [1.0]. *)
Theorem wide_raster_breaks_order :
  item wide_raster 0 0 = Some (Fin (- max_float)) /\
  item wide_raster 0 1 = Some (Fin max_float) /\
  le (Fin (- max_float)) (Fin max_float) /\
  exists out,
    snd (estimate_depth rgba_2x2 (Ok wide_raster)) = Ok out /\
    item out 0 0 = Some zero /\
    item out 0 1 = Some NaN /\
    ~ le zero NaN /\
    ~ In one (data out).
Proof.
  split; [reflexivity|]. split; [reflexivity|].
  split; [vm_compute; reflexivity|].
  exists {| shape := [1; 2]%nat; data := [Fin 0; NaN] |}.
  split; [vm_compute; reflexivity|].
  split; [reflexivity|]. split; [reflexivity|]. split.
  - discriminate.
  - cbn [data]. intros [H|[H|[]]]; discriminate H.
Qed.

End DepthFacts.

(** * The image codec *)

Module ImageUtilsFacts.
Import Py Float32 Float32Facts Float32Ops Numpy NumpyFacts Pil ImageUtils Spec Tables Fixtures.
Local Open Scope Z_scope.

(** ** Quantisation to 8 bits *)

Lemma to_uint8_range `{Platform} x : 0 <= to_uint8 x < 256.
Proof.
  unfold to_uint8. destruct x as [| |n]; try (apply Z.mod_pos_bound; lia).
  destruct (Z.leb_spec 0 (Z.quot n one_grid)); simpl;
    [|apply Z.mod_pos_bound; lia].
  destruct (Z.ltb_spec (Z.quot n one_grid) 256);
    [lia|apply Z.mod_pos_bound; lia].
Qed.

Lemma to_uint8_fin `{Platform} n :
  0 <= n < 256 * one_grid -> to_uint8 (Fin n) = n / one_grid.
Proof.
  intros Hn. pose proof one_grid_pos as HG. unfold to_uint8.
  rewrite Z.quot_div_nonneg by lia.
  assert (0 <= n / one_grid) by (apply Z.div_pos; lia).
  assert (n / one_grid < 256) by (apply Z.div_lt_upper_bound; lia).
  destruct (Z.leb_spec 0 (n / one_grid)); [|lia].
  destruct (Z.ltb_spec (n / one_grid) 256); [reflexivity|lia].
Qed.

Lemma maximum_fin a b : maximum (Fin a) (Fin b) = Fin (Z.max a b).
Proof.
  unfold maximum. cbn [is_nan ltb].
  destruct (Z.ltb_spec a b); f_equal; lia.
Qed.

Lemma minimum_fin a b : minimum (Fin a) (Fin b) = Fin (Z.min a b).
Proof.
  unfold minimum. cbn [is_nan ltb].
  destruct (Z.ltb_spec b a); f_equal; lia.
Qed.

(** Clipping to [[0, 255]] and truncating is flooring and clamping. *)
Lemma clip_then_truncate `{Platform} y p :
  floor_clamped y = Some p ->
  to_uint8 (minimum (of_Z 255) (maximum y (of_Z 0))) = p.
Proof.
  pose proof one_grid_pos as HG.
  change (of_Z 0) with (Fin 0). unfold of_Z.
  destruct y as [|[]|n]; cbn [floor_clamped]; try discriminate; intros [= <-].
  - (* -inf *)
    change (maximum (Inf true) (Fin 0)) with (Fin 0).
    rewrite minimum_fin, to_uint8_fin by lia.
    rewrite Z.min_r by lia. apply Z.div_0_l. lia.
  - (* +inf *)
    change (maximum (Inf false) (Fin 0)) with (Inf false).
    change (minimum (Fin (255 * one_grid)) (Inf false)) with (Fin (255 * one_grid)).
    rewrite to_uint8_fin by lia. apply Z.div_mul. lia.
  - rewrite maximum_fin, minimum_fin, to_uint8_fin by lia.
    unfold clamp.
    destruct (Z_lt_le_dec n 0) as [Hneg|Hpos].
    + rewrite (Z.max_r n 0), Z.min_r, Z.div_0_l by lia.
      assert (n / one_grid < 0) by (apply Z.div_lt_upper_bound; lia).
      lia.
    + rewrite (Z.max_l n 0) by lia.
      destruct (Z_lt_le_dec n (255 * one_grid)) as [Hlt|Hge].
      * rewrite Z.min_r by lia.
        assert (0 <= n / one_grid) by (apply Z.div_pos; lia).
        assert (n / one_grid < 255) by (apply Z.div_lt_upper_bound; lia).
        lia.
      * rewrite Z.min_l, Z.div_mul by lia.
        assert (255 <= n / one_grid) by (apply Z.div_le_lower_bound; lia).
        lia.
Qed.

Lemma byte_range_lt_overflow : 256 * one_grid < overflow_grid.
Proof. reflexivity. Qed.

Lemma floor_clamped_overflow r :
  floor_clamped (overflow r) = Some (clamp 0 255 (r / one_grid)).
Proof.
  pose proof one_grid_pos as HG. pose proof byte_range_lt_overflow as HO.
  unfold overflow, clamp.
  destruct (Z.leb_spec overflow_grid (Z.abs r)) as [Hov|Hfin];
    [|reflexivity].
  destruct (Z.ltb_spec r 0) as [Hneg|Hpos]; cbn [floor_clamped]; f_equal.
  - assert (r / one_grid < 0) by (apply Z.div_lt_upper_bound; lia). lia.
  - assert (255 <= r / one_grid) by (apply Z.div_le_lower_bound; lia). lia.
Qed.

(** The pixel of a finite value. *)
Lemma depth_pixel_fin n :
  depth_pixel (Fin n)
  = Some (clamp 0 255 (round_grid (n * (255 * one_grid)) one_grid / one_grid)).
Proof. apply floor_clamped_overflow. Qed.

(** Only a NaN has no pixel. *)
Lemma depth_pixel_defined v :
  is_nan v = false -> exists p, depth_pixel v = Some p.
Proof.
  destruct v as [|s|n]; [discriminate| |]; intros _.
  - destruct s; vm_compute; eauto.
  - rewrite depth_pixel_fin. eauto.
Qed.

(** A value below 0 gives pixel 0, a value above 1 gives pixel 255. *)
Lemma depth_pixel_below v : lt v zero -> depth_pixel v = Some 0.
Proof.
  pose proof one_grid_pos as HG.
  destruct v as [|[]|n]; try discriminate.
  - intros _. vm_compute. reflexivity.
  - intros Hn. apply lt_fin in Hn. rewrite depth_pixel_fin.
    assert (Hr : round_grid (n * (255 * one_grid)) one_grid <= 0)
      by (apply round_grid_nonpos; nia).
    assert (round_grid (n * (255 * one_grid)) one_grid / one_grid <= 0)
      by (apply Z.div_le_upper_bound; lia).
    unfold clamp. f_equal. lia.
Qed.

Lemma depth_pixel_above v : lt one v -> depth_pixel v = Some 255.
Proof.
  pose proof one_grid_pos as HG.
  destruct v as [|[]|n]; try discriminate.
  - intros _. vm_compute. reflexivity.
  - intros Hn. apply lt_fin in Hn. rewrite depth_pixel_fin.
    assert (Hr : 255 * one_grid <= round_grid (n * (255 * one_grid)) one_grid)
      by (apply round_grid_ge_int; [lia|reflexivity|nia]).
    assert (255 <= round_grid (n * (255 * one_grid)) one_grid / one_grid)
      by (apply Z.div_le_lower_bound; lia).
    unfold clamp. f_equal. lia.
Qed.

(** The pixel of a value in [[0, 1]] is within one step of [255 * value]. *)
Lemma depth_pixel_unit n :
  0 <= n <= one_grid ->
  exists p, depth_pixel (Fin n) = Some p /\ 0 <= p <= 255 /\
            Z.abs (p * one_grid - 255 * n) <= one_grid.
Proof.
  intros Hn. pose proof one_grid_pos as HG.
  rewrite depth_pixel_fin.
  set (y := round_grid (n * (255 * one_grid)) one_grid).
  set (k := 255 * n / one_grid).
  assert (Hk : k * one_grid <= 255 * n < (k + 1) * one_grid).
  { unfold k. pose proof (Z.div_mod (255 * n) one_grid ltac:(lia)).
    pose proof (Z.mod_pos_bound (255 * n) one_grid HG). lia. }
  assert (Hk0 : 0 <= k <= 255).
  { unfold k. split; [apply Z.div_pos; lia|].
    apply Z.div_le_upper_bound; lia. }
  assert (Hlow : k * one_grid <= y).
  { apply round_grid_ge_int; [lia| |].
    - change (2 ^ 24) with 16777216. lia.
    - apply Z.le_trans with (255 * n * one_grid); [|lia].
      apply Z.mul_le_mono_nonneg_r; lia. }
  assert (Hupp : y <= (k + 1) * one_grid).
  { apply round_grid_le_int; [lia| |].
    - change (2 ^ 24) with 16777216. lia.
    - apply Z.le_trans with (255 * n * one_grid); [lia|].
      apply Z.mul_le_mono_nonneg_r; lia. }
  assert (Htop : y <= 255 * one_grid).
  { apply round_grid_le_int; [lia|reflexivity|].
    apply Z.le_trans with (255 * n * one_grid); [lia|].
    apply Z.mul_le_mono_nonneg_r; lia. }
  assert (Hq : k <= y / one_grid) by (apply Z.div_le_lower_bound; lia).
  assert (Hq' : y / one_grid <= 255) by (apply Z.div_le_upper_bound; lia).
  assert (Hq'' : y / one_grid <= k + 1) by (apply Z.div_le_upper_bound; lia).
  exists (y / one_grid). unfold clamp.
  split; [f_equal; lia|]. split; [lia|].
  destruct (Z.eq_dec (y / one_grid) k) as [E|E].
  - rewrite E. lia.
  - assert (E' : y / one_grid = k + 1) by lia. rewrite E'.
    pose proof (Z.mul_div_le y one_grid HG). rewrite E' in H. lia.
Qed.

(** The 8-bit raster, element by element. *)
Lemma depth_to_uint8_item `{Platform} a i j :
  item (depth_to_uint8 a) i j
  = option_map (fun v => to_uint8 (minimum (of_Z 255) (maximum (mul v (of_Z 255)) (of_Z 0))))
               (item a i j).
Proof.
  unfold depth_to_uint8, astype_uint8, clip, multiply.
  rewrite !item_map_array. destruct (item a i j); reflexivity.
Qed.

(** Each element of the 8-bit raster is the clamped floor of the
    product, wherever that is defined. *)
Lemma depth_to_uint8_pixel `{Platform} a i j v :
  item a i j = Some v ->
  exists p,
    item (depth_to_uint8 a) i j = Some p /\
    (forall q, depth_pixel v = Some q -> p = q).
Proof.
  intros Hv. pose proof (depth_to_uint8_item a i j) as Hitem.
  rewrite Hv in Hitem. cbn [option_map] in Hitem.
  eexists. split; [exact Hitem|].
  intros q. apply clip_then_truncate.
Qed.

(** [Image.fromarray] of a 2-D array. *)
Lemma fromarray_L_2d (u : ndarray Z) rows columns :
  shape u = [rows; columns] ->
  fromarray_L u
  = Ok {| im_mode := L; im_size := (columns, rows);
          im_data := map (fun v => [v]) (data u) |}.
Proof. intros E. unfold fromarray_L. rewrite E. reflexivity. Qed.

Lemma fromarray_L_nth (u : ndarray Z) img k p :
  fromarray_L u = Ok img ->
  nth_error (data u) k = Some p ->
  nth_error (im_data img) k = Some [p].
Proof.
  unfold fromarray_L.
  destruct (shape u) as [|n [|c [|]]]; try discriminate;
    intros [= <-] E; cbn [im_data]; rewrite nth_error_map, E; reflexivity.
Qed.

Lemma asarray_fromarray (u : ndarray Z) rows columns img :
  shape u = [rows; columns] -> fromarray_L u = Ok img -> asarray_L img = u.
Proof.
  intros E. rewrite (fromarray_L_2d u rows columns E). intros [= <-].
  destruct u as [sh d]. cbn [shape] in E. subst sh.
  unfold asarray_L. cbn. rewrite map_map. cbn. rewrite map_id. reflexivity.
Qed.

(** Arrays of no dimension or of more than two are refused before
    anything is encoded. *)
Lemma fromarray_L_raises (u : ndarray Z) e :
  fromarray_L u = Raise e -> ndim u = 0%nat \/ (2 < ndim u)%nat.
Proof.
  unfold fromarray_L, ndim.
  destruct (shape u) as [|n [|c [|]]]; try discriminate; cbn [List.length]; intros _; lia.
Qed.

(** What [depth_to_png] returns for a 2-D array with at least one
    element. *)
Lemma depth_to_png_2d `{Platform} `{Codec} (a : ndarray float32) rows columns :
  shape a = [rows; columns] -> (0 < rows)%nat -> (0 < columns)%nat ->
  depth_to_png a
  = Ok (encode_PNG {| im_mode := L; im_size := (columns, rows);
                      im_data := map (fun v => [v]) (data (depth_to_uint8 a)) |}).
Proof.
  intros E Hr Hc. unfold depth_to_png.
  rewrite (fromarray_L_2d (depth_to_uint8 a) rows columns E). cbn [bind].
  unfold save_PNG. cbn [im_size fst snd].
  destruct columns; [lia|]. destruct rows; [lia|]. reflexivity.
Qed.

(** A 2-D array without elements has no PNG: the encoder refuses it. *)
Lemma depth_to_png_empty `{Platform} `{Codec} (a : ndarray float32) rows columns :
  shape a = [rows; columns] -> rows = 0%nat \/ columns = 0%nat ->
  depth_to_png a = Raise (ValueError empty_image_message).
Proof.
  intros E Hzero. unfold depth_to_png.
  rewrite (fromarray_L_2d (depth_to_uint8 a) rows columns E). cbn [bind].
  unfold save_PNG. cbn [im_size fst snd].
  destruct Hzero as [-> | ->]; [|reflexivity].
  destruct (columns =? 0)%nat; reflexivity.
Qed.

(** The raster handed to the encoder is an 8-bit greyscale raster. *)
Lemma depth_raster_greyscale `{Platform} (a : ndarray float32) rows columns :
  shape a = [rows; columns] -> (0 < rows)%nat -> (0 < columns)%nat ->
  well_formed a ->
  greyscale {| im_mode := L; im_size := (columns, rows);
               im_data := map (fun v => [v]) (data (depth_to_uint8 a)) |}.
Proof.
  intros E Hr Hc Hwf. unfold greyscale. cbn [im_mode im_size im_data fst snd].
  split; [reflexivity|]. split; [assumption|]. split; [assumption|]. split.
  - unfold well_formed, size in Hwf. rewrite E in Hwf. cbn [fold_right] in Hwf.
    unfold depth_to_uint8, astype_uint8, clip, multiply, map_array. cbn [data].
    rewrite !length_map, Hwf. lia.
  - apply Forall_map. apply Forall_forall. intros p Hp. exists p.
    split; [reflexivity|].
    unfold depth_to_uint8, astype_uint8, map_array in Hp. cbn [data] in Hp.
    apply in_map_iff in Hp. destruct Hp as (y & <- & _). apply to_uint8_range.
Qed.

(** C3, as amended.  For every 2-D [float32] array with at least one
    element, [depth_to_png] returns the PNG of a single-band 8-bit
    greyscale ("L") raster of the array's dimensions and raises nothing,
    whatever the values; every pixel is a byte, and the pixel of every
    value that is a number is [floor(value × 255)] clamped to [[0, 255]]
    (the product being the [float32] one), so that values below 0 give 0
    and values above 1 give 255. *)
Theorem depth_to_png_pixels `{Platform} `{Codec} (a : ndarray float32)
    (rows columns : nat) :
  shape a = [rows; columns] -> (0 < rows)%nat -> (0 < columns)%nat ->
  exists img,
    fromarray_L (depth_to_uint8 a) = Ok img /\
    depth_to_png a = Ok (encode_PNG img) /\
    im_mode img = L /\
    bands (im_mode img) = 1%nat /\
    im_size img = (columns, rows) /\
    shape (depth_to_uint8 a) = shape a /\
    forall i j v, item a i j = Some v ->
      exists p,
        item (depth_to_uint8 a) i j = Some p /\
        nth_error (im_data img) (i * columns + j) = Some [p] /\
        0 <= p < 256 /\
        (is_nan v = false -> depth_pixel v = Some p) /\
        (lt v zero -> p = 0) /\
        (lt one v -> p = 255).
Proof.
  intros E Hr Hc.
  eexists. split; [apply (fromarray_L_2d (depth_to_uint8 a) rows columns E)|].
  split; [apply (depth_to_png_2d a rows columns E Hr Hc)|].
  do 4 (split; [reflexivity|]).
  intros i j v Hv.
  pose proof (depth_to_uint8_item a i j) as Hitem.
  rewrite Hv in Hitem. cbn [option_map] in Hitem.
  eexists. split; [exact Hitem|].
  split.
  { cbn [im_data]. destruct (item_Some _ _ _ _ Hitem) as (r & c & E' & _ & _ & Hnth).
    change (shape (depth_to_uint8 a)) with (shape a) in E'.
    rewrite E in E'. injection E' as <- <-.
    rewrite nth_error_map, Hnth. reflexivity. }
  split; [apply to_uint8_range|].
  assert (Hdef : forall p, depth_pixel v = Some p ->
            to_uint8 (minimum (of_Z 255) (maximum (mul v (of_Z 255)) (of_Z 0))) = p)
    by (intros p; apply clip_then_truncate).
  split; [|split].
  - intros Hnan. destruct (depth_pixel_defined v Hnan) as [p Hp].
    rewrite (Hdef p Hp). exact Hp.
  - intros Hlt. apply Hdef, depth_pixel_below, Hlt.
  - intros Hgt. apply Hdef, depth_pixel_above, Hgt.
Qed.

(** C3, as stated, fails: the 2-D array of shape [(0, 3)] has no PNG;
    [img.save] raises a [ValueError]. *)
Theorem depth_to_png_empty_raises :
  shape empty_raster = [0; 3]%nat /\
  ndim empty_raster = 2%nat /\
  exists msg,
    @depth_to_png zero_cast raw_codec empty_raster = Raise (ValueError msg).
Proof.
  split; [reflexivity|]. split; [reflexivity|].
  exists (@empty_image_message raw_codec).
  exact (@depth_to_png_empty zero_cast raw_codec empty_raster 0 3 eq_refl
           (or_introl eq_refl)).
Qed.

(** ** Decoding uploads *)






(** Bytes that cannot be read are reported as invalid image data. *)
Lemma decode_upload_unreadable `{Codec} file_bytes e :
  (h <- Image_open file_bytes ;; load h)%py = Raise e ->
  decode_upload file_bytes = Raise (ValueError "Invalid image data").
Proof. unfold decode_upload. intros ->. reflexivity. Qed.

Lemma decode_upload_readable `{Codec} file_bytes img :
  (h <- Image_open file_bytes ;; load h)%py = Ok img ->
  decode_upload file_bytes = convert_RGB img.
Proof. unfold decode_upload. intros ->. reflexivity. Qed.



(** ** Round trip through the PNG *)

Lemma recovered_within v p :
  in_unit_interval v -> depth_pixel v = Some p ->
  exists q, to_Q v = Some q /\ (Qabs (recovered p - q) <= 1 # 255)%Q.
Proof.
  intros [H0 H1] Hp. pose proof one_grid_pos as HG.
  destruct v as [|[]|n]; try discriminate H0; try discriminate H1.
  apply le_fin in H0. apply le_fin in H1.
  destruct (depth_pixel_unit n (conj H0 H1)) as (p' & Hp' & _ & Habs).
  rewrite Hp in Hp'. injection Hp' as <-.
  eexists. split; [reflexivity|].
  apply Qabs_Qle_condition.
  unfold recovered, Qle, Qminus, Qplus, Qopp. cbn [Qnum Qden].
  rewrite !Pos2Z.inj_mul, !Z2Pos.id by exact HG.
  lia.
Qed.

(** Storing is monotone. *)
Lemma pixel_grid_mono n n' : n <= n' -> pixel_grid n <= pixel_grid n'.
Proof.
  intros Hle. pose proof one_grid_pos as HG. unfold pixel_grid, clamp.
  assert (round_grid (n * (255 * one_grid)) one_grid
          <= round_grid (n' * (255 * one_grid)) one_grid).
  { apply round_grid_mono; [lia|lia|].
    apply Z.mul_le_mono_nonneg_r; [lia|].
    apply Z.mul_le_mono_nonneg_r; lia. }
  assert (round_grid (n * (255 * one_grid)) one_grid / one_grid
          <= round_grid (n' * (255 * one_grid)) one_grid / one_grid)
    by (apply Z.div_le_mono; lia).
  lia.
Qed.

(** A byte divided by 255 in [float32]. *)
Lemma recovered32_fin p :
  0 <= p <= 255 ->
  recovered32 p = Fin (recovered_grid p) /\ 0 <= recovered_grid p <= one_grid.
Proof.
  intros Hp. pose proof one_grid_pos as HG.
  assert (H0 : 0 <= recovered_grid p).
  { apply round_grid_nonneg; [lia|].
    apply Z.mul_nonneg_nonneg; [apply Z.mul_nonneg_nonneg|]; lia. }
  assert (H1 : recovered_grid p <= one_grid).
  { unfold recovered_grid. change one_grid with (1 * 2 ^ 149) at 4.
    apply round_grid_le; [lia|lia|reflexivity|].
    change (1 * 2 ^ 149) with one_grid.
    replace (one_grid * (255 * one_grid)) with (255 * one_grid * one_grid) by ring.
    apply Z.mul_le_mono_nonneg_r; [lia|].
    apply Z.mul_le_mono_nonneg_r; lia. }
  split; [|lia].
  unfold recovered32, of_Z, div.
  destruct (Z.eqb_spec (255 * one_grid) 0) as [|_]; [lia|].
  replace (Z.sgn (255 * one_grid)) with 1 by lia.
  rewrite Z.abs_eq, Z.mul_1_r by lia.
  unfold round32. apply overflow_fin.
  fold (recovered_grid p). pose proof one_grid_lt_overflow. lia.
Qed.

Lemma tolerance_table p : 0 <= p <= 255 -> tolerance_ok p = true.
Proof.
  intros Hp.
  assert (T : forallb tolerance_ok (map Z.of_nat (seq 0 256)) = true)
    by (vm_compute; reflexivity).
  rewrite forallb_forall in T. apply T.
  rewrite <- (Z2Nat.id p) by lia. apply in_map, in_seq. lia.
Qed.

(** What a number in [[0, 1]] is stored as decodes, in [float32], to
    within [1/255] of it. *)
Lemma tolerance_sound n :
  0 <= n <= one_grid ->
  Z.abs (255 * (recovered_grid (pixel_grid n) - n)) <= one_grid.
Proof.
  intros Hn. pose proof one_grid_pos as HG.
  assert (Hp : 0 <= pixel_grid n <= 255) by (unfold pixel_grid, clamp; lia).
  pose proof (tolerance_table _ Hp) as T. unfold tolerance_ok in T.
  set (p := pixel_grid n) in *. set (r := recovered_grid p) in *.
  set (hi := (one_grid + 255 * r) / 255) in *.
  set (lo := - ((one_grid - 255 * r) / 255)) in *.
  apply andb_prop in T. destruct T as [Tup Tlow].
  assert (Hhi : n <= hi).
  { apply orb_prop in Tup. destruct Tup as [T|T].
    - apply Z.leb_le in T. lia.
    - apply Z.ltb_lt in T.
      destruct (Z_le_gt_dec n hi) as [|Hgt]; [assumption|exfalso].
      pose proof (pixel_grid_mono (hi + 1) n ltac:(lia)). fold p in H. lia. }
  assert (Hlo : lo <= n).
  { apply orb_prop in Tlow. destruct Tlow as [T|T].
    - apply Z.leb_le in T. lia.
    - apply Z.ltb_lt in T.
      destruct (Z_le_gt_dec lo n) as [|Hgt]; [assumption|exfalso].
      pose proof (pixel_grid_mono n (lo - 1) ltac:(lia)). fold p in H. lia. }
  pose proof (Z.mul_div_le (one_grid + 255 * r) 255 ltac:(lia)) as Bhi.
  pose proof (Z.mul_div_le (one_grid - 255 * r) 255 ltac:(lia)) as Blo.
  fold hi in Bhi. unfold lo in Hlo. lia.
Qed.

Lemma recovered32_within v p :
  in_unit_interval v -> depth_pixel v = Some p ->
  exists q q32, to_Q v = Some q /\ to_Q (recovered32 p) = Some q32 /\
                (Qabs (q32 - q) <= 1 # 255)%Q.
Proof.
  intros [H0 H1] Hp. pose proof one_grid_pos as HG.
  destruct v as [|[]|n]; try discriminate H0; try discriminate H1.
  apply le_fin in H0. apply le_fin in H1.
  rewrite depth_pixel_fin in Hp. fold (pixel_grid n) in Hp. injection Hp as <-.
  pose proof (tolerance_sound n (conj H0 H1)) as Habs.
  assert (Hp : 0 <= pixel_grid n <= 255) by (unfold pixel_grid, clamp; lia).
  destruct (recovered32_fin _ Hp) as [-> _].
  eexists _, _. split; [reflexivity|]. split; [reflexivity|].
  apply Qabs_Qle_condition.
  unfold Qle, Qminus, Qplus, Qopp. cbn [Qnum Qden].
  rewrite !Pos2Z.inj_mul, !Z2Pos.id by exact HG.
  set (r := recovered_grid (pixel_grid n)) in *.
  assert (- (one_grid * one_grid) <= 255 * (r - n) * one_grid <= one_grid * one_grid).
  { split.
    - replace (- (one_grid * one_grid)) with ((- one_grid) * one_grid) by ring.
      apply Z.mul_le_mono_nonneg_r; lia.
    - apply Z.mul_le_mono_nonneg_r; lia. }
  lia.
Qed.

(** C6. PNG being lossless, for every depth map (a 2-D array with at
    least one element) whose values lie in [[0, 1]], [depth_to_png]
    returns a PNG that decodes to a raster of the map's shape whose bytes
    divided by 255, whether exactly or in [float32], are within [1/255]
    of the original values. *)
Theorem png_roundtrip_tolerance `{Platform} `{Codec} (a : ndarray float32)
    (rows columns : nat) :
  lossless ->
  shape a = [rows; columns] -> (0 < rows)%nat -> (0 < columns)%nat ->
  well_formed a ->
  Forall in_unit_interval (data a) ->
  exists png decoded,
    depth_to_png a = Ok png /\
    (h <- Image_open png ;; load h)%py = Ok decoded /\
    shape (asarray_L decoded) = shape a /\
    forall i j v, item a i j = Some v ->
      exists p q q32,
        item (asarray_L decoded) i j = Some p /\
        to_Q v = Some q /\
        (Qabs (recovered p - q) <= 1 # 255)%Q /\
        to_Q (recovered32 p) = Some q32 /\
        (Qabs (q32 - q) <= 1 # 255)%Q.
Proof.
  intros Hlossless E Hr Hc Hwf Hunit.
  pose proof (depth_to_png_2d a rows columns E Hr Hc) as Hpng.
  pose proof (depth_raster_greyscale a rows columns E Hr Hc Hwf) as Hgrey.
  set (img := {| im_mode := L; im_size := (columns, rows);
                 im_data := map (fun v => [v]) (data (depth_to_uint8 a)) |}) in *.
  assert (Hsave : save_PNG img = Ok (encode_PNG img)).
  { unfold save_PNG. cbn [img im_size fst snd].
    destruct columns; [lia|]. destruct rows; [lia|]. reflexivity. }
  exists (encode_PNG img), img. split; [exact Hpng|].
  split; [exact (Hlossless img _ Hgrey Hsave)|].
  assert (Hback : asarray_L img = depth_to_uint8 a)
    by exact (asarray_fromarray (depth_to_uint8 a) rows columns img E
                (fromarray_L_2d (depth_to_uint8 a) rows columns E)).
  rewrite Hback. split; [reflexivity|].
  intros i j v Hv.
  assert (Hin : in_unit_interval v).
  { rewrite Forall_forall in Hunit. apply Hunit. eapply item_In. exact Hv. }
  assert (Hnan : is_nan v = false)
    by (destruct Hin as [Hz _]; destruct v; [discriminate Hz|reflexivity|reflexivity]).
  destruct (depth_to_uint8_pixel a i j v Hv) as (p & Hp & Hspec).
  destruct (depth_pixel_defined v Hnan) as (p' & Hp').
  pose proof (Hspec p' Hp') as ->.
  destruct (recovered_within v p' Hin Hp') as (q & Hq & Hle).
  destruct (recovered32_within v p' Hin Hp') as (q' & q32 & Hq' & Hq32 & Hle32).
  rewrite Hq in Hq'. injection Hq' as <-.
  exists p', q, q32. auto.
Qed.

End ImageUtilsFacts.

(** * The Depth Anything adapter *)

Module DepthAnythingFacts.
Import Py Float32 Numpy Pil Ports DepthAnything Spec Fixtures.

(** C8. The device is the first available of exactly three candidates
    in the order MPS, CUDA, CPU: it is determined by the two availability
    flags, and it is the CPU when neither accelerator is available. *)
Theorem detect_device_preference `{Torch} :
  first_available [(mps, mps_is_available); (cuda, cuda_is_available); (cpu, true)]
  = Some _detect_device /\
  _detect_device
  = match mps_is_available, cuda_is_available with
    | true, _ => mps
    | false, true => cuda
    | false, false => cpu
    end.
Proof.
  unfold first_available, _detect_device. cbn [find snd option_map fst].
  destruct mps_is_available, cuda_is_available; split; reflexivity.
Qed.

Lemma load_loaded `{Torch} self log :
  _model self <> None -> _load self log = (self, log, Ok tt).
Proof.
  intros Hm. unfold _load. destruct (_model self); [reflexivity|congruence].
Qed.

(** A load that succeeds leaves a model behind, so the next one returns at
    once. *)
Lemma load_sets_model `{Torch} self log self' log' :
  _load self log = (self', log', Ok tt) -> _model self' <> None.
Proof.
  unfold _load. destruct (_model self) as [m|] eqn:Hm.
  - intros [= <- _]. congruence.
  - destruct (processor_from_pretrained _ _); [|discriminate].
    cbn [_model _processor _device].
    destruct (network_from_pretrained _ _); [|discriminate].
    cbn [_model _processor _device].
    destruct (network_to _ _); [|discriminate].
    intros [= <- _]. discriminate.
Qed.

Lemma predict_loaded `{Torch} self log img :
  _model self <> None ->
  exists k r, predict_adapter self log img = (self, log ++ repeat ForwardPass k, r).
Proof.
  intros Hm. unfold predict_adapter. rewrite load_loaded by assumption.
  destruct (_processor self), (_model self).
  - exists 1%nat. eauto.
  - exists 0%nat. rewrite app_nil_r. eauto.
  - exists 0%nat. rewrite app_nil_r. eauto.
  - exists 0%nat. rewrite app_nil_r. eauto.
Qed.

Lemma predictions_loaded `{Torch} imgs : forall self log,
  _model self <> None ->
  exists k, predictions self log imgs = (self, log ++ repeat ForwardPass k).
Proof.
  induction imgs as [|img rest IH]; intros self log Hm; cbn [predictions].
  - exists 0%nat. rewrite app_nil_r. reflexivity.
  - destruct (predict_loaded self log img Hm) as (k & r & ->).
    destruct (IH self (log ++ repeat ForwardPass k) Hm) as [k' ->].
    exists (k + k')%nat. rewrite <- app_assoc, repeat_app. reflexivity.
Qed.

(** C9. Constructing an adapter loads nothing; the first [predict]
    fetches the processor and the network and stores them; [_load] on an
    adapter whose model is loaded makes no call and leaves the processor,
    the model and the device as they are, so a second [_load] after a
    successful one changes nothing, and neither do all later calls of
    [predict], which add nothing but their forward passes. *)
Theorem load_is_lazy_and_idempotent `{Torch} :
  (_processor init = None /\ _model init = None /\ _device init = None) /\
  (forall log img cache_dir p m m',
     cache_dir = match HF_HOME with Some d => d | None => default_cache_dir end ->
     processor_from_pretrained MODEL_ID cache_dir = Ok p ->
     network_from_pretrained MODEL_ID cache_dir = Ok m ->
     network_to m _detect_device = Ok m' ->
     predict_adapter init log img
     = ({| _processor := Some p;
           _model := Some (network_eval m');
           _device := Some _detect_device |},
        log ++ [LoggedLoading MODEL_ID _detect_device;
                ProcessorRequested MODEL_ID cache_dir;
                NetworkRequested MODEL_ID cache_dir;
                NetworkMoved _detect_device;
                ForwardPass],
        infer p (network_eval m') (Some _detect_device) img)) /\
  (forall self log, _model self <> None -> _load self log = (self, log, Ok tt)) /\
  (forall self log self' log',
     _load self log = (self', log', Ok tt) ->
     _load self' log' = (self', log', Ok tt)) /\
  (forall self log imgs, _model self <> None ->
     exists k, predictions self log imgs = (self, log ++ repeat ForwardPass k)).
Proof.
  split; [repeat split|]. split; [|split; [|split]].
  - intros log img cache_dir p m m' -> Hp Hm Hto.
    unfold predict_adapter, _load. cbn [init _model _processor _device].
    rewrite Hp. cbn [_model _processor _device]. rewrite Hm.
    cbn [_model _processor _device]. rewrite Hto.
    cbn [_model _processor _device].
    rewrite <- !app_assoc. reflexivity.
  - intros. apply load_loaded. assumption.
  - intros self log self' log' Hload.
    apply load_loaded. apply (load_sets_model self log self' log' Hload).
  - intros. apply predictions_loaded. assumption.
Qed.

End DepthAnythingFacts.

(** * The HTTP adapter *)

Module AppFacts.
Import Py Float32 Numpy NumpyFacts Pil Ports Depth DepthFacts ImageUtils ImageUtilsFacts
       DepthAnything App Spec Fixtures.
Local Open Scope string_scope.

(** The answer to an exception of [decode_upload]: the route catches a
    [ValueError], whatever its message, and nothing else. *)
Lemma depth_undecoded {M} `{DepthModelPort M} `{Platform} `{Codec} file (model : M) e :
  decode_upload file = Raise e ->
  depth file model
  = (model, match e with
            | ValueError msg => HTTPException 400 msg
            | _ => Unhandled e
            end).
Proof.
  intros He. unfold depth. rewrite He. destruct e; reflexivity.
Qed.

Lemma depth_invalid {M} `{DepthModelPort M} `{Platform} `{Codec} file (model : M) e :
  (h <- Image_open file ;; load h)%py = Raise e ->
  depth file model = (model, HTTPException 400 "Invalid image data").
Proof.
  intros He.
  exact (depth_undecoded file model _ (decode_upload_unreadable file e He)).
Qed.

Lemma depth_estimated {M} `{DepthModelPort M} `{Platform} `{Codec}
    file (model model' : M) img depth_map rows columns :
  decode_upload file = Ok img ->
  estimate_depth img model = (model', Ok depth_map) ->
  shape depth_map = [rows; columns] -> (0 < rows)%nat -> (0 < columns)%nat ->
  exists png,
    depth_to_png depth_map = Ok png /\
    depth file model
    = (model',
       Returned
         {| status_code := 200;
            media_type := "image/png";
            content := Bytes png;
            headers := [("X-Depth-Width", str_int columns);
                        ("X-Depth-Height", str_int rows)] |}).
Proof.
  intros Hdec Hest E Hr Hc.
  pose proof (depth_to_png_2d depth_map rows columns E Hr Hc) as Hpng.
  eexists. split; [exact Hpng|].
  unfold depth. rewrite Hdec, Hest, Hpng, E. reflexivity.
Qed.





(** An upload in CIELAB is answered with a 400 whose detail is the
    library's message, and an upload of a single pixel with a 500: the
    adapter's raster for it has no axis left. *)
Lemma lab_upload_is_400 :
  respond (snd (@depth _ (@adapter_port cpu_only) zero_cast raw_codec
                       lab_1x1_bytes (@init cpu_only, [])))
  = {| status_code := 400; media_type := "application/json";
       content := Json [("detail", "conversion from LAB to RGB not supported")];
       headers := [] |}.
Proof. vm_compute. reflexivity. Qed.

Lemma single_pixel_upload_is_500 :
  (exists model' out,
     @estimate_depth _ (@adapter_port cpu_only) (grey_image 1 1) (@init cpu_only, [])
     = (model', Ok out) /\
     shape out = []) /\
  status_code
    (respond (snd (@depth _ (@adapter_port cpu_only) zero_cast raw_codec
                          (make_png_bytes 1 1) (@init cpu_only, []))))
  = 500%nat.
Proof.
  split; [eexists _, _; split; [vm_compute; reflexivity|reflexivity]|].
  vm_compute. reflexivity.
Qed.




End AppFacts.

(** * The expectations of the test suite *)

Module TestSuite.
Import Py Float32 Float32Ops Numpy NumpyFacts Pil Ports Depth DepthFacts ImageUtils
       ImageUtilsFacts DepthAnything DepthAnythingFacts App AppFacts Spec Fixtures.

(** ** [test_depth.py] *)

Lemma mock_prediction :
  predict mock_model test_image
  = (mock_model,
     Ok {| shape := [64; 64]%nat;
           data := flat_map (fun v => repeat v 64) (linspace01 64) |}).
Proof. reflexivity. Qed.

Lemma mock_extrema :
  let raw := {| shape := [64; 64]%nat;
                data := flat_map (fun v => repeat v 64) (linspace01 64) |} in
  Numpy.min raw = Ok zero /\ Numpy.max raw = Ok one /\
  sub one zero = one.
Proof.
  cbv zeta. split; [vm_compute; reflexivity|].
  split; vm_compute; reflexivity.
Qed.

(** [test_output_dtype_and_range], [test_output_shape_matches_image] *)
Example test_output_range_and_shape :
  exists out : ndarray float32,
    estimate_depth test_image mock_model = (mock_model, Ok out) /\
    shape out = [64; 64]%nat /\
    Forall in_unit_interval (data out).
Proof.
  destruct mock_extrema as (Hmin & Hmax & Hspread).
  destruct (estimate_depth_unit_interval test_image mock_model mock_model _
              mock_prediction 0 one_grid one_grid Hmin Hmax eq_refl Hspread)
    as (out & Hest & Hshape & _ & Hunit).
  exists out. auto.
Qed.

(** [test_uniform_output_does_not_crash] *)
Example test_uniform_output :
  estimate_depth test_image uniform_model
  = (uniform_model, Ok {| shape := [64; 64]%nat; data := repeat zero (64 * 64) |}).
Proof.
  apply (estimate_depth_degenerate test_image uniform_model uniform_model
           {| shape := [64; 64]%nat; data := repeat (of_Z 5) (64 * 64) |}
           eq_refl (of_Z 5) (of_Z 5)); vm_compute; reflexivity.
Qed.

(** [test_normalisation_with_known_values]: [[2, 4], [6, 8]] becomes
    [[0, 1/3], [2/3, 1]], the thirds rounded once. *)
Example test_normalisation_with_known_values :
  snd (estimate_depth (grey_image 2 2) (Ok known_raster : StubModel))
  = Ok {| shape := [2; 2]%nat;
          data := [zero; div (of_Z 1) (of_Z 3); div (of_Z 2) (of_Z 3); one] |}.
Proof. vm_compute. reflexivity. Qed.

(** ** [test_image_utils.py] *)

(** [test_valid_png] *)
Example test_valid_png :
  let red := {| im_mode := RGB; im_size := (32, 32)%nat;
                im_data := repeat [255; 0; 0]%Z (32 * 32) |} in
  @decode_upload raw_codec (raw_save red) = Ok red.
Proof. vm_compute. reflexivity. Qed.

(** [test_converts_rgba_to_rgb] *)
Example test_converts_rgba_to_rgb :
  let green := {| im_mode := RGBA; im_size := (16, 16)%nat;
                  im_data := repeat [0; 255; 0; 128]%Z (16 * 16) |} in
  @decode_upload raw_codec (raw_save green)
  = Ok {| im_mode := RGB; im_size := (16, 16)%nat;
          im_data := repeat [0; 255; 0]%Z (16 * 16) |}.
Proof. vm_compute. reflexivity. Qed.

(** [test_invalid_bytes_raises_value_error] *)
Example test_invalid_bytes_raises_value_error :
  @decode_upload raw_codec not_an_image = Raise (ValueError "Invalid image data").
Proof. vm_compute. reflexivity. Qed.

(** [test_returns_valid_png], [test_roundtrip_approximate]: the sixteen
    values [k / 15] are stored as the bytes [17 k]. *)
Example test_returns_valid_png :
  (png <- @depth_to_png zero_cast raw_codec sample_depth_array ;;
   h <- @Image_open raw_codec png ;; load h)%py
  = Ok {| im_mode := L; im_size := (4, 4)%nat;
          im_data := map (fun k => [17 * Z.of_nat k]%Z) (seq 0 16) |}.
Proof. vm_compute. reflexivity. Qed.

(** ** [test_app.py] *)

(** [test_health] *)
Example test_health :
  respond health
  = {| status_code := 200; media_type := "application/json";
       content := Json [("status", "ok")]%string; headers := [] |}.
Proof. reflexivity. Qed.

(** [test_depth_returns_png], [test_depth_has_dimension_headers] *)
Example test_depth_has_dimension_headers :
  exists png_bytes,
    respond (snd (@depth _ mock_port zero_cast raw_codec (make_png_bytes 80 60) mock_model))
    = {| status_code := 200; media_type := "image/png";
         content := Bytes png_bytes;
         headers := [("X-Depth-Width", "80"); ("X-Depth-Height", "60")]%string |}.
Proof.
  assert (Hdec : @decode_upload raw_codec (make_png_bytes 80 60) = Ok (grey_image 80 60))
    by (vm_compute; reflexivity).
  assert (Hpred : predict mock_model (grey_image 80 60)
                  = (mock_model,
                     Ok {| shape := [60; 80]%nat;
                           data := flat_map (fun v => repeat v 80) (linspace01 60) |}))
    by reflexivity.
  destruct (estimate_depth_shape (grey_image 80 60) mock_model mock_model _ Hpred)
    as (out & Hest & Hshape & _); [discriminate|].
  destruct (@depth_estimated _ mock_port zero_cast raw_codec _ _ _ _ _ 60%nat 80%nat
              Hdec Hest Hshape) as (png & _ & Hdepth).
  - apply Nat.ltb_lt. reflexivity.
  - apply Nat.ltb_lt. reflexivity.
  - rewrite Hdepth. exists png. reflexivity.
Qed.

(** [test_depth_invalid_data_returns_400] *)
Example test_depth_invalid_data_returns_400 :
  respond (snd (@depth _ mock_port zero_cast raw_codec not_an_image mock_model))
  = {| status_code := 400; media_type := "application/json";
       content := Json [("detail", "Invalid image data")]%string; headers := [] |}.
Proof. vm_compute. reflexivity. Qed.

(** ** [test_depth_anything.py] *)

(** [test_predict_returns_array]: one prediction requests the processor
    once and the network once, and returns a raster of the image's
    dimensions. *)
Example test_predict_returns_array :
  exists self log raw,
    @predict_adapter cpu_only (@init cpu_only) [] (grey_image 32 24) = (self, log, Ok raw) /\
    shape raw = [24; 32]%nat /\
    List.length (filter (fun e => match e with ProcessorRequested _ _ => true | _ => false end) log) = 1%nat /\
    List.length (filter (fun e => match e with NetworkRequested _ _ => true | _ => false end) log) = 1%nat.
Proof.
  eexists _, _, _. split; [vm_compute; reflexivity|].
  split; [reflexivity|]. split; reflexivity.
Qed.

End TestSuite.

(* ===================================================================== *)
(** * The raw container is lossless *)
(* ===================================================================== *)

Module FixtureFacts.
Import Py Float32 Numpy Pil ImageUtils Fixtures.

Lemma read_unary_unary n rest : read_unary (unary n ++ rest) = Some (n, rest).
Proof.
  induction n as [|n IH]; [reflexivity|].
  cbn [unary app read_unary]. rewrite IH. reflexivity.
Qed.

Lemma byte_of_Z_inv p : (0 <= p < 256)%Z -> Z_of_byte (byte_of_Z p) = p.
Proof.
  intros Hp.
  assert (T : forallb (fun p => Z_of_byte (byte_of_Z p) =? p)%Z
                      (map Z.of_nat (seq 0 256)) = true)
    by (vm_compute; reflexivity).
  rewrite forallb_forall in T. apply Z.eqb_eq. apply T.
  rewrite <- (Z2Nat.id p) by lia. apply in_map, in_seq. lia.
Qed.

Lemma concat_singletons (pixels : list (list Z)) :
  Forall (fun px => exists p, px = [p] /\ (0 <= p < 256)%Z) pixels ->
  List.length (List.concat pixels) = List.length pixels /\
  chunks 1 (List.length pixels) (map Z_of_byte (map byte_of_Z (List.concat pixels)))
  = pixels.
Proof.
  induction 1 as [|px rest (p & -> & Hp) _ [IHlen IH]]; [split; reflexivity|].
  split.
  - cbn [List.concat app List.length]. rewrite IHlen. reflexivity.
  - cbn [List.concat app List.length map chunks firstn skipn].
    rewrite (byte_of_Z_inv p Hp), IH. reflexivity.
Qed.

(** What the raw container wrote of a greyscale raster, it reads back. *)
Lemma raw_codec_lossless : @lossless raw_codec.
Proof.
  intros [m [w h] pixels] png (Hmode & Hw & Hh & Hlen & Hpix).
  cbn [im_mode im_size im_data fst snd] in *. subst m.
  unfold save_PNG. cbn [im_size fst snd].
  destruct w as [|w]; [lia|]. destruct h as [|h]; [lia|].
  cbn [Nat.eqb orb]. intros [= <-].
  destruct (concat_singletons pixels Hpix) as [Hconcat Hchunks].
  change (@encode_PNG raw_codec) with raw_save.
  change (@Image_open raw_codec) with raw_open.
  change (@load raw_codec) with raw_load.
  unfold raw_save. cbn [im_mode im_size im_data fst snd byte_of_mode].
  unfold raw_open.
  change (mode_of_byte Byte.x01) with (Some L).
  rewrite read_unary_unary, read_unary_unary. cbn [bind].
  unfold raw_load. cbn [bands].
  rewrite length_map, Hconcat, Hlen, Nat.mul_1_r, Nat.eqb_refl.
  rewrite <- Hlen, Hchunks. reflexivity.
Qed.

End FixtureFacts.

(** * The theorems at the fixtures of the test suite *)

Module Witnesses.
Import Py Float32 Numpy NumpyFacts Pil Ports Depth DepthFacts ImageUtils ImageUtilsFacts
       DepthAnything DepthAnythingFacts App AppFacts Spec Fixtures FixtureFacts.

(** The uniform raster of the tests is normalised to zeros. *)
Lemma constant_raster_all_zero_witness :
  data uniform_raster <> [] /\
  (forall x y, In x (data uniform_raster) -> In y (data uniform_raster) ->
               eqb x y = true) /\
  estimate_depth rgba_2x2 (Ok uniform_raster : StubModel)
  = (Ok uniform_raster, Ok (zeros_like uniform_raster)).
Proof.
  assert (Hne : data uniform_raster <> []) by discriminate.
  assert (Hconst : forall x y, In x (data uniform_raster) ->
                     In y (data uniform_raster) -> eqb x y = true).
  { intros x y Hx Hy. apply repeat_spec in Hx, Hy. subst.
    vm_compute. reflexivity. }
  split; [exact Hne|]. split; [exact Hconst|].
  destruct (constant_raster_all_zero rgba_2x2 (Ok uniform_raster : StubModel)
              (Ok uniform_raster) uniform_raster eq_refl Hne Hconst)
    as (lo & hi & _ & _ & _ & Hest & _).
  exact Hest.
Defined.

(** The second value of the sample map, a fifteenth, becomes pixel 17. *)
Lemma depth_to_png_pixels_witness :
  shape sample_depth_array = [4; 4]%nat /\
  item sample_depth_array 0 1 = Some (div (of_Z 1) (of_Z 15)) /\
  (exists png, @depth_to_png zero_cast raw_codec sample_depth_array = Ok png) /\
  @item Z (@depth_to_uint8 zero_cast sample_depth_array) 0 1 = Some 17%Z.
Proof.
  assert (Hv : item sample_depth_array 0 1 = Some (div (of_Z 1) (of_Z 15)))
    by reflexivity.
  split; [reflexivity|]. split; [exact Hv|].
  destruct (@depth_to_png_pixels zero_cast raw_codec sample_depth_array 4 4 eq_refl)
    as (img & _ & Hpng & _ & _ & _ & _ & Hpix).
  - apply Nat.ltb_lt. reflexivity.
  - apply Nat.ltb_lt. reflexivity.
  - split; [eexists; exact Hpng|].
    destruct (Hpix 0%nat 1%nat _ Hv) as (p & Hp & _ & _ & Hspec & _).
    rewrite Hp. f_equal.
    assert (E : Some p = Some 17%Z)
      by (rewrite <- Hspec; [vm_compute; reflexivity|reflexivity]).
    injection E as ->. reflexivity.
Defined.


(** The sample map of the tests survives the round trip. *)
Lemma png_roundtrip_tolerance_witness :
  @lossless raw_codec /\
  well_formed sample_depth_array /\
  Forall in_unit_interval (data sample_depth_array) /\
  exists png decoded,
    @depth_to_png zero_cast raw_codec sample_depth_array = Ok png /\
    (h <- @Image_open raw_codec png ;; load h)%py = Ok decoded /\
    shape (asarray_L decoded) = [4; 4]%nat.
Proof.
  assert (Hwf : well_formed sample_depth_array) by reflexivity.
  assert (Hunit : Forall in_unit_interval (data sample_depth_array))
    by (repeat constructor; vm_compute; reflexivity).
  assert (Hr : (0 < 4)%nat) by (apply Nat.ltb_lt; reflexivity).
  split; [exact raw_codec_lossless|]. split; [exact Hwf|]. split; [exact Hunit|].
  destruct (@png_roundtrip_tolerance zero_cast raw_codec sample_depth_array 4 4
              raw_codec_lossless eq_refl Hr Hr Hwf Hunit)
    as (png & decoded & Hpng & Hdec & Hshape & _).
  exists png, decoded. auto.
Defined.

(** On a machine without accelerators a fresh adapter loads on its
    first prediction and not again. *)
Lemma load_is_lazy_and_idempotent_witness :
  exists self log r,
    @predict_adapter cpu_only (@init cpu_only) [] rgba_2x2 = (self, log, r) /\
    @_model cpu_only self <> None /\
    @_load cpu_only self log = (self, log, Ok tt).
Proof.
  destruct (@load_is_lazy_and_idempotent cpu_only) as (_ & Hfirst & Hnoop & _ & _).
  pose proof (Hfirst [] rgba_2x2 _ tt false false eq_refl eq_refl eq_refl eq_refl)
    as Hpred.
  eexists _, _, _. split; [exact Hpred|].
  assert (Hm : Some (@network_eval cpu_only false) <> None) by discriminate.
  split; [exact Hm|].
  apply Hnoop. exact Hm.
Defined.



End Witnesses.

(* ===================================================================== *)
(** * Rounding lands in the format, and leaves the format alone *)
(* ===================================================================== *)

Module Float32FormatFacts.
Import Float32 Float32Facts Float32Ops Float32Format Spec.
Local Open Scope Z_scope.

(** The rounded mantissa has at most 24 bits, or is [2^24]. *)
Lemma rne_mantissa_bound a d :
  0 < d ->
  Z.abs (rne a (d * 2 ^ ulp_exp a d)) <= 2 ^ 24.
Proof.
  intros Hd. pose proof (ulp_exp_nonneg a d) as Hk.
  set (k := ulp_exp a d) in *.
  assert (P : 0 < 2 ^ k) by (apply Z.pow_pos_nonneg; lia).
  assert (Hup : Z.abs a < 2 ^ (k + 24) * d).
  { pose proof (ulp_exp_upper (Z.abs a) d Hd (Z.abs_nonneg a)) as H.
    unfold ulp_exp in H. rewrite Z.abs_idemp in H. exact H. }
  rewrite Z.pow_add_r in Hup by lia.
  assert (D : 0 < d * 2 ^ k) by nia.
  assert (Hhi : rne a (d * 2 ^ k) <= 2 ^ 24).
  { apply Z.le_trans with (rne (2 ^ 24 * (d * 2 ^ k)) (d * 2 ^ k));
      [|rewrite rne_exact by assumption; lia].
    apply rne_mono; try assumption. nia. }
  assert (Hlo : - 2 ^ 24 <= rne a (d * 2 ^ k)).
  { apply Z.le_trans with (rne (- 2 ^ 24 * (d * 2 ^ k)) (d * 2 ^ k));
      [rewrite rne_exact by assumption; lia|].
    apply rne_mono; try assumption. nia. }
  lia.
Qed.

Lemma pow2_divide j k : 0 <= j <= k -> (2 ^ j | 2 ^ k).
Proof.
  intros H. exists (2 ^ (k - j)). rewrite <- Z.pow_add_r by lia.
  f_equal. lia.
Qed.

(** A mantissa of at most 24 bits times a power of two is in the format,
    if it is below the overflow threshold. *)
Lemma is_float32_mantissa m k :
  0 <= k -> Z.abs m <= 2 ^ 24 -> Z.abs (m * 2 ^ k) < overflow_grid ->
  is_float32 (m * 2 ^ k) = true.
Proof.
  intros Hk Hm Hov. unfold is_float32.
  apply andb_true_intro. split; [apply Z.ltb_lt; exact Hov|].
  apply Z.eqb_eq.
  assert (P : 0 < 2 ^ k) by (apply Z.pow_pos_nonneg; lia).
  pose proof (ulp_exp_nonneg (m * 2 ^ k) 1) as Hk'.
  assert (P' : 0 < 2 ^ ulp_exp (m * 2 ^ k) 1) by (apply Z.pow_pos_nonneg; lia).
  apply Z.mod_divide; [lia|].
  destruct (Z.eq_dec m 0) as [->|Hne]; [rewrite Z.mul_0_l; apply Z.divide_0_r|].
  assert (Hlog : Z.log2 (Z.abs (m * 2 ^ k)) = Z.log2 (Z.abs m) + k).
  { rewrite Z.abs_mul, (Z.abs_eq (2 ^ k)) by lia.
    rewrite Z.log2_mul_pow2 by lia. lia. }
  unfold ulp_exp in *. rewrite Z.div_1_r in *. rewrite Hlog in *.
  destruct (Z_lt_le_dec (Z.abs m) (2 ^ 24)) as [Hlt|Hge].
  - pose proof (Z.log2_lt_pow2 (Z.abs m) 24 ltac:(lia)) as [Hl _].
    specialize (Hl Hlt).
    apply Z.divide_trans with (2 ^ k);
      [apply pow2_divide; lia|apply Z.divide_factor_r].
  - assert (E : Z.abs m = 2 ^ 24) by lia.
    rewrite E, Z.log2_pow2 by lia.
    replace (Z.max 0 (24 + k - 23)) with (k + 1) by lia.
    apply Z.divide_abs_r. rewrite Z.abs_mul, E, (Z.abs_eq (2 ^ k)) by lia.
    exists (2 ^ 23). rewrite <- !Z.pow_add_r by lia. f_equal. lia.
Qed.

(** What rounding returns is a number of the format. *)
Lemma round32_representable a d : 0 < d -> representable (round32 a d) = true.
Proof.
  intros Hd. unfold round32, overflow.
  destruct (Z.leb_spec overflow_grid (Z.abs (round_grid a d))) as [|Hfin];
    [reflexivity|].
  cbn [representable]. unfold round_grid in *.
  apply is_float32_mantissa;
    [apply ulp_exp_nonneg|apply rne_mantissa_bound; assumption|assumption].
Qed.

(** A number of the format rounds to itself. *)
Lemma round_grid_id n d :
  0 < d -> is_float32 n = true -> round_grid (n * d) d = n.
Proof.
  intros Hd Hn. unfold is_float32 in Hn.
  apply andb_prop in Hn. destruct Hn as [_ Hmod]. apply Z.eqb_eq in Hmod.
  pose proof (ulp_exp_nonneg n 1) as Hk.
  set (k := ulp_exp n 1) in *.
  assert (P : 0 < 2 ^ k) by (apply Z.pow_pos_nonneg; lia).
  assert (E : n = n / 2 ^ k * 2 ^ k).
  { pose proof (Z.div_mod n (2 ^ k) ltac:(lia)). lia. }
  assert (Hup : Z.abs n < 2 ^ (k + 24) * 1).
  { pose proof (ulp_exp_upper (Z.abs n) 1 ltac:(lia) (Z.abs_nonneg n)) as H.
    unfold ulp_exp in H. rewrite Z.abs_idemp in H. exact H. }
  rewrite Z.pow_add_r in Hup by lia.
  assert (Hm : Z.abs (n / 2 ^ k) < 2 ^ 24).
  { assert (Z.abs n = Z.abs (n / 2 ^ k) * 2 ^ k)
      by (rewrite E at 1; rewrite Z.abs_mul, (Z.abs_eq (2 ^ k)) by lia; reflexivity).
    nia. }
  rewrite E at 1 2.
  apply round_grid_exact; [assumption|lia|assumption].
Qed.

Lemma sub_representable x y : representable (sub x y) = true.
Proof.
  destruct x as [|s|a], y as [|t|b]; try reflexivity.
  - cbn [sub]. destruct (Bool.eqb s t); reflexivity.
  - apply round32_representable. lia.
Qed.

Lemma div_representable x y : representable (div x y) = true.
Proof.
  destruct x as [|s|a], y as [|t|b]; try reflexivity.
  cbn [div]. destruct (Z.eqb_spec b 0); [destruct (a =? 0); reflexivity|].
  apply round32_representable. lia.
Qed.

End Float32FormatFacts.

(* ===================================================================== *)
(** * More on reductions *)
(* ===================================================================== *)

Module ReductionFacts.
Import Py Float32 Float32Facts Float32Ops Float32Format Float32FormatFacts
       Numpy NumpyFacts ImageUtilsFacts Spec.
Local Open Scope Z_scope.

(** A NaN anywhere is the minimum. *)
Lemma fold_minimum_from_nan xs : fold_left minimum xs NaN = NaN.
Proof. induction xs as [|y ys IH]; [reflexivity|exact IH]. Qed.

Lemma fold_minimum_nan xs : forall acc,
  In NaN xs -> fold_left minimum xs acc = NaN.
Proof.
  induction xs as [|y ys IH]; intros acc; [intros []|].
  intros [->|Hin]; cbn [fold_left].
  - replace (minimum acc NaN) with NaN by (destruct acc; reflexivity).
    apply fold_minimum_from_nan.
  - apply IH. exact Hin.
Qed.

Lemma min_nan a : In NaN (data a) -> Numpy.min a = Ok NaN.
Proof.
  unfold Numpy.min, reduce. destruct (data a) as [|x xs]; [intros []|].
  intros [->|Hin]; f_equal.
  - apply fold_minimum_from_nan.
  - apply fold_minimum_nan. exact Hin.
Qed.

(** The least element of a finite list is its minimum, the greatest its
    maximum. *)
Lemma fold_minimum_least xs : forall a m,
  m <= a ->
  Forall (fun y => exists n, y = Fin n /\ m <= n) xs ->
  a = m \/ In (Fin m) xs ->
  fold_left minimum xs (Fin a) = Fin m.
Proof.
  induction xs as [|y ys IH]; intros a m Ha Hall Hin; cbn [fold_left].
  - destruct Hin as [->|[]]. reflexivity.
  - inversion Hall as [|? ? (n & -> & Hn) Hall']; subst.
    rewrite minimum_fin. apply IH; [lia|assumption|].
    destruct Hin as [->|[E|Hin]]; [left; lia| |right; assumption].
    injection E as ->. left. lia.
Qed.

Lemma fold_maximum_greatest xs : forall a m,
  a <= m ->
  Forall (fun y => exists n, y = Fin n /\ n <= m) xs ->
  a = m \/ In (Fin m) xs ->
  fold_left maximum xs (Fin a) = Fin m.
Proof.
  induction xs as [|y ys IH]; intros a m Ha Hall Hin; cbn [fold_left].
  - destruct Hin as [->|[]]. reflexivity.
  - inversion Hall as [|? ? (n & -> & Hn) Hall']; subst.
    rewrite maximum_fin. apply IH; [lia|assumption|].
    destruct Hin as [->|[E|Hin]]; [left; lia| |right; assumption].
    injection E as ->. left. lia.
Qed.

Lemma min_least a m :
  Forall (fun y => exists n, y = Fin n /\ m <= n) (data a) ->
  In (Fin m) (data a) -> Numpy.min a = Ok (Fin m).
Proof.
  unfold Numpy.min, reduce. destruct (data a) as [|x xs]; [intros _ []|].
  intros Hall Hin. inversion Hall as [|? ? (n & -> & Hn) Hall']; subst.
  f_equal. apply fold_minimum_least; [assumption|assumption|].
  destruct Hin as [E|Hin]; [injection E as ->; left; reflexivity|right; assumption].
Qed.

Lemma max_greatest a m :
  Forall (fun y => exists n, y = Fin n /\ n <= m) (data a) ->
  In (Fin m) (data a) -> Numpy.max a = Ok (Fin m).
Proof.
  unfold Numpy.max, reduce. destruct (data a) as [|x xs]; [intros _ []|].
  intros Hall Hin. inversion Hall as [|? ? (n & -> & Hn) Hall']; subst.
  f_equal. apply fold_maximum_greatest; [assumption|assumption|].
  destruct Hin as [E|Hin]; [injection E as ->; left; reflexivity|right; assumption].
Qed.

(** A spread of at most [FLT_MAX] does not overflow. *)
Lemma spread_finite lo hi :
  lo < hi -> hi - lo <= max_float -> exists b, sub (Fin hi) (Fin lo) = Fin b.
Proof.
  intros Hlt Hle. eexists. cbn [sub]. unfold round32. apply overflow_fin.
  assert (H0 : 0 <= round_grid (hi - lo) 1) by (apply round_grid_nonneg; lia).
  assert (H1 : round_grid (hi - lo) 1 <= (2 ^ 24 - 1) * 2 ^ 253).
  { apply round_grid_le; [lia|lia|reflexivity|].
    change ((2 ^ 24 - 1) * 2 ^ 253) with max_float. lia. }
  assert ((2 ^ 24 - 1) * 2 ^ 253 < overflow_grid) by reflexivity.
  lia.
Qed.

End ReductionFacts.

(* ===================================================================== *)
(** * Further properties of the depth use case *)
(* ===================================================================== *)

Module DepthLaws.
Import Py Float32 Float32Facts Float32Ops Float32Format Float32FormatFacts
       Numpy NumpyFacts ReductionFacts Pil Ports Depth DepthFacts Spec Fixtures.

(** X1. [estimate_depth] raises in two cases only: [predict] raised, and
    the exception is that one, or [predict] returned an array without
    elements, and the exception is the [ValueError] of the empty
    reduction.  The model is left as [predict] left it. *)
Theorem estimate_depth_raises_iff {M} `{DepthModelPort M} (img : image) (model : M)
    (e : exn) :
  fst (estimate_depth img model) = fst (predict model img) /\
  (snd (estimate_depth img model) = Raise e <->
   snd (predict model img) = Raise e \/
   exists raw,
     snd (predict model img) = Ok raw /\ data raw = [] /\
     e = ValueError
           "zero-size array to reduction operation minimum which has no identity").
Proof.
  unfold estimate_depth. destruct (predict model img) as [m [raw|e0]]; cbn [fst snd].
  - split; [reflexivity|]. cbn [bind].
    unfold Numpy.min, Numpy.max, reduce.
    destruct (data raw) as [|x xs] eqn:Hdata; cbn [bind].
    + split.
      * intros [= <-]. right. exists raw.
        split; [reflexivity|]. split; [exact Hdata|reflexivity].
      * intros [Habs|(raw' & _ & _ & ->)]; [discriminate Habs|reflexivity].
    + split.
      * destruct (eqb _ _); discriminate.
      * intros [Habs|(raw' & [= <-] & Hempty & _)]; [discriminate Habs|].
        rewrite Hdata in Hempty. discriminate Hempty.
  - split; [reflexivity|]. cbn [bind]. split.
    + intros [= <-]. left. reflexivity.
    + intros [[= <-]|(raw' & Habs & _)]; [reflexivity|discriminate Habs].
Qed.

Section AnyModel.
Context {M : Type} `{DepthModelPort M}.
Variables (img : image) (model model' : M) (raw : ndarray float32).
Hypothesis predicted : predict model img = (model', Ok raw).

(** X2. One NaN in the raster makes every element of the result a NaN:
    the minimum is then NaN, which equals nothing, so the division branch
    is taken with a NaN offset. *)
Theorem nan_spoils_every_element :
  In NaN (data raw) ->
  estimate_depth img model
  = (model', Ok {| shape := shape raw;
                   data := repeat NaN (List.length (data raw)) |}).
Proof.
  intros Hnan. pose proof (min_nan raw Hnan) as Hmin.
  destruct (reduce_nonempty maximum "maximum" raw) as [hi Hmax].
  { intros E. rewrite E in Hnan. exact Hnan. }
  rewrite (estimate_depth_division img model model' raw predicted NaN hi Hmin Hmax eq_refl).
  unfold map_array. do 3 f_equal. clear.
  induction (data raw) as [|x xs IH]; [reflexivity|].
  cbn [map List.length repeat]. f_equal; [destruct x; reflexivity|exact IH].
Qed.

(** X3. The divisor of the division branch is never zero, whatever the
    raster holds: two numbers that are not equal have a difference that is
    not zero. *)
Theorem division_never_by_zero lo hi :
  Numpy.min raw = Ok lo -> Numpy.max raw = Ok hi -> eqb lo hi = false ->
  estimate_depth img model
  = (model', Ok (map_array (fun x => div (sub x lo) (sub hi lo)) raw)) /\
  eqb (sub hi lo) zero = false.
Proof.
  intros Hmin Hmax Hne. split.
  - apply (estimate_depth_division img model model' raw predicted lo hi); assumption.
  - apply sub_distinct_nonzero. exact Hne.
Qed.

(** ** Rasters with a finite minimum and maximum at most [FLT_MAX] apart *)

Variables lo hi : Z.
Hypothesis raster_min : Numpy.min raw = Ok (Fin lo).
Hypothesis raster_max : Numpy.max raw = Ok (Fin hi).

(** X4. When the minimum and the maximum are finite, differ, and are at
    most [FLT_MAX] apart, every element of the result lies in [[0, 1]]. *)
Theorem finite_spread_unit_interval :
  (lo < hi)%Z -> (hi - lo <= max_float)%Z ->
  exists out,
    estimate_depth img model = (model', Ok out) /\
    shape out = shape raw /\
    Forall in_unit_interval (data out).
Proof.
  intros Hlt Hle. destruct (spread_finite lo hi Hlt Hle) as [b Hb].
  destruct (estimate_depth_unit_interval img model model' raw predicted
              lo hi b raster_min raster_max Hlt Hb)
    as (out & Hest & Hshape & _ & Hunit).
  exists out. auto.
Qed.


End AnyModel.

(** A map between 0 and 1 whose elements are numbers of the format is
    what its own normalisation computes. *)
Lemma unit_map_fixed (raw : ndarray float32) :
  Numpy.min raw = Ok zero -> Numpy.max raw = Ok one ->
  Forall (fun x => representable x = true) (data raw) ->
  map_array (fun x => div (sub x zero) (sub one zero)) raw = raw.
Proof.
  intros Hmin Hmax Hrep.
  pose proof (finite_extrema raw 0 one_grid Hmin Hmax) as Hfin.
  pose proof one_grid_pos as HG. pose proof one_grid_lt_overflow as HO.
  assert (Hone : sub one zero = one) by (vm_compute; reflexivity).
  destruct raw as [sh d]. unfold map_array. cbn [shape data] in *. f_equal.
  rewrite Hone. rewrite <- (map_id d) at 2. apply map_ext_in.
  intros x Hx. rewrite Forall_forall in Hfin, Hrep.
  destruct (Hfin x Hx) as (n & -> & Hn). specialize (Hrep _ Hx).
  cbn [representable] in Hrep.
  assert (Hsub : sub (Fin n) zero = Fin n).
  { unfold zero. cbn [sub]. unfold round32.
    rewrite Z.sub_0_r. rewrite <- (Z.mul_1_r n) at 1.
    rewrite round_grid_id by (assumption || lia).
    apply overflow_fin. lia. }
  rewrite Hsub. unfold one. cbn [div].
  destruct (Z.eqb_spec one_grid 0); [lia|].
  replace (Z.sgn one_grid) with 1%Z by lia.
  rewrite Z.abs_eq, Z.mul_1_r by lia. unfold round32.
  rewrite round_grid_id by assumption.
  apply overflow_fin. lia.
Qed.

(** X6. A raster that is a normalised map already (its minimum is [0.0],
    its maximum [1.0], its elements are [float32] numbers) comes back with
    the same values.  Zero has no sign here: a [-0.0] of the raster comes
    back as a zero, in the code as [+0.0]. *)
Theorem normalised_map_unchanged {M} `{DepthModelPort M}
    (img : image) (model model' : M) (raw : ndarray float32) :
  predict model img = (model', Ok raw) ->
  Numpy.min raw = Ok zero -> Numpy.max raw = Ok one ->
  Forall (fun x => representable x = true) (data raw) ->
  estimate_depth img model = (model', Ok raw).
Proof.
  intros Hpred Hmin Hmax Hrep.
  rewrite (estimate_depth_division img model model' raw Hpred zero one Hmin Hmax)
    by (vm_compute; reflexivity).
  rewrite unit_map_fixed by assumption. reflexivity.
Qed.

(** X7. Normalising twice is normalising once: the result for a raster
    with a finite minimum and maximum at most [FLT_MAX] apart, handed to
    [estimate_depth] again as a raster, comes back unchanged. *)
Theorem estimate_depth_idempotent {M M2} `{DepthModelPort M} `{DepthModelPort M2}
    (img img2 : image) (model model' : M) (model2 model2' : M2)
    (raw : ndarray float32) (lo hi : Z) :
  predict model img = (model', Ok raw) ->
  Numpy.min raw = Ok (Fin lo) -> Numpy.max raw = Ok (Fin hi) ->
  (lo < hi)%Z -> (hi - lo <= max_float)%Z ->
  exists out,
    estimate_depth img model = (model', Ok out) /\
    (predict model2 img2 = (model2', Ok out) ->
     estimate_depth img2 model2 = (model2', Ok out)).
Proof.
  intros Hpred Hmin Hmax Hlt Hle.
  destruct (spread_finite lo hi Hlt Hle) as [b Hb].
  destruct (estimate_depth_unit_interval img model model' raw Hpred
              lo hi b Hmin Hmax Hlt Hb) as (out & Hest & _ & Hitem & Hunit).
  destruct (estimate_depth_order_preserving img model model' raw Hpred
              lo hi b Hmin Hmax Hlt Hb) as (out' & Hest' & _ & _ & _ & Hzero & Hone).
  rewrite Hest in Hest'. injection Hest' as <-.
  exists out. split; [exact Hest|]. intros Hpred2.
  assert (Hbounds : Forall (fun y => exists n, y = Fin n /\ (0 <= n <= one_grid)%Z)
                      (data out)).
  { eapply Forall_impl; [|exact Hunit].
    intros y [Hy0 Hy1]. destruct (between_fin 0 one_grid y Hy0 Hy1) as (n & -> & Hn).
    eauto. }
  assert (Hmin' : Numpy.min out = Ok zero).
  { apply min_least; [|exact Hzero].
    eapply Forall_impl; [|exact Hbounds]. intros y (n & -> & Hn). exists n. split; [reflexivity|lia]. }
  assert (Hmax' : Numpy.max out = Ok one).
  { apply max_greatest; [|exact Hone].
    eapply Forall_impl; [|exact Hbounds]. intros y (n & -> & Hn). exists n. split; [reflexivity|lia]. }
  rewrite (estimate_depth_division img2 model2 model2' out Hpred2 zero one Hmin' Hmax')
    by (vm_compute; reflexivity).
  rewrite unit_map_fixed; [reflexivity|assumption|assumption|].
  rewrite (estimate_depth_finite img model model' raw Hpred lo hi Hmin Hmax Hlt) in Hest.
  injection Hest as <-. cbn [data map_array].
  apply Forall_map. apply Forall_forall. intros x _. apply div_representable.
Qed.

End DepthLaws.

(* ===================================================================== *)
(** * Offsets and powers of two *)
(* ===================================================================== *)

Module InvarianceFacts.
Import Py Float32 Float32Facts Float32Ops Float32Format Float32FormatFacts
       Numpy NumpyFacts ReductionFacts Pil Ports Depth DepthFacts Spec Fixtures.
Local Open Scope Z_scope.

(** Rounding sees the quotient only. *)
Lemma rne_ratio a d t : 0 < d -> 0 < t -> rne (a * t) (d * t) = rne a d.
Proof.
  intros Hd Ht. assert (0 < d * t) by nia.
  apply Z.le_antisymm; apply rne_mono; try assumption; nia.
Qed.

Lemma ulp_exp_ratio a d t : 0 < d -> 0 < t -> ulp_exp (a * t) (d * t) = ulp_exp a d.
Proof.
  intros Hd Ht. unfold ulp_exp.
  rewrite Z.abs_mul, (Z.abs_eq t), Z.div_mul_cancel_r by lia. reflexivity.
Qed.

Lemma round_grid_ratio a d t :
  0 < d -> 0 < t -> round_grid (a * t) (d * t) = round_grid a d.
Proof.
  intros Hd Ht. unfold round_grid. rewrite ulp_exp_ratio by assumption.
  pose proof (ulp_exp_nonneg a d).
  assert (0 < 2 ^ ulp_exp a d) by (apply Z.pow_pos_nonneg; lia).
  replace (d * t * 2 ^ ulp_exp a d) with (d * 2 ^ ulp_exp a d * t) by ring.
  rewrite rne_ratio by nia. reflexivity.
Qed.

(** Rounding commutes with a multiplication by a power of two. *)
Lemma round_grid_pow2 a j :
  0 <= j -> round_grid (a * 2 ^ j) 1 = round_grid a 1 * 2 ^ j.
Proof.
  intros Hj. assert (P : 0 < 2 ^ j) by (apply Z.pow_pos_nonneg; lia).
  destruct (Z_lt_le_dec (Z.abs a) (2 ^ 24)) as [Hsmall|Hbig].
  - pose proof (round_grid_exact a j 1 ltac:(lia) Hj Hsmall) as E1.
    pose proof (round_grid_exact a 0 1 ltac:(lia) ltac:(lia) Hsmall) as E0.
    rewrite Z.mul_1_r in E1. rewrite Z.pow_0_r, !Z.mul_1_r in E0.
    rewrite E1, E0. reflexivity.
  - assert (Hpos : 0 < Z.abs a) by (assert (0 < 2 ^ 24) by reflexivity; lia).
    assert (Hlog : 24 <= Z.log2 (Z.abs a)).
    { apply Z.log2_le_pow2; [assumption|]. exact Hbig. }
    assert (Hk : ulp_exp a 1 = Z.log2 (Z.abs a) - 23)
      by (unfold ulp_exp; rewrite Z.div_1_r; lia).
    assert (Hk' : ulp_exp (a * 2 ^ j) 1 = ulp_exp a 1 + j).
    { unfold ulp_exp. rewrite !Z.div_1_r, Z.abs_mul, (Z.abs_eq (2 ^ j)) by lia.
      rewrite Z.log2_mul_pow2 by lia. lia. }
    unfold round_grid. rewrite Hk'.
    pose proof (ulp_exp_nonneg a 1).
    rewrite Z.pow_add_r by lia. rewrite !Z.mul_1_l.
    rewrite rne_ratio by (try apply Z.pow_pos_nonneg; lia).
    ring.
Qed.

(** The extrema of a raster whose numbers are moved by a monotone map. *)
Lemma mapped_extrema (f : float32 -> float32) (g : Z -> Z) raw lo hi :
  (forall n, f (Fin n) = Fin (g n)) ->
  (forall a b, a <= b -> g a <= g b) ->
  Numpy.min raw = Ok (Fin lo) -> Numpy.max raw = Ok (Fin hi) ->
  Numpy.min (map_array f raw) = Ok (Fin (g lo)) /\
  Numpy.max (map_array f raw) = Ok (Fin (g hi)).
Proof.
  intros Hf Hg Hmin Hmax.
  pose proof (finite_extrema raw lo hi Hmin Hmax) as Hfin.
  pose proof (reduce_In minimum minimum_cases _ _ _ Hmin) as Ilo.
  pose proof (reduce_In maximum maximum_cases _ _ _ Hmax) as Ihi.
  split.
  - apply min_least; cbn [data map_array].
    + apply Forall_map. eapply Forall_impl; [|exact Hfin].
      intros y (n & -> & Hn). exists (g n). split; [apply Hf|apply Hg; lia].
    + rewrite <- Hf. apply in_map. exact Ilo.
  - apply max_greatest; cbn [data map_array].
    + apply Forall_map. eapply Forall_impl; [|exact Hfin].
      intros y (n & -> & Hn). exists (g n). split; [apply Hf|apply Hg; lia].
    + rewrite <- Hf. apply in_map. exact Ihi.
Qed.

(** The [float32] product with [2^j] is exact as long as it does not
    overflow. *)
Lemma scaled_exact j n :
  0 <= j -> is_float32 n = true -> Z.abs (n * 2 ^ j) <= max_float ->
  scaled j (Fin n) = Fin (n * 2 ^ j).
Proof.
  intros Hj Hn Hmax. pose proof one_grid_pos as HG.
  unfold scaled, pow2. cbn [mul]. unfold round32.
  replace (n * (2 ^ j * one_grid)) with (n * 2 ^ j * one_grid) by ring.
  rewrite <- (Z.mul_1_l one_grid) at 2.
  rewrite round_grid_ratio by lia.
  rewrite round_grid_pow2 by assumption.
  pose proof (round_grid_id n 1 ltac:(lia) Hn) as E. rewrite Z.mul_1_r in E.
  rewrite E. apply overflow_fin.
  assert (max_float < overflow_grid) by reflexivity. lia.
Qed.

Section TwoModels.
Context {M M2 : Type} `{DepthModelPort M} `{DepthModelPort M2}.
Variables (img img2 : image) (model model' : M) (model2 model2' : M2).
Variables (raw : ndarray float32) (lo hi : Z).
Hypothesis predicted : predict model img = (model', Ok raw).
Hypothesis raster_min : Numpy.min raw = Ok (Fin lo).
Hypothesis raster_max : Numpy.max raw = Ok (Fin hi).

(** X8. A constant offset does not show in the result: a raster with a
    finite minimum and maximum and the raster with [t] added to every
    element are normalised to the same map. *)
Theorem offset_invariance (t : Z) :
  predict model2 img2 = (model2', Ok (map_array (shifted t) raw)) ->
  snd (estimate_depth img2 model2) = snd (estimate_depth img model).
Proof.
  intros Hpred2.
  destruct (mapped_extrema (shifted t) (fun n => n + t) raw lo hi
              ltac:(intros; reflexivity) ltac:(cbv beta; intros; lia) raster_min raster_max)
    as [Hmin2 Hmax2].
  cbv beta in Hmin2, Hmax2.
  pose proof (finite_extrema raw lo hi raster_min raster_max) as Hfin.
  destruct (Z.eqb lo hi) eqn:Heq.
  - rewrite (estimate_depth_degenerate img model model' raw predicted _ _
               raster_min raster_max Heq).
    rewrite (estimate_depth_degenerate img2 model2 model2' _ Hpred2 _ _ Hmin2 Hmax2)
      by (cbn [eqb]; apply Z.eqb_eq; apply Z.eqb_eq in Heq; lia).
    reflexivity.
  - rewrite (estimate_depth_division img model model' raw predicted _ _
               raster_min raster_max Heq).
    rewrite (estimate_depth_division img2 model2 model2' _ Hpred2 _ _ Hmin2 Hmax2)
      by (cbn [eqb]; apply Z.eqb_neq; apply Z.eqb_neq in Heq; lia).
    cbn [snd]. f_equal. unfold map_array. cbn [shape data]. f_equal.
    rewrite map_map. apply map_ext_in. intros x Hx.
    rewrite Forall_forall in Hfin. destruct (Hfin x Hx) as (n & -> & Hn).
    cbn [shifted sub].
    replace (n + t - (lo + t)) with (n - lo) by lia.
    replace (hi + t - (lo + t)) with (hi - lo) by lia.
    reflexivity.
Qed.

(** X9. Neither does a factor that is a power of two: for a raster of
    [float32] numbers with a finite minimum and maximum and a [j] between
    0 and 127, when no product with [2^j] overflows and the scaled spread
    stays within [FLT_MAX], the raster and the raster with every element
    multiplied by [2^j] in [float32] are normalised to the same map. *)
Theorem power_of_two_invariance (j : Z) :
  0 <= j <= 127 ->
  Forall (fun x => representable x = true) (data raw) ->
  - max_float <= lo * 2 ^ j -> hi * 2 ^ j <= max_float ->
  (hi - lo) * 2 ^ j <= max_float ->
  predict model2 img2 = (model2', Ok (map_array (scaled j) raw)) ->
  snd (estimate_depth img2 model2) = snd (estimate_depth img model).
Proof.
  intros [Hj Hj'] Hrep Hlow Hhigh Hle Hpred2.
  assert (P : 1 <= 2 ^ j) by (pose proof (Z.pow_pos_nonneg 2 j); lia).
  pose proof (finite_extrema raw lo hi raster_min raster_max) as Hfin.
  set (f := fun x : float32 => match x with Fin n => Fin (n * 2 ^ j) | _ => x end).
  assert (Hmap : map_array (scaled j) raw = map_array f raw).
  { unfold map_array. f_equal. apply map_ext_in. intros x Hx.
    rewrite Forall_forall in Hfin, Hrep.
    destruct (Hfin x Hx) as (n & -> & Hn). specialize (Hrep _ Hx).
    cbn [representable] in Hrep. unfold f.
    apply scaled_exact; [assumption|assumption|].
    apply Z.abs_le. nia. }
  rewrite Hmap in Hpred2.
  destruct (mapped_extrema f (fun n => n * 2 ^ j) raw lo hi
              ltac:(intros; reflexivity) ltac:(cbv beta; intros; nia) raster_min raster_max)
    as [Hmin2 Hmax2].
  cbv beta in Hmin2, Hmax2.
  destruct (Z.eqb lo hi) eqn:Heq.
  - rewrite (estimate_depth_degenerate img model model' raw predicted _ _
               raster_min raster_max Heq).
    rewrite (estimate_depth_degenerate img2 model2 model2' _ Hpred2 _ _ Hmin2 Hmax2)
      by (cbn [eqb]; apply Z.eqb_eq; apply Z.eqb_eq in Heq; subst; reflexivity).
    reflexivity.
  - apply Z.eqb_neq in Heq.
    assert (Hlt : lo < hi).
    { pose proof (reduce_In minimum minimum_cases _ _ _ raster_min) as Ilo.
      rewrite Forall_forall in Hfin. destruct (Hfin _ Ilo) as (n & [= <-] & Hn). lia. }
    assert (Hlt2 : lo * 2 ^ j < hi * 2 ^ j) by nia.
    destruct (spread_finite lo hi Hlt ltac:(nia)) as [b Hb].
    destruct (spread_finite (lo * 2 ^ j) (hi * 2 ^ j) Hlt2 ltac:(nia)) as [b2 Hb2].
    destruct (spread_value lo hi b Hb) as [Eb _].
    destruct (spread_value _ _ b2 Hb2) as [Eb2 _].
    assert (Hb2' : b2 = b * 2 ^ j).
    { rewrite Eb2, Eb, <- round_grid_pow2 by assumption. f_equal. ring. }
    pose proof (spread_pos lo hi b Hlt Hb) as Hbpos.
    rewrite (estimate_depth_division img model model' raw predicted _ _
               raster_min raster_max) by (cbn [eqb]; apply Z.eqb_neq; lia).
    rewrite (estimate_depth_division img2 model2 model2' _ Hpred2 _ _ Hmin2 Hmax2)
      by (cbn [eqb]; apply Z.eqb_neq; lia).
    cbn [snd]. f_equal. unfold map_array. cbn [shape data]. f_equal.
    rewrite map_map. apply map_ext_in. intros x Hx.
    rewrite Forall_forall in Hfin. destruct (Hfin x Hx) as (n & -> & Hn).
    unfold f.
    destruct (normalise_value lo hi b Hlt Hb n Hn) as [-> _].
    destruct (normalise_value _ _ b2 Hlt2 Hb2 (n * 2 ^ j) ltac:(nia)) as [-> _].
    f_equal. rewrite Hb2'.
    replace (n * 2 ^ j - lo * 2 ^ j) with ((n - lo) * 2 ^ j) by ring.
    rewrite round_grid_pow2 by assumption.
    replace (round_grid (n - lo) 1 * 2 ^ j * one_grid)
      with (round_grid (n - lo) 1 * one_grid * 2 ^ j) by ring.
    apply round_grid_ratio; lia.
Qed.

End TwoModels.

End InvarianceFacts.

(* ===================================================================== *)
(** * Further properties of the image codec *)
(* ===================================================================== *)

Module ImageUtilsLaws.
Import Py Float32 Float32Facts Float32Ops Float32Format Float32FormatFacts
       Numpy NumpyFacts ReductionFacts Pil Ports Depth DepthFacts
       ImageUtils ImageUtilsFacts Spec Tables Fixtures.
Local Open Scope Z_scope.




Lemma byte_table p : 0 <= p <= 255 -> pixel_grid (recovered_grid p) = p.
Proof.
  intros Hp.
  assert (T : forallb (fun p => pixel_grid (recovered_grid p) =? p)
                      (map Z.of_nat (seq 0 256)) = true)
    by (vm_compute; reflexivity).
  rewrite forallb_forall in T. apply Z.eqb_eq. apply T.
  rewrite <- (Z2Nat.id p) by lia. apply in_map, in_seq. lia.
Qed.

(** X11. Bytes survive the other round trip: a byte divided by 255 in
    [float32], as the test decodes a depth image, is stored as that byte
    again. *)
Theorem byte_roundtrip `{Platform} (u : ndarray Z) :
  Forall (fun p => 0 <= p <= 255) (data u) ->
  depth_to_uint8 (map_array recovered32 u) = u.
Proof.
  intros Hbytes. destruct u as [sh d].
  unfold depth_to_uint8, astype_uint8, clip, multiply, map_array.
  cbn [shape data] in *. f_equal. rewrite !map_map.
  rewrite <- (map_id d) at 2. apply map_ext_in. intros p Hp.
  rewrite Forall_forall in Hbytes. specialize (Hbytes p Hp).
  apply clip_then_truncate. fold (depth_pixel (recovered32 p)).
  destruct (recovered32_fin p Hbytes) as [-> _].
  rewrite depth_pixel_fin. fold (pixel_grid (recovered_grid p)).
  rewrite byte_table by assumption. reflexivity.
Qed.

(** X12. A depth PNG is an upload like any other: PNG being lossless,
    for a 2-D array with at least one element [depth_to_png] returns a
    PNG of which [decode_upload] makes the RGB image of the same
    dimensions whose three bands all equal the stored byte. *)
Theorem depth_png_decodes_to_grey_rgb `{Platform} `{Codec} (a : ndarray float32)
    (rows columns : nat) :
  lossless ->
  shape a = [rows; columns] -> (0 < rows)%nat -> (0 < columns)%nat ->
  well_formed a ->
  exists png,
    depth_to_png a = Ok png /\
    decode_upload png
    = Ok {| im_mode := RGB;
            im_size := (columns, rows);
            im_data := map (fun p => [p; p; p]) (data (depth_to_uint8 a)) |}.
Proof.
  intros Hlossless E Hr Hc Hwf.
  pose proof (depth_to_png_2d a rows columns E Hr Hc) as Hpng.
  pose proof (depth_raster_greyscale a rows columns E Hr Hc Hwf) as Hgrey.
  set (img := {| im_mode := L; im_size := (columns, rows);
                 im_data := map (fun v => [v]) (data (depth_to_uint8 a)) |}) in *.
  assert (Hsave : save_PNG img = Ok (encode_PNG img)).
  { unfold save_PNG. cbn [img im_size fst snd].
    destruct columns; [lia|]. destruct rows; [lia|]. reflexivity. }
  exists (encode_PNG img). split; [exact Hpng|].
  rewrite (decode_upload_readable _ img (Hlossless img _ Hgrey Hsave)).
  unfold convert_RGB. cbn [img im_mode im_size im_data].
  rewrite map_map. reflexivity.
Qed.

Lemma to_uint8_zero `{Platform} :
  to_uint8 (minimum (of_Z 255) (maximum (mul zero (of_Z 255)) (of_Z 0))) = 0.
Proof. apply clip_then_truncate. vm_compute. reflexivity. Qed.

Lemma to_uint8_one `{Platform} :
  to_uint8 (minimum (of_Z 255) (maximum (mul one (of_Z 255)) (of_Z 0))) = 255.
Proof. apply clip_then_truncate. vm_compute. reflexivity. Qed.

Lemma depth_to_uint8_data `{Platform} a :
  data (depth_to_uint8 a)
  = map (fun v => to_uint8 (minimum (of_Z 255) (maximum (mul v (of_Z 255)) (of_Z 0))))
        (data a).
Proof.
  unfold depth_to_uint8, astype_uint8, clip, multiply, map_array.
  cbn [data]. rewrite !map_map. reflexivity.
Qed.

Section AnyModel.
Context {M : Type} `{DepthModelPort M} `{Platform}.
Variables (img : image) (model model' : M) (raw : ndarray float32).
Hypothesis predicted : predict model img = (model', Ok raw).

(** X13. The depth image of a raster that is not constant uses the whole
    range: with a finite minimum and maximum at most [FLT_MAX] apart, the
    bytes handed to the PNG encoder include 0 and 255. *)
Theorem depth_image_full_range lo hi :
  Numpy.min raw = Ok (Fin lo) -> Numpy.max raw = Ok (Fin hi) ->
  lo < hi -> hi - lo <= max_float ->
  exists out,
    estimate_depth img model = (model', Ok out) /\
    In 0 (data (depth_to_uint8 out)) /\
    In 255 (data (depth_to_uint8 out)).
Proof.
  intros Hmin Hmax Hlt Hle. destruct (spread_finite lo hi Hlt Hle) as [b Hb].
  destruct (estimate_depth_order_preserving img model model' raw predicted
              lo hi b Hmin Hmax Hlt Hb) as (out & Hest & _ & _ & _ & Hzero & Hone).
  exists out. split; [exact Hest|]. rewrite depth_to_uint8_data. split.
  - pose proof (in_map (fun v => to_uint8 (minimum (of_Z 255)
                          (maximum (mul v (of_Z 255)) (of_Z 0)))) _ _ Hzero) as Hin.
    cbv beta in Hin. rewrite to_uint8_zero in Hin. exact Hin.
  - pose proof (in_map (fun v => to_uint8 (minimum (of_Z 255)
                          (maximum (mul v (of_Z 255)) (of_Z 0)))) _ _ Hone) as Hin.
    cbv beta in Hin. rewrite to_uint8_one in Hin. exact Hin.
Qed.

(** X14. The depth image of a constant raster is black: when all
    elements are equal, every byte handed to the PNG encoder is 0. *)
Theorem constant_raster_black_image :
  data raw <> [] ->
  (forall x y, In x (data raw) -> In y (data raw) -> eqb x y = true) ->
  exists out,
    estimate_depth img model = (model', Ok out) /\
    shape (depth_to_uint8 out) = shape raw /\
    Forall (fun p => p = 0) (data (depth_to_uint8 out)).
Proof.
  intros Hne Hconst.
  destruct (reduce_nonempty minimum "minimum" raw Hne) as [lo Hmin].
  destruct (reduce_nonempty maximum "maximum" raw Hne) as [hi Hmax].
  assert (Heq : eqb lo hi = true).
  { apply Hconst.
    - eapply reduce_In; [exact minimum_cases|exact Hmin].
    - eapply reduce_In; [exact maximum_cases|exact Hmax]. }
  exists (zeros_like raw). split; [|split; [reflexivity|]].
  - apply (estimate_depth_degenerate img model model' raw predicted lo hi); assumption.
  - rewrite depth_to_uint8_data. apply Forall_map. cbn [zeros_like data].
    apply Forall_forall. intros z Hz. apply repeat_spec in Hz. subst z.
    apply to_uint8_zero.
Qed.

End AnyModel.

End ImageUtilsLaws.

(* ===================================================================== *)
(** * Further properties of the adapter *)
(* ===================================================================== *)

Module AdapterLaws.
Import Py Float32 Numpy Pil Ports DepthAnything DepthAnythingFacts Spec Fixtures Scenarios.

(** A model is never stored without its processor and its device. *)
Lemma load_keeps_components `{Torch} self log :
  (_model self <> None ->
   _processor self <> None /\ _device self = Some _detect_device) ->
  _model (fst (fst (_load self log))) <> None ->
  _processor (fst (fst (_load self log))) <> None /\
  _device (fst (fst (_load self log))) = Some _detect_device.
Proof.
  intros Inv. unfold _load. destruct (_model self) as [m|] eqn:Hm.
  - cbn [fst]. rewrite Hm. exact Inv.
  - destruct (processor_from_pretrained _ _) as [p|e]; cbn [fst _model _processor _device];
      [|congruence].
    destruct (network_from_pretrained _ _) as [m|e]; cbn [fst _model _processor _device];
      [|congruence].
    destruct (network_to _ _) as [m'|e]; cbn [fst _model _processor _device];
      intros _; split; (discriminate || reflexivity).
Qed.

Lemma predict_state `{Torch} self log img :
  fst (fst (predict_adapter self log img)) = fst (fst (_load self log)).
Proof.
  unfold predict_adapter. destruct (_load self log) as [[self' log'] [[]|e]]; cbn [fst];
    [|reflexivity].
  destruct (_processor self'), (_model self'); reflexivity.
Qed.

Lemma predictions_keep_components `{Torch} imgs : forall self log,
  (_model self <> None ->
   _processor self <> None /\ _device self = Some _detect_device) ->
  _model (fst (predictions self log imgs)) <> None ->
  _processor (fst (predictions self log imgs)) <> None /\
  _device (fst (predictions self log imgs)) = Some _detect_device.
Proof.
  induction imgs as [|img rest IH]; intros self log Inv; cbn [predictions fst].
  - exact Inv.
  - pose proof (predict_state self log img) as Hst.
    pose proof (load_keeps_components self log Inv) as Inv'.
    destruct (predict_adapter self log img) as [[self' log'] r]. cbn [fst] in Hst.
    apply IH. rewrite Hst. exact Inv'.
Qed.

(** X15. Whatever calls came before, when the load step of a prediction
    succeeds the processor, the model and the device are all set, and the
    prediction is the inference with exactly these: [predict] never calls
    a missing processor or model. *)
Theorem predict_uses_loaded_components `{Torch} (imgs : list image) (img : image)
    self log self' log' :
  predictions init [] imgs = (self, log) ->
  _load self log = (self', log', Ok tt) ->
  exists p m,
    _processor self' = Some p /\ _model self' = Some m /\
    _device self' = Some _detect_device /\
    predict_adapter self log img
    = (self', log' ++ [ForwardPass], infer p m (Some _detect_device) img).
Proof.
  intros Hreach Hload.
  pose proof (predictions_keep_components imgs init [] ltac:(intros Habs; contradiction Habs; reflexivity))
    as Inv.
  rewrite Hreach in Inv. cbn [fst] in Inv.
  pose proof (load_keeps_components self log Inv) as Inv'.
  rewrite Hload in Inv'. cbn [fst] in Inv'.
  pose proof (load_sets_model self log self' log' Hload) as Hm.
  destruct (Inv' Hm) as [Hp Hd].
  destruct (_processor self') as [p|] eqn:Ep; [|congruence].
  destruct (_model self') as [m|] eqn:Em; [|congruence].
  exists p, m. repeat split; try assumption.
  unfold predict_adapter. rewrite Hload, Ep, Em, Hd. reflexivity.
Qed.

(** One prediction on an adapter without a model, when a fetch fails. *)
Lemma predict_fetch_fails `{Torch} self log img e :
  _model self = None ->
  processor_from_pretrained MODEL_ID cache_dir = Raise e \/
  (exists p, processor_from_pretrained MODEL_ID cache_dir = Ok p) /\
  network_from_pretrained MODEL_ID cache_dir = Raise e ->
  exists self' attempt,
    predict_adapter self log img = (self', log ++ attempt, Raise e) /\
    _model self' = None /\
    (attempt = processor_attempt \/ attempt = network_attempt).
Proof.
  intros Hm Hfail. unfold predict_adapter, _load. rewrite Hm.
  fold cache_dir. destruct Hfail as [Hp|[[p Hp] Hn]]; rewrite Hp.
  - eexists _, _. split; [reflexivity|]. split; [reflexivity|left; reflexivity].
  - cbn [_model _processor _device]. rewrite Hn.
    eexists _, _. split; [rewrite <- app_assoc; reflexivity|].
    split; [reflexivity|right; reflexivity].
Qed.

(** X16. A load that fails at a fetch is not remembered: the prediction
    raises the fetch's exception, the model stays unset, and every later
    prediction asks for the processor again; none runs a forward pass. *)
Theorem failed_fetch_is_retried `{Torch} (e : exn) (imgs : list image) self log :
  _model self = None ->
  processor_from_pretrained MODEL_ID cache_dir = Raise e \/
  (exists p, processor_from_pretrained MODEL_ID cache_dir = Ok p) /\
  network_from_pretrained MODEL_ID cache_dir = Raise e ->
  (forall img, snd (predict_adapter self log img) = Raise e) /\
  exists self' attempts,
    predictions self log imgs = (self', log ++ attempts) /\
    _model self' = None /\
    count_occ Bool.bool_dec (map is_forward_pass attempts) true = 0%nat /\
    List.length (filter (fun ev => match ev with ProcessorRequested _ _ => true | _ => false end)
                        attempts) = List.length imgs.
Proof.
  intros Hm Hfail. split.
  - intros img. destruct (predict_fetch_fails self log img e Hm Hfail)
      as (self' & attempt & -> & _). reflexivity.
  - revert self log Hm. induction imgs as [|img rest IH]; intros self log Hm.
    + exists self, []. rewrite app_nil_r. repeat split. exact Hm.
    + destruct (predict_fetch_fails self log img e Hm Hfail)
        as (self1 & attempt & Hpred & Hm1 & Hattempt).
      destruct (IH self1 (log ++ attempt) Hm1)
        as (self' & attempts & Hrest & Hm' & Hnone & Hcount).
      exists self', (attempt ++ attempts).
      cbn [predictions]. rewrite Hpred, Hrest, <- app_assoc.
      split; [reflexivity|]. split; [exact Hm'|].
      rewrite map_app, count_occ_app, filter_app, length_app, Hnone, Hcount.
      destruct Hattempt as [-> | ->]; split; reflexivity.
Qed.

(** X17. A network that could not be moved to the device stays: the
    first prediction raises what [.to()] raised, but the network is
    stored, so no later call loads again and every later prediction runs
    the network as fetched, neither moved nor put in evaluation mode. *)
Theorem failed_move_keeps_fetched_network `{Torch} p m e log img :
  processor_from_pretrained MODEL_ID cache_dir = Ok p ->
  network_from_pretrained MODEL_ID cache_dir = Ok m ->
  network_to m _detect_device = Raise e ->
  exists self1 log1,
    predict_adapter init log img = (self1, log1, Raise e) /\
    _model self1 = Some m /\
    (forall log2, _load self1 log2 = (self1, log2, Ok tt)) /\
    (forall log2 img2,
       predict_adapter self1 log2 img2
       = (self1, log2 ++ [ForwardPass], infer p m (Some _detect_device) img2)).
Proof.
  intros Hp Hn Hto.
  exists {| _processor := Some p; _model := Some m; _device := Some _detect_device |}.
  eexists. split; [|split; [reflexivity|split]].
  - unfold predict_adapter, _load. cbn [init _model _processor _device].
    fold cache_dir. rewrite Hp. cbn [_model _processor _device]. rewrite Hn.
    cbn [_model _processor _device]. rewrite Hto. reflexivity.
  - intros log2. reflexivity.
  - intros log2 img2. reflexivity.
Qed.

Lemma load_events_expected `{Torch} self log :
  Forall expected_event log ->
  Forall expected_event (snd (fst (_load self log))).
Proof.
  intros Hlog. unfold _load. destruct (_model self); [exact Hlog|].
  fold cache_dir.
  assert (H1 : Forall expected_event
                 (log ++ [LoggedLoading MODEL_ID _detect_device;
                          ProcessorRequested MODEL_ID cache_dir])).
  { apply Forall_app. split; [exact Hlog|].
    repeat constructor. }
  destruct (processor_from_pretrained _ _); cbn [fst snd]; [|exact H1].
  assert (H2 : Forall expected_event
                 ((log ++ [LoggedLoading MODEL_ID _detect_device;
                           ProcessorRequested MODEL_ID cache_dir])
                  ++ [NetworkRequested MODEL_ID cache_dir])).
  { apply Forall_app. split; [exact H1|]. repeat constructor. }
  destruct (network_from_pretrained _ _); cbn [fst snd]; [|exact H2].
  assert (H3 : Forall expected_event
                 (((log ++ [LoggedLoading MODEL_ID _detect_device;
                            ProcessorRequested MODEL_ID cache_dir])
                   ++ [NetworkRequested MODEL_ID cache_dir])
                  ++ [NetworkMoved _detect_device])).
  { apply Forall_app. split; [exact H2|]. repeat constructor. }
  destruct (network_to _ _); exact H3.
Qed.

Lemma predict_events_expected `{Torch} self log img :
  Forall expected_event log ->
  Forall expected_event (snd (fst (predict_adapter self log img))).
Proof.
  intros Hlog. pose proof (load_events_expected self log Hlog) as Hload.
  unfold predict_adapter.
  destruct (_load self log) as [[self' log'] [[]|e]]; cbn [fst snd] in *;
    [|exact Hload].
  destruct (_processor self'), (_model self'); cbn [fst snd]; try exact Hload.
  apply Forall_app. split; [exact Hload|repeat constructor].
Qed.

(** X18. All that the adapter does outside goes to one place: in every
    sequence of predictions, each fetch names [MODEL_ID] and the one cache
    directory ([HF_HOME] when it is set, the [models] directory two levels
    above the module otherwise), and the device logged and moved to is the
    detected one. *)
Theorem calls_use_one_model_and_cache `{Torch} (imgs : list image) self log :
  predictions init [] imgs = (self, log) ->
  Forall expected_event log /\
  cache_dir = match HF_HOME with
              | Some d => d
              | None => (module_dir ++ "/../../models")%string
              end.
Proof.
  intros Hreach. split; [|reflexivity].
  assert (G : forall imgs self0 log0,
             Forall expected_event log0 ->
             Forall expected_event (snd (predictions self0 log0 imgs))).
  { clear. intros imgs. induction imgs as [|img rest IH]; intros self0 log0 Hlog;
      cbn [predictions]; [exact Hlog|].
    pose proof (predict_events_expected self0 log0 img Hlog) as Hstep.
    destruct (predict_adapter self0 log0 img) as [[self1 log1] r].
    apply IH. exact Hstep. }
  specialize (G imgs init [] (Forall_nil _)). rewrite Hreach in G. exact G.
Qed.

End AdapterLaws.

(* ===================================================================== *)
(** * Further properties of the HTTP adapter *)
(* ===================================================================== *)

Module AppLaws.
Import Py Float32 Numpy NumpyFacts Pil Ports Depth DepthFacts ImageUtils ImageUtilsFacts
       DepthAnything DepthAnythingFacts App AppFacts Spec Fixtures Scenarios.

(** Whatever the route answers, the model object it leaves is the one
    [estimate_depth] left, or the one it found when the upload was not
    decoded. *)
Lemma depth_model {M} `{DepthModelPort M} `{Platform} `{Codec} file (model : M) :
  fst (depth file model)
  = match decode_upload file with
    | Ok img => fst (estimate_depth img model)
    | Raise _ => model
    end.
Proof.
  unfold depth. destruct (decode_upload file) as [img|[msg|msg|c msg]];
    try reflexivity.
  destruct (estimate_depth img model) as [m [depth_map|e]]; [|reflexivity].
  destruct (depth_to_png depth_map); [|reflexivity].
  destruct (getitem (shape depth_map) 1), (getitem (shape depth_map) 0); reflexivity.
Qed.

(** X19. The dimension headers describe the body: whenever the route
    returns a response, it is a 200 whose body is the PNG of a
    single-band image and whose [X-Depth-Width] and [X-Depth-Height] are
    that image's width and height. *)
Theorem headers_describe_body {M} `{DepthModelPort M} `{Platform} `{Codec}
    (file : bytes) (model model' : M) (r : response) :
  depth file model = (model', Returned r) ->
  exists img png,
    status_code r = 200%nat /\
    media_type r = "image/png"%string /\
    save_PNG img = Ok png /\
    content r = Bytes png /\
    im_mode img = L /\
    headers r = [("X-Depth-Width"%string, str_int (fst (im_size img)));
                 ("X-Depth-Height"%string, str_int (snd (im_size img)))].
Proof.
  unfold depth. destruct (decode_upload file) as [img|[msg|msg|c msg]];
    try discriminate.
  destruct (estimate_depth img model) as [m [depth_map|e]]; [|discriminate].
  unfold depth_to_png, fromarray_L.
  change (shape (depth_to_uint8 depth_map)) with (shape depth_map).
  destruct (shape depth_map) as [|n [|c [|d rest]]]; cbn [bind]; try discriminate.
  - destruct (save_PNG _); discriminate.
  - destruct (save_PNG _) as [png|e] eqn:Hsave; [|discriminate].
    cbn [getitem nth_error]. intros [= _ <-].
    eexists _, png. split; [reflexivity|]. split; [reflexivity|].
    split; [exact Hsave|]. repeat split.
Qed.

Lemma depth_undecodable {M} `{DepthModelPort M} `{Platform} `{Codec} file (model : M) :
  decodable file = false -> fst (depth file model) = model.
Proof.
  unfold decodable. rewrite depth_model.
  destruct (decode_upload file); [discriminate|reflexivity].
Qed.

Lemma depth_unreadable {M} `{DepthModelPort M} `{Platform} `{Codec} file (model : M) :
  readable file = false ->
  depth file model = (model, HTTPException 400 "Invalid image data"%string).
Proof.
  unfold readable. destruct (bind (Image_open file) load) as [img|e] eqn:Hdec;
    [discriminate|].
  intros _. exact (depth_invalid file model e Hdec).
Qed.

(** X20. Uploads that are not decoded never reach the model: a run of
    them leaves the model object as it was, for a fresh adapter without a
    single load; and each of those that cannot be opened and loaded is
    answered with the 400. *)
Theorem undecodable_uploads_skip_model {M} `{DepthModelPort M} `{Platform} `{Codec}
    (uploads : list bytes) (model : M) :
  Forall (fun file => decodable file = false) uploads ->
  fst (serve uploads model) = model /\
  (Forall (fun file => readable file = false) uploads ->
   serve uploads model
   = (model, repeat invalid_image_response (List.length uploads))).
Proof.
  induction 1 as [|file rest Hfile _ [IHmodel IH]]; cbn [serve];
    [split; reflexivity|].
  pose proof (depth_undecodable file model Hfile) as Hstep.
  destruct (depth file model) as [m o] eqn:Hdepth. cbn [fst] in Hstep. subst m.
  destruct (serve rest model) as [m rs]. cbn [fst] in IHmodel. subst m.
  split; [reflexivity|].
  intros Hall. inversion Hall as [|? ? Hbad Hrest]; subst.
  rewrite (depth_unreadable file model Hbad) in Hdepth. injection Hdepth as <-.
  specialize (IH Hrest). injection IH as ->. reflexivity.
Qed.

Lemma depth_loaded `{Torch} `{Platform} `{Codec} file self log p m :
  _processor self = Some p -> _model self = Some m ->
  fst (depth file (self, log))
  = (self, log ++ (if decodable file then [ForwardPass] else [])).
Proof.
  intros Hp Hm. rewrite depth_model. unfold decodable.
  destruct (decode_upload file) as [img|e] eqn:Hdec.
  - unfold estimate_depth.
    change (predict (self, log) img)
      with (let '(self', log', r) := predict_adapter self log img in ((self', log'), r)).
    unfold predict_adapter. rewrite load_loaded by congruence.
    rewrite Hp, Hm. reflexivity.
  - rewrite app_nil_r. reflexivity.
Qed.

(** X21. The one adapter of the process serves every request with the
    model it has: once loaded, a sequence of uploads leaves its processor,
    model and device untouched and adds one forward pass for each upload
    that decodes, nothing else; each upload gets one response. *)
Theorem one_forward_pass_per_decodable_upload `{Torch} `{Platform} `{Codec}
    (uploads : list bytes) self log p m :
  _processor self = Some p -> _model self = Some m ->
  fst (serve uploads (self, log))
  = (self, log ++ repeat ForwardPass (List.length (filter decodable uploads))) /\
  List.length (snd (serve uploads (self, log))) = List.length uploads.
Proof.
  intros Hp Hm. revert log.
  induction uploads as [|file rest IH]; intros log; cbn [serve filter].
  - rewrite app_nil_r. split; reflexivity.
  - pose proof (depth_loaded file self log p m Hp Hm) as Hstep.
    destruct (depth file (self, log)) as [st o]. cbn [fst] in Hstep. subst st.
    destruct (IH (log ++ (if decodable file then [ForwardPass] else []))) as [IHst IHlen].
    destruct (serve rest _) as [st rs]. cbn [fst snd] in *. subst st.
    split; [|cbn [List.length]; rewrite IHlen; reflexivity].
    destruct (decodable file); cbn [List.length repeat].
    + rewrite <- app_assoc. reflexivity.
    + rewrite app_nil_r. reflexivity.
Qed.

End AppLaws.

(* ===================================================================== *)
(** * The models of the test suite *)
(* ===================================================================== *)

Module TestDoubleLaws.
Import Py Float32 Float32Facts Float32Ops Float32Format Float32FormatFacts
       Numpy NumpyFacts ReductionFacts Pil Ports Depth DepthFacts DepthLaws Spec Fixtures.
Local Open Scope Z_scope.

(** The quotient of two whole numbers, the first at most the second. *)
Lemma div_of_Z k d :
  0 <= k <= d -> 1 <= d ->
  exists r, div (of_Z k) (of_Z d) = Fin r /\ 0 <= r <= one_grid /\
            (k = 0 -> r = 0) /\ (k = d -> r = one_grid).
Proof.
  intros Hk Hd. pose proof one_grid_pos as HG. pose proof one_grid_lt_overflow as HO.
  unfold of_Z. cbn [div].
  destruct (Z.eqb_spec (d * one_grid) 0) as [|_]; [nia|].
  replace (Z.sgn (d * one_grid)) with 1 by nia.
  rewrite Z.abs_eq, Z.mul_1_r by nia.
  set (a := k * one_grid * one_grid). set (D := d * one_grid).
  assert (HD : 0 < D) by (unfold D; nia).
  assert (H0 : 0 <= round_grid a D)
    by (apply round_grid_nonneg; [assumption|unfold a; nia]).
  assert (H1 : round_grid a D <= one_grid).
  { assert (Hle : a <= 1 * 2 ^ 149 * D).
    { change (1 * 2 ^ 149) with one_grid. unfold a, D.
      replace (one_grid * (d * one_grid)) with (d * one_grid * one_grid) by ring.
      apply Z.mul_le_mono_nonneg_r; [lia|]. apply Z.mul_le_mono_nonneg_r; lia. }
    pose proof (round_grid_le 1 149 a D HD ltac:(lia) eq_refl Hle) as H1.
    exact H1. }
  exists (round_grid a D). split; [unfold round32; apply overflow_fin; lia|].
  split; [lia|]. split.
  - intros ->. unfold a. rewrite !Z.mul_0_l. apply round_grid_zero. assumption.
  - intros ->. unfold a. fold D.
    replace (D * one_grid) with (1 * 2 ^ 149 * D)
      by (change (1 * 2 ^ 149) with one_grid; ring).
    exact (round_grid_exact 1 149 D HD ltac:(lia) eq_refl).
Qed.

(** [linspace] from 0 to 1 with at least two points: numbers of the format
    between 0 and 1, with both ends. *)
Lemma linspace01_spec (num : nat) :
  (2 <= num)%nat ->
  Forall (fun y => exists n, y = Fin n /\ 0 <= n <= one_grid) (linspace01 num) /\
  Forall (fun y => representable y = true) (linspace01 num) /\
  In zero (linspace01 num) /\ In one (linspace01 num).
Proof.
  intros Hnum.
  assert (E : linspace01 num
              = map (fun k => div (of_Z (Z.of_nat k)) (of_Z (Z.of_nat (num - 1))))
                    (seq 0 num)).
  { destruct num as [|[|n]]; try lia; reflexivity. }
  rewrite E. split; [|split; [|split]].
  - apply Forall_map. apply Forall_forall. intros k Hk. apply in_seq in Hk.
    destruct (div_of_Z (Z.of_nat k) (Z.of_nat (num - 1)) ltac:(lia) ltac:(lia))
      as (r & -> & Hr & _). eauto.
  - apply Forall_map. apply Forall_forall. intros k _. apply div_representable.
  - destruct (div_of_Z 0 (Z.of_nat (num - 1)) ltac:(lia) ltac:(lia))
      as (r & Hr & _ & Hz & _).
    rewrite (Hz eq_refl) in Hr. unfold zero. rewrite <- Hr.
    apply (in_map (fun k => div (of_Z (Z.of_nat k)) (of_Z (Z.of_nat (num - 1))))
                  (seq 0 num) 0%nat).
    apply in_seq. lia.
  - destruct (div_of_Z (Z.of_nat (num - 1)) (Z.of_nat (num - 1)) ltac:(lia) ltac:(lia))
      as (r & Hr & _ & _ & Ho).
    rewrite (Ho eq_refl) in Hr. unfold one. rewrite <- Hr.
    apply (in_map (fun k => div (of_Z (Z.of_nat k)) (of_Z (Z.of_nat (num - 1))))
                  (seq 0 num) (num - 1)%nat).
    apply in_seq. lia.
Qed.

Lemma in_tiled {A} (l : list A) (w : nat) x :
  (1 <= w)%nat -> In x l -> In x (flat_map (fun v => repeat v w) l).
Proof.
  intros Hw Hx. apply in_flat_map. exists x. split; [exact Hx|].
  destruct w; [lia|]. left. reflexivity.
Qed.

Lemma Forall_tiled {A} (P : A -> Prop) (l : list A) (w : nat) :
  Forall P l -> Forall P (flat_map (fun v => repeat v w) l).
Proof.
  intros Hl. apply Forall_forall. intros x Hx. apply in_flat_map in Hx.
  destruct Hx as (v & Hv & Hx). apply repeat_spec in Hx. subst x.
  rewrite Forall_forall in Hl. auto.
Qed.

(** X22. The gradient of [MockDepthModel] is a normalised map already:
    for an image at least two pixels high and one wide, [estimate_depth]
    returns the gradient itself, of shape (height, width) and with every
    value in [[0, 1]]; for an image one pixel high the gradient is the
    constant 0 and the result is all zero. *)
Theorem mock_gradient_unchanged (img : image) (w h : nat) :
  im_size img = (w, h) -> (1 <= w)%nat -> (1 <= h)%nat ->
  exists out,
    estimate_depth img mock_model = (mock_model, Ok out) /\
    shape out = [h; w] /\
    Forall in_unit_interval (data out) /\
    ((2 <= h)%nat -> data out = flat_map (fun v => repeat v w) (linspace01 h)) /\
    (h = 1%nat -> data out = repeat zero w).
Proof.
  intros Hsize Hw Hh.
  assert (Hpred : predict mock_model img
                  = (mock_model,
                     Ok {| shape := [h; w];
                           data := flat_map (fun v => repeat v w) (linspace01 h) |}))
    by (unfold predict, mock_port; rewrite Hsize; reflexivity).
  destruct (Nat.eq_dec h 1) as [->|Hne].
  - set (raw := {| shape := [1; w]%nat;
                   data := flat_map (fun v => repeat v w) (linspace01 1) |}) in *.
    assert (Hdata : data raw = repeat zero w)
      by (cbn [raw data linspace01 flat_map]; apply app_nil_r).
    assert (Hfold : forall op n, op zero zero = zero ->
                    fold_left op (repeat zero n) zero = zero).
    { intros op n Hop. induction n as [|n IH]; [reflexivity|].
      cbn [repeat fold_left]. rewrite Hop. exact IH. }
    assert (Hmin : Numpy.min raw = Ok zero).
    { unfold Numpy.min, reduce. rewrite Hdata. destruct w as [|w']; [lia|].
      cbn [repeat]. f_equal. apply Hfold. reflexivity. }
    assert (Hmax : Numpy.max raw = Ok zero).
    { unfold Numpy.max, reduce. rewrite Hdata. destruct w as [|w']; [lia|].
      cbn [repeat]. f_equal. apply Hfold. reflexivity. }
    exists (zeros_like raw).
    assert (Hz : data (zeros_like raw) = repeat zero w).
    { unfold zeros_like, size. cbn [data raw shape fold_right].
      rewrite Nat.mul_1_r, Nat.mul_1_l. reflexivity. }
    split.
    { apply (estimate_depth_degenerate img mock_model mock_model raw Hpred zero zero);
        [exact Hmin|exact Hmax|reflexivity]. }
    split; [reflexivity|]. split.
    { rewrite Hz. apply Forall_forall. intros x Hx. apply repeat_spec in Hx.
      subst x. split; reflexivity. }
    split; [lia|]. intros _. exact Hz.
  - destruct (linspace01_spec h ltac:(lia)) as (Hbounds & Hrep & Hzero & Hone).
    set (raw := {| shape := [h; w];
                   data := flat_map (fun v => repeat v w) (linspace01 h) |}) in *.
    assert (Hall : Forall (fun y => exists n, y = Fin n /\ 0 <= n <= one_grid) (data raw))
      by (apply Forall_tiled; exact Hbounds).
    assert (Hmin : Numpy.min raw = Ok zero).
    { apply min_least; [|apply in_tiled; assumption].
      eapply Forall_impl; [|exact Hall]. intros y (n & -> & Hn).
      exists n. split; [reflexivity|lia]. }
    assert (Hmax : Numpy.max raw = Ok one).
    { apply max_greatest; [|apply in_tiled; assumption].
      eapply Forall_impl; [|exact Hall]. intros y (n & -> & Hn).
      exists n. split; [reflexivity|lia]. }
    exists raw. split.
    { rewrite (estimate_depth_division img mock_model mock_model raw Hpred zero one Hmin Hmax)
        by (vm_compute; reflexivity).
      rewrite unit_map_fixed; [reflexivity|assumption|assumption|].
      apply Forall_tiled. exact Hrep. }
    split; [reflexivity|]. split.
    { eapply Forall_impl; [|exact Hall]. intros y (n & -> & Hn).
      split; apply le_fin; lia. }
    split; [reflexivity|lia].
Qed.

End TestDoubleLaws.

(* ===================================================================== *)
(** * The further properties at the inputs of the tests *)
(* ===================================================================== *)

Module LawWitnesses.
Import Py Float32 Float32Format Numpy Pil Ports Depth ImageUtils DepthAnything App
       Spec Fixtures FixtureFacts Scenarios DepthLaws InvarianceFacts ImageUtilsLaws
       AdapterLaws AppLaws TestDoubleLaws.

(** Facts about the rasters of the tests that the instances below share. *)
Lemma known_raster_min : Numpy.min known_raster = Ok (Fin (2 * one_grid)).
Proof. vm_compute. reflexivity. Qed.

Lemma known_raster_max : Numpy.max known_raster = Ok (Fin (8 * one_grid)).
Proof. vm_compute. reflexivity. Qed.

Lemma known_raster_spread : (2 * one_grid < 8 * one_grid)%Z.
Proof. vm_compute. reflexivity. Qed.

Lemma known_raster_spread_max : (8 * one_grid - 2 * one_grid <= max_float)%Z.
Proof. vm_compute. discriminate. Qed.

Lemma uniform_raster_constant x y :
  In x (data uniform_raster) -> In y (data uniform_raster) -> eqb x y = true.
Proof.
  intros Hx Hy. apply repeat_spec in Hx, Hy. subst. vm_compute. reflexivity.
Qed.

(** A NaN between 1 and 3. *)
Lemma nan_spoils_every_element_witness :
  In NaN (data nan_raster) /\
  estimate_depth rgba_2x2 (Ok nan_raster : StubModel)
  = (Ok nan_raster, Ok {| shape := [1; 3]%nat; data := [NaN; NaN; NaN] |}).
Proof.
  assert (Hnan : In NaN (data nan_raster)) by (right; left; reflexivity).
  split; [exact Hnan|].
  exact (nan_spoils_every_element rgba_2x2 (Ok nan_raster : StubModel)
           (Ok nan_raster) nan_raster eq_refl Hnan).
Defined.

(** The raster 2, 4, 6, 8 is divided by 6. *)
Lemma division_never_by_zero_witness :
  Numpy.min known_raster = Ok (of_Z 2) /\
  Numpy.max known_raster = Ok (of_Z 8) /\
  eqb (of_Z 2) (of_Z 8) = false /\
  eqb (sub (of_Z 8) (of_Z 2)) zero = false.
Proof.
  assert (Hne : eqb (of_Z 2) (of_Z 8) = false) by (vm_compute; reflexivity).
  split; [exact known_raster_min|]. split; [exact known_raster_max|].
  split; [exact Hne|].
  exact (proj2 (division_never_by_zero rgba_2x2 (Ok known_raster : StubModel)
                  (Ok known_raster) known_raster eq_refl (of_Z 2) (of_Z 8)
                  known_raster_min known_raster_max Hne)).
Defined.

Lemma finite_spread_unit_interval_witness :
  exists out,
    estimate_depth rgba_2x2 (Ok known_raster : StubModel)
    = (Ok known_raster, Ok out) /\
    shape out = [2; 2]%nat /\
    Forall in_unit_interval (data out).
Proof.
  exact (finite_spread_unit_interval rgba_2x2 (Ok known_raster : StubModel)
           (Ok known_raster) known_raster eq_refl _ _
           known_raster_min known_raster_max
           known_raster_spread known_raster_spread_max).
Defined.


(** The sample map of the tests is normalised already. *)
Lemma normalised_map_unchanged_witness :
  Numpy.min sample_depth_array = Ok zero /\
  Numpy.max sample_depth_array = Ok one /\
  estimate_depth rgba_2x2 (Ok sample_depth_array : StubModel)
  = (Ok sample_depth_array, Ok sample_depth_array).
Proof.
  assert (Hmin : Numpy.min sample_depth_array = Ok zero) by (vm_compute; reflexivity).
  assert (Hmax : Numpy.max sample_depth_array = Ok one) by (vm_compute; reflexivity).
  assert (Hb : forallb representable (data sample_depth_array) = true)
    by (vm_compute; reflexivity).
  assert (Hrep : Forall (fun x => representable x = true) (data sample_depth_array)).
  { apply Forall_forall. intros x Hx.
    exact (proj1 (forallb_forall _ _) Hb x Hx). }
  split; [exact Hmin|]. split; [exact Hmax|].
  exact (normalised_map_unchanged rgba_2x2 (Ok sample_depth_array : StubModel)
           (Ok sample_depth_array) sample_depth_array eq_refl Hmin Hmax Hrep).
Defined.

(** The normalised raster 2, 4, 6, 8, normalised again. *)
Lemma estimate_depth_idempotent_witness :
  estimate_depth rgba_2x2
    (Ok (map_array (fun x => div (sub x (of_Z 2)) (sub (of_Z 8) (of_Z 2)))
                   known_raster) : StubModel)
  = (Ok (map_array (fun x => div (sub x (of_Z 2)) (sub (of_Z 8) (of_Z 2)))
                   known_raster),
     Ok (map_array (fun x => div (sub x (of_Z 2)) (sub (of_Z 8) (of_Z 2)))
                   known_raster)).
Proof.
  set (normalised := map_array (fun x => div (sub x (of_Z 2)) (sub (of_Z 8) (of_Z 2)))
                               known_raster).
  destruct (estimate_depth_idempotent rgba_2x2 rgba_2x2
              (Ok known_raster : StubModel) (Ok known_raster)
              (Ok normalised : StubModel) (Ok normalised)
              known_raster _ _ eq_refl
              known_raster_min known_raster_max
              known_raster_spread known_raster_spread_max)
    as (out & Hest & Hagain).
  assert (E : estimate_depth rgba_2x2 (Ok known_raster : StubModel)
              = (Ok known_raster, Ok normalised)) by (vm_compute; reflexivity).
  rewrite E in Hest. injection Hest as <-.
  apply Hagain. reflexivity.
Defined.

(** 2, 4, 6, 8 and 5, 7, 9, 11. *)
Lemma offset_invariance_witness :
  map_array (shifted (3 * one_grid)) known_raster
  = {| shape := [2; 2]%nat; data := [of_Z 5; of_Z 7; of_Z 9; of_Z 11] |} /\
  snd (estimate_depth rgba_2x2
         (Ok (map_array (shifted (3 * one_grid)) known_raster) : StubModel))
  = snd (estimate_depth rgba_2x2 (Ok known_raster : StubModel)).
Proof.
  split; [vm_compute; reflexivity|].
  exact (offset_invariance rgba_2x2 rgba_2x2
           (Ok known_raster : StubModel) (Ok known_raster)
           (Ok (map_array (shifted (3 * one_grid)) known_raster) : StubModel)
           (Ok (map_array (shifted (3 * one_grid)) known_raster))
           known_raster _ _ eq_refl known_raster_min known_raster_max
           (3 * one_grid)%Z eq_refl).
Defined.

(** 2, 4, 6, 8 and 8, 16, 24, 32. *)
Lemma power_of_two_invariance_witness :
  map_array (scaled 2) known_raster
  = {| shape := [2; 2]%nat; data := [of_Z 8; of_Z 16; of_Z 24; of_Z 32] |} /\
  snd (estimate_depth rgba_2x2 (Ok (map_array (scaled 2) known_raster) : StubModel))
  = snd (estimate_depth rgba_2x2 (Ok known_raster : StubModel)).
Proof.
  assert (Hj : (0 <= 2 <= 127)%Z) by (split; discriminate).
  assert (Hb : forallb representable (data known_raster) = true)
    by (vm_compute; reflexivity).
  assert (Hrep : Forall (fun x => representable x = true) (data known_raster)).
  { apply Forall_forall. intros x Hx.
    exact (proj1 (forallb_forall _ _) Hb x Hx). }
  assert (Hlow : (- max_float <= 2 * one_grid * 2 ^ 2)%Z)
    by (vm_compute; discriminate).
  assert (Hhigh : (8 * one_grid * 2 ^ 2 <= max_float)%Z)
    by (vm_compute; discriminate).
  assert (Hle : ((8 * one_grid - 2 * one_grid) * 2 ^ 2 <= max_float)%Z)
    by (vm_compute; discriminate).
  split; [vm_compute; reflexivity|].
  exact (power_of_two_invariance rgba_2x2 rgba_2x2
           (Ok known_raster : StubModel) (Ok known_raster)
           (Ok (map_array (scaled 2) known_raster) : StubModel)
           (Ok (map_array (scaled 2) known_raster))
           known_raster _ _ eq_refl known_raster_min known_raster_max
           2%Z Hj Hrep Hlow Hhigh Hle eq_refl).
Defined.


Lemma byte_roundtrip_witness :
  @depth_to_uint8 zero_cast
    (map_array recovered32 {| shape := [1; 3]%nat; data := [0; 128; 255]%Z |})
  = {| shape := [1; 3]%nat; data := [0; 128; 255]%Z |}.
Proof.
  apply (@byte_roundtrip zero_cast).
  cbn [data]. repeat constructor; discriminate.
Defined.

(** The depth image of the sample map, uploaded. *)
Lemma depth_png_decodes_to_grey_rgb_witness :
  @lossless raw_codec /\
  well_formed sample_depth_array /\
  exists png out,
    @depth_to_png zero_cast raw_codec sample_depth_array = Ok png /\
    @decode_upload raw_codec png = Ok out /\
    im_mode out = RGB /\ im_size out = (4, 4)%nat.
Proof.
  assert (Hwf : well_formed sample_depth_array) by reflexivity.
  assert (Hr : (0 < 4)%nat) by (apply Nat.ltb_lt; reflexivity).
  split; [exact raw_codec_lossless|]. split; [exact Hwf|].
  destruct (@depth_png_decodes_to_grey_rgb zero_cast raw_codec sample_depth_array 4 4
              raw_codec_lossless eq_refl Hr Hr Hwf) as (png & Hpng & Hdec).
  eexists png, _. split; [exact Hpng|]. split; [exact Hdec|]. split; reflexivity.
Defined.

Lemma depth_image_full_range_witness :
  exists out,
    estimate_depth rgba_2x2 (Ok known_raster : StubModel)
    = (Ok known_raster, Ok out) /\
    In 0%Z (data (@depth_to_uint8 zero_cast out)) /\
    In 255%Z (data (@depth_to_uint8 zero_cast out)).
Proof.
  exact (@depth_image_full_range _ _ zero_cast rgba_2x2 (Ok known_raster : StubModel)
           (Ok known_raster) known_raster eq_refl _ _
           known_raster_min known_raster_max
           known_raster_spread known_raster_spread_max).
Defined.

Lemma constant_raster_black_image_witness :
  data uniform_raster <> [] /\
  exists out,
    estimate_depth rgba_2x2 (Ok uniform_raster : StubModel)
    = (Ok uniform_raster, Ok out) /\
    shape (@depth_to_uint8 zero_cast out) = [2; 2]%nat /\
    Forall (fun p => p = 0%Z) (data (@depth_to_uint8 zero_cast out)).
Proof.
  assert (Hne : data uniform_raster <> []) by discriminate.
  split; [exact Hne|].
  exact (@constant_raster_black_image _ _ zero_cast rgba_2x2
           (Ok uniform_raster : StubModel) (Ok uniform_raster) uniform_raster
           eq_refl Hne uniform_raster_constant).
Defined.

(** The second prediction on a machine without accelerators. *)
Lemma predict_uses_loaded_components_witness :
  exists self log self' log',
    @predictions cpu_only (@init cpu_only) [] [rgba_2x2] = (self, log) /\
    @_load cpu_only self log = (self', log', Ok tt) /\
    exists p m,
      @predict_adapter cpu_only self log rgba_2x2
      = (self', (log' ++ [ForwardPass])%list,
         @infer cpu_only p m (Some cpu) rgba_2x2).
Proof.
  destruct (@predictions cpu_only (@init cpu_only) [] [rgba_2x2])
    as [self log] eqn:Hruns.
  destruct (@_load cpu_only self log) as [[self' log'] r] eqn:Hload.
  assert (Hr : r = Ok tt).
  { vm_compute in Hruns. injection Hruns as <- <-.
    vm_compute in Hload. injection Hload as _ _ <-. reflexivity. }
  subst r.
  exists self, log, self', log'. split; [reflexivity|]. split; [exact Hload|].
  destruct (@predict_uses_loaded_components cpu_only [rgba_2x2] rgba_2x2
              self log self' log' Hruns Hload)
    as (p & m & _ & _ & _ & Hpred).
  exists p, m. exact Hpred.
Defined.

(** Two predictions without a connection. *)
Lemma failed_fetch_is_retried_witness :
  @_model offline (@init offline) = None /\
  @network_from_pretrained offline MODEL_ID (@cache_dir offline)
  = Raise (OtherException "OSError" "We couldn't connect to huggingface.co") /\
  exists self' attempts,
    @predictions offline (@init offline) [] [rgba_2x2; rgba_2x2]
    = (self', attempts) /\
    @_model offline self' = None.
Proof.
  assert (Hfetch :
    @processor_from_pretrained offline MODEL_ID (@cache_dir offline)
    = Raise (OtherException "OSError" "We couldn't connect to huggingface.co") \/
    (exists p, @processor_from_pretrained offline MODEL_ID (@cache_dir offline) = Ok p) /\
    @network_from_pretrained offline MODEL_ID (@cache_dir offline)
    = Raise (OtherException "OSError" "We couldn't connect to huggingface.co")).
  { right. split; [exists tt; reflexivity|reflexivity]. }
  split; [reflexivity|]. split; [reflexivity|].
  destruct (@failed_fetch_is_retried offline _ [rgba_2x2; rgba_2x2]
              (@init offline) [] eq_refl Hfetch)
    as (_ & self' & attempts & Hruns & Hnone & _).
  exists self', attempts. split; [exact Hruns|exact Hnone].
Defined.

(** A CUDA device without memory. *)
Lemma failed_move_keeps_fetched_network_witness :
  @network_to move_fails false (@_detect_device move_fails)
  = Raise (OtherException "RuntimeError" "CUDA out of memory") /\
  exists self1 log1,
    @predict_adapter move_fails (@init move_fails) [] rgba_2x2
    = (self1, log1, Raise (OtherException "RuntimeError" "CUDA out of memory")) /\
    @_model move_fails self1 = Some false.
Proof.
  split; [reflexivity|].
  destruct (@failed_move_keeps_fetched_network move_fails tt false
              (OtherException "RuntimeError" "CUDA out of memory") [] rgba_2x2
              eq_refl eq_refl eq_refl)
    as (self1 & log1 & Hpred & Hmodel & _).
  exists self1, log1. split; [exact Hpred|exact Hmodel].
Defined.

Lemma calls_use_one_model_and_cache_witness :
  exists self log,
    @predictions cpu_only (@init cpu_only) [] [rgba_2x2; rgba_2x2] = (self, log) /\
    Forall (@expected_event cpu_only) log.
Proof.
  destruct (@predictions cpu_only (@init cpu_only) [] [rgba_2x2; rgba_2x2])
    as [self log] eqn:Hruns.
  exists self, log. split; [reflexivity|].
  exact (proj1 (@calls_use_one_model_and_cache cpu_only [rgba_2x2; rgba_2x2]
                  self log Hruns)).
Defined.

(** A 1x3 raster for a 2x2 upload. *)
Lemma headers_describe_body_witness :
  exists model' r,
    @depth _ stub_port zero_cast raw_codec rgba_2x2_bytes (Ok strip_raster)
    = (model', Returned r) /\
    status_code r = 200%nat /\ media_type r = "image/png"%string.
Proof.
  destruct (@depth _ stub_port zero_cast raw_codec rgba_2x2_bytes (Ok strip_raster))
    as [model' o] eqn:Hdepth.
  assert (Ho : exists r, o = Returned r).
  { vm_compute in Hdepth. injection Hdepth as _ <-. eexists. reflexivity. }
  destruct Ho as [r ->].
  exists model', r. split; [reflexivity|].
  destruct (@headers_describe_body _ stub_port zero_cast raw_codec rgba_2x2_bytes
              (Ok strip_raster) model' r Hdepth)
    as (img & png & Hstatus & Hmedia & _).
  split; [exact Hstatus|exact Hmedia].
Defined.

(** Two uploads of [b"not-an-image"] to a fresh adapter. *)
Lemma undecodable_uploads_skip_model_witness :
  @decodable raw_codec not_an_image = false /\
  @readable raw_codec not_an_image = false /\
  @serve _ (@adapter_port cpu_only) zero_cast raw_codec
         [not_an_image; not_an_image] (@init cpu_only, [])
  = ((@init cpu_only, []), [invalid_image_response; invalid_image_response]).
Proof.
  assert (Hbad : @decodable raw_codec not_an_image = false)
    by (vm_compute; reflexivity).
  assert (Hbad' : @readable raw_codec not_an_image = false)
    by (vm_compute; reflexivity).
  split; [exact Hbad|]. split; [exact Hbad'|].
  apply (@undecodable_uploads_skip_model _ (@adapter_port cpu_only) zero_cast raw_codec
           [not_an_image; not_an_image] (@init cpu_only, [])).
  - constructor; [exact Hbad|]. constructor; [exact Hbad|]. constructor.
  - constructor; [exact Hbad'|]. constructor; [exact Hbad'|]. constructor.
Defined.

(** An image, [b"not-an-image"] and an image again, to a loaded adapter. *)
Lemma one_forward_pass_per_decodable_upload_witness :
  fst (@serve _ (@adapter_port cpu_only) zero_cast raw_codec
              [rgba_2x2_bytes; not_an_image; rgba_2x2_bytes]
              (mk_adapter cpu_only (Some tt) (Some true) (Some cpu), []))
  = (mk_adapter cpu_only (Some tt) (Some true) (Some cpu),
     [ForwardPass; ForwardPass]).
Proof.
  assert (Hn : List.length (filter (@decodable raw_codec)
                              [rgba_2x2_bytes; not_an_image; rgba_2x2_bytes])
               = 2%nat) by (vm_compute; reflexivity).
  pose proof (proj1 (@one_forward_pass_per_decodable_upload cpu_only zero_cast raw_codec
                       [rgba_2x2_bytes; not_an_image; rgba_2x2_bytes]
                       (mk_adapter cpu_only (Some tt) (Some true) (Some cpu)) []
                       tt true eq_refl eq_refl)) as Hserve.
  rewrite Hn in Hserve. exact Hserve.
Defined.

(** The 64x64 image of the tests. *)
Lemma mock_gradient_unchanged_witness :
  exists out,
    estimate_depth test_image mock_model = (mock_model, Ok out) /\
    shape out = [64; 64]%nat /\
    Forall in_unit_interval (data out).
Proof.
  destruct (mock_gradient_unchanged test_image 64 64 eq_refl) as
    (out & Hest & Hshape & Hunit & _).
  - apply Nat.leb_le. reflexivity.
  - apply Nat.leb_le. reflexivity.
  - exists out. auto.
Defined.

End LawWitnesses.
